(** * nocturne_memory: the review / maintenance client, embedded in Rocq

    The repository's sources are the browser client of the memory store:
    [lib/api.js] (the request layer), [components/DiffViewer.jsx],
    and the pages [RelationDetail], [EntityDetail], [ChapterDetail],
    [MaintenancePage] and [ReviewPage].  This file embeds the handlers of
    those pages as programs over a small effect signature (alerts, confirm
    dialogs, API requests, React state updates), together with the
    JavaScript built-ins they rely on, and proves the properties the
    specification states about them. *)

From Stdlib Require Import ZArith List Bool Lia String Ascii DecimalString.
From stdpp Require Import gmap.

Import ListNotations.
Local Open Scope Z_scope.

(* ===================================================================== *)
(** * JavaScript strings and built-ins                                    *)
(* ===================================================================== *)

Module JS.

(** A JavaScript string is a sequence of UTF-16 code units. *)
Definition jsstring : Type := list Z.

(** An ASCII literal of the sources, as code units. *)
Definition lit (s : string) : jsstring :=
  List.map (fun a => Z.of_N (N_of_ascii a)) (list_ascii_of_string s).
Arguments lit s%_string.

Definition is_code_unit (u : Z) : bool := (0 <=? u) && (u <? 0x10000).

(** ** Truthiness *)

(** [!s] is true exactly for the empty string. *)
Definition str_truthy (s : jsstring) : bool :=
  match s with [] => false | _ :: _ => true end.

(** [a === b] on strings. *)
Fixpoint str_eq (a b : jsstring) : bool :=
  match a, b with
  | [], [] => true
  | x :: a', y :: b' => (x =? y) && str_eq a' b'
  | _, _ => false
  end.

(** A value that may be [null], [undefined] or a string (props, params). *)
Inductive jsopt : Type :=
| Null
| Undefined
| Str (s : jsstring).

(** [a === b] for a string against a possibly missing string. *)
Definition strict_eq (a : jsstring) (b : jsopt) : bool :=
  match b with Str s => str_eq a s | Null | Undefined => false end.

Definition jsopt_eq (a b : jsopt) : bool :=
  match a, b with
  | Str s, Str t => str_eq s t
  | Null, Null | Undefined, Undefined => true
  | _, _ => false
  end.

(** [v || ''] for a string-or-missing value. *)
Definition or_empty (v : jsopt) : jsstring :=
  match v with
  | Str s => if str_truthy s then s else []
  | Null | Undefined => []
  end.

Definition jsopt_truthy (v : jsopt) : bool :=
  match v with Str s => str_truthy s | Null | Undefined => false end.

(** ** String.prototype.trim *)

(** WhiteSpace and LineTerminator code points of ECMAScript. *)
Definition is_white_space (u : Z) : bool :=
  (u =? 0x9) || (u =? 0xA) || (u =? 0xB) || (u =? 0xC) || (u =? 0xD)
  || (u =? 0x20) || (u =? 0xA0) || (u =? 0x1680)
  || ((0x2000 <=? u) && (u <=? 0x200A))
  || (u =? 0x2028) || (u =? 0x2029) || (u =? 0x202F) || (u =? 0x205F)
  || (u =? 0x3000) || (u =? 0xFEFF).

Fixpoint trim_start (s : jsstring) : jsstring :=
  match s with
  | u :: r => if is_white_space u then trim_start r else s
  | [] => []
  end.

Definition trim_end (s : jsstring) : jsstring :=
  rev (trim_start (rev s)).

Definition trim (s : jsstring) : jsstring := trim_end (trim_start s).

(** ** parseInt (radix omitted) *)

Definition digit_val (u : Z) : option Z :=
  if (48 <=? u) && (u <=? 57) then Some (u - 48)
  else if (97 <=? u) && (u <=? 122) then Some (u - 87)
  else if (65 <=? u) && (u <=? 90) then Some (u - 55)
  else None.

Definition radix_digit (R u : Z) : option Z :=
  match digit_val u with
  | Some d => if d <? R then Some d else None
  | None => None
  end.

(** The longest prefix of radix-[R] digits, as digit values. *)
Fixpoint digits_prefix (R : Z) (s : jsstring) : list Z :=
  match s with
  | u :: r =>
      match radix_digit R u with
      | Some d => d :: digits_prefix R r
      | None => []
      end
  | [] => []
  end.

Definition digits_value (R : Z) (ds : list Z) : Z :=
  fold_left (fun acc d => acc * R + d) ds 0.

(** [parseInt(s)]: [None] is NaN, [Some n] the mathematical integer parsed.
    The Number returned by the engine is the double nearest to [n]; every
    use in the sources clamps the result between 1 and 500, and clamping
    between two exactly representable bounds commutes with that rounding.
    [-0] is [Some 0]: both are falsy. *)
Definition parseInt (str : jsstring) : option Z :=
  let s0 := trim_start str in
  let sign := match s0 with u :: _ => if u =? 45 then -1 else 1 | [] => 1 end in
  let s1 := match s0 with
            | u :: r => if (u =? 43) || (u =? 45) then r else s0
            | [] => s0
            end in
  let '(R, s2) := match s1 with
                  | z :: x :: r =>
                      if (z =? 48) && ((x =? 120) || (x =? 88)) then (16, r)
                      else (10, s1)
                  | _ => (10, s1)
                  end in
  match digits_prefix R s2 with
  | [] => None
  | ds => Some (sign * digits_value R ds)
  end.

(** [n || d] for a Number [n]: NaN and zero are falsy. *)
Definition num_or (n : option Z) (d : Z) : Z :=
  match n with
  | Some v => if v =? 0 then d else v
  | None => d
  end.

(** ** Number to string, Array.prototype.join *)

(** [String(n)] for an integer-valued Number within the exact range. *)
Definition num_to_string (n : Z) : jsstring :=
  lit (DecimalString.NilZero.string_of_int (Z.to_int n)).

(** [`${v}`] for a possibly missing number. *)
Definition opt_num_to_string (n : option Z) : jsstring :=
  match n with Some v => num_to_string v | None => lit "undefined" end.

Fixpoint join (sep : jsstring) (l : list jsstring) : jsstring :=
  match l with
  | [] => []
  | [x] => x
  | x :: r => x ++ sep ++ join sep r
  end.

(** [a.slice(0, n)] *)
Definition slice0 {A} (n : nat) (l : list A) : list A := firstn n l.

(** ** encodeURIComponent / decodeURIComponent *)

Definition is_alnum (u : Z) : bool :=
  ((48 <=? u) && (u <=? 57)) || ((65 <=? u) && (u <=? 90))
  || ((97 <=? u) && (u <=? 122)).

(** uriUnreserved: alphanumerics and [- _ . ! ~ * ' ( )]. *)
Definition is_unreserved (u : Z) : bool :=
  is_alnum u || (u =? 45) || (u =? 95) || (u =? 46) || (u =? 33)
  || (u =? 126) || (u =? 42) || (u =? 39) || (u =? 40) || (u =? 41).

Definition is_high_surrogate (u : Z) : bool := (0xD800 <=? u) && (u <=? 0xDBFF).
Definition is_low_surrogate (u : Z) : bool := (0xDC00 <=? u) && (u <=? 0xDFFF).

(** UTF16SurrogatePairToCodePoint *)
Definition pair_to_code_point (hi lo : Z) : Z :=
  (hi - 0xD800) * 0x400 + (lo - 0xDC00) + 0x10000.

(** The UTF-8 octets of a code point; shifts and masks are written as
    division and remainder by powers of two. *)
Definition utf8_encode (cp : Z) : list Z :=
  if cp <? 0x80 then [cp]
  else if cp <? 0x800 then [0xC0 + cp / 64; 0x80 + cp mod 64]
  else if cp <? 0x10000 then
    [0xE0 + cp / 4096; 0x80 + (cp / 64) mod 64; 0x80 + cp mod 64]
  else
    [0xF0 + cp / 262144; 0x80 + (cp / 4096) mod 64;
     0x80 + (cp / 64) mod 64; 0x80 + cp mod 64].

Definition hex_digit (d : Z) : Z := if d <? 10 then 48 + d else 55 + d.

(** ["%XX"], upper-case hexadecimal. *)
Definition pct (b : Z) : jsstring := [37; hex_digit (b / 16); hex_digit (b mod 16)].

Definition escape_code_point (cp : Z) : jsstring :=
  List.concat (List.map pct (utf8_encode cp)).

Definition opt_map {A B} (f : A -> B) (o : option A) : option B :=
  match o with Some a => Some (f a) | None => None end.

(** [encodeURIComponent(s)]; [None] is the URIError thrown at a lone
    surrogate. *)
Fixpoint encodeURIComponent (s : jsstring) : option jsstring :=
  match s with
  | [] => Some []
  | c :: r =>
      if is_unreserved c then opt_map (cons c) (encodeURIComponent r)
      else if is_high_surrogate c then
        match r with
        | d :: r' =>
            if is_low_surrogate d then
              opt_map (app (escape_code_point (pair_to_code_point c d)))
                      (encodeURIComponent r')
            else None
        | [] => None
        end
      else if is_low_surrogate c then None
      else opt_map (app (escape_code_point c)) (encodeURIComponent r)
  end.

Definition hex_val (u : Z) : option Z :=
  match digit_val u with
  | Some d => if d <? 16 then Some d else None
  | None => None
  end.

(** The input of the decoder after reading the escapes: literal code units
    and octets. *)
Inductive tok : Type :=
| Lit (c : Z)
| Oct (b : Z).

Fixpoint unescape (s : jsstring) : option (list tok) :=
  match s with
  | [] => Some []
  | c :: r =>
      if c =? 37 then
        match r with
        | h1 :: h2 :: r' =>
            match hex_val h1, hex_val h2 with
            | Some a, Some b => opt_map (cons (Oct (16 * a + b))) (unescape r')
            | _, _ => None
            end
        | _ => None
        end
      else opt_map (cons (Lit c)) (unescape r)
  end.

Definition is_cont (b : Z) : bool := (0x80 <=? b) && (b <? 0xC0).

(** UTF16EncodeCodePoint *)
Definition utf16_encode (cp : Z) : jsstring :=
  if cp <? 0x10000 then [cp]
  else [0xD800 + (cp - 0x10000) / 0x400; 0xDC00 + (cp - 0x10000) mod 0x400].

(** Octet groups must be well-formed UTF-8: no overlong form, no surrogate,
    nothing above U+10FFFF. *)
Fixpoint utf8_decode (ts : list tok) : option jsstring :=
  match ts with
  | [] => Some []
  | Lit c :: r => opt_map (cons c) (utf8_decode r)
  | Oct b :: r =>
      if b <? 0x80 then opt_map (cons b) (utf8_decode r)
      else if b <? 0xC0 then None
      else if b <? 0xE0 then
        match r with
        | Oct b1 :: r' =>
            let cp := (b - 0xC0) * 64 + (b1 - 0x80) in
            if is_cont b1 && (0x80 <=? cp)
            then opt_map (app (utf16_encode cp)) (utf8_decode r')
            else None
        | _ => None
        end
      else if b <? 0xF0 then
        match r with
        | Oct b1 :: Oct b2 :: r' =>
            let cp := (b - 0xE0) * 4096 + (b1 - 0x80) * 64 + (b2 - 0x80) in
            if is_cont b1 && is_cont b2 && (0x800 <=? cp)
               && negb ((0xD800 <=? cp) && (cp <=? 0xDFFF))
            then opt_map (app (utf16_encode cp)) (utf8_decode r')
            else None
        | _ => None
        end
      else if b <? 0xF8 then
        match r with
        | Oct b1 :: Oct b2 :: Oct b3 :: r' =>
            let cp := (b - 0xF0) * 262144 + (b1 - 0x80) * 4096
                      + (b2 - 0x80) * 64 + (b3 - 0x80) in
            if is_cont b1 && is_cont b2 && is_cont b3
               && (0x10000 <=? cp) && (cp <=? 0x10FFFF)
            then opt_map (app (utf16_encode cp)) (utf8_decode r')
            else None
        | _ => None
        end
      else None
  end.

(** [decodeURIComponent(s)]; [None] is the URIError. *)
Definition decodeURIComponent (s : jsstring) : option jsstring :=
  match unescape s with
  | Some ts => utf8_decode ts
  | None => None
  end.

(** Strings encodeURIComponent accepts: code units in range, every
    surrogate paired. *)
Fixpoint well_formed (s : jsstring) : bool :=
  match s with
  | [] => true
  | c :: r =>
      is_code_unit c &&
      (if is_high_surrogate c then
         match r with
         | d :: r' => is_low_surrogate d && well_formed r'
         | [] => false
         end
       else negb (is_low_surrogate c) && well_formed r)
  end.

Definition is_byte (b : Z) : Prop := 0 <= b < 256.

(** Unicode scalar values. *)
Definition is_scalar (cp : Z) : Prop :=
  0 <= cp <= 0x10FFFF /\ ~ (0xD800 <= cp <= 0xDFFF).

(** What encoding then decoding [s] amounts to: the escapes are read back
    as the octets written, the octets as the code units of [s], and no
    ['/'] is produced. *)
Definition round_trip (s : jsstring) : Prop :=
  exists e ts,
    encodeURIComponent s = Some e
    /\ unescape e = Some ts
    /\ utf8_decode ts = Some s
    /\ ~ In 47 e.

(** [`${v}`] for a string that may be missing. *)
Definition interpolate (v : jsopt) : jsstring :=
  match v with
  | Str s => s
  | Null => lit "null"
  | Undefined => lit "undefined"
  end.

End JS.

Import JS.
(* ===================================================================== *)
(** * lib/api.js: the request layer                                       *)
(* ===================================================================== *)

Module Api.

(** ** Payloads (the fields the client reads) *)

Record session := { session_id : jsstring }.

Record snapshot := {
  resource_id : jsstring;
  resource_type : jsstring;
  operation_type : jsopt
}.

Record diff_data := {
  snapshot_content : jsopt;
  current_content : jsopt;
  has_changes : bool;
  diff_summary : jsstring
}.

Record state_data := {
  state_id : jsstring;
  entity_id : jsopt;
  version : Z;
  name : jsopt;
  content : jsopt;
  in_count : option Z;   (* [None]: not a number *)
  out_count : option Z
}.

Record version_entry := { h_state_id : jsopt; h_version : Z }.

Record edge := {
  target_entity_id : jsstring;
  target_name : jsstring;
  relation : jsstring;
  viewer_version : Z
}.

Record child := { child_entity_id : jsstring; child_name : jsstring }.

Record entity_info := {
  history : option (list version_entry);
  edges : option (list edge);
  children : option (list child)
}.

Record direct_edge := { d_relation : jsopt; d_content : jsopt }.

Record relation_detail := { direct : option direct_edge }.

Record chapter_response := { ch_state : option state_data; ch_edge_id : jsopt }.

Record orphan_state := { o_state_id : jsstring; is_current : bool }.
Record orphan_states := { os_count : Z; states : list orphan_state }.

Record orphan_entity := { o_entity_id : jsstring }.
Record orphan_entities := { oe_count : Z; entities : list orphan_entity }.

Record batch_result := { deleted_count : Z; failed_count : Z }.

(** A rejected request, as axios reports it. *)
Record error := {
  message : jsstring;
  detail : jsopt;          (* [err.response?.data?.detail] *)
  status : option Z        (* [err.response?.status] *)
}.

Inductive result (X : Type) : Type :=
| Ok (data : X)
| Err (err : error).
Arguments Ok {X} data.
Arguments Err {X} err.

Definition is_ok {X} (r : result X) : bool :=
  match r with Ok _ => true | Err _ => false end.

(** ** The exported request functions, indexed by the type of [res.data] *)

Inductive call : Type -> Type :=
| getSessions : call (list session)
| getSnapshots (sessionId : jsstring) : call (list snapshot)
| getDiff (sessionId resourceId : jsstring) : call diff_data
| rollbackResource (sessionId resourceId : jsstring) : call unit
| approveSnapshot (sessionId resourceId : jsstring) : call unit
| clearSession (sessionId : jsstring) : call unit
| getCatalog : call unit
| getRelationDetail (viewerId targetId : jsstring) : call (option relation_detail)
| getEntityInfo (entityId : jsstring) : call entity_info
| getState (stateId : jsstring) : call state_data
| deleteState (stateId : jsstring) : call unit
| deleteEntity (entityId : jsstring) : call unit
| deleteDirectEdge (viewerId targetId : jsstring) : call unit
| deleteRelayEdge (edgeId : jsstring) : call unit
| getChapter (viewerId targetId chapterName : jsstring) : call (option chapter_response)
| getOrphanStates (mode : jsstring) (limit : Z) : call orphan_states
| deleteStatesBatch (stateIds : list jsstring) : call batch_result
| getOrphanEntities (limit : Z) : call orphan_entities
| deleteEntitiesBatch (entityIds : list jsstring) : call batch_result
| updateEntity (entityId newContent : jsstring) (newName taskDescription : jsopt) : call unit
| updateDirectEdge (viewerId targetId newContent : jsstring)
                   (newRelation taskDescription : jsopt) : call unit
| updateChapter (viewerId targetId chapterName newContent : jsstring)
                (taskDescription : jsopt) : call unit
| linkParent (childId parentId : jsstring) : call unit
| unlinkParent (childId parentId : jsstring) : call unit.

(** The three edit endpoints. *)
Definition is_update {X} (c : call X) : bool :=
  match c with
  | updateEntity _ _ _ _ | updateDirectEdge _ _ _ _ _ | updateChapter _ _ _ _ _ => true
  | _ => false
  end.

(** ** The wire form *)

Inductive method : Type := GET | POST | PUT | DELETE.

Inductive jsval : Type :=
| VNull
| VBool (b : bool)
| VNum (n : Z)
| VStr (s : jsstring)
| VArr (l : list jsstring).

Record request := {
  rq_method : method;
  rq_url : jsstring;                    (* relative to baseURL '/api' *)
  rq_params : list (string * jsval);    (* query parameters *)
  rq_body : list (string * jsval)
}.

(** [const encodeId = (id) => encodeURIComponent(id)] *)
Definition encodeId (id : jsstring) : option jsstring := encodeURIComponent id.

Definition of_jsopt (v : jsopt) : jsval :=
  match v with Str s => VStr s | Null | Undefined => VNull end.

(** [taskDescription || 'Salem edited via frontend'] *)
Definition task_or_default (t : jsopt) : jsval :=
  if jsopt_truthy t then of_jsopt t else VStr (lit "Salem edited via frontend").

Definition mk (m : method) (url : jsstring) : request :=
  {| rq_method := m; rq_url := url; rq_params := []; rq_body := [] |}.

Definition mk_params (m : method) (url : jsstring) (ps : list (string * jsval)) : request :=
  {| rq_method := m; rq_url := url; rq_params := ps; rq_body := [] |}.

Definition mk_body (m : method) (url : jsstring) (b : list (string * jsval)) : request :=
  {| rq_method := m; rq_url := url; rq_params := []; rq_body := b |}.

Definition field (k : string) (v : jsval) : string * jsval := (k, v).
Arguments field k%_string v.

(** The request each function sends; [None] when [encodeId] throws. The
    session id is interpolated as it is, every other id through [encodeId]. *)
Definition http {X} (c : call X) : option request :=
  match c with
  | getSessions => Some (mk GET (lit "/review/sessions"))
  | getSnapshots sessionId =>
      Some (mk GET (lit "/review/sessions/" ++ sessionId ++ lit "/snapshots"))
  | getDiff sessionId resourceId =>
      r ← encodeId resourceId;
      Some (mk GET (lit "/review/sessions/" ++ sessionId ++ lit "/diff/" ++ r))
  | rollbackResource sessionId resourceId =>
      r ← encodeId resourceId;
      Some (mk POST (lit "/review/sessions/" ++ sessionId ++ lit "/rollback/" ++ r))
  | approveSnapshot sessionId resourceId =>
      r ← encodeId resourceId;
      Some (mk DELETE (lit "/review/sessions/" ++ sessionId ++ lit "/snapshots/" ++ r))
  | clearSession sessionId =>
      Some (mk DELETE (lit "/review/sessions/" ++ sessionId))
  | getCatalog => Some (mk GET (lit "/catalog"))
  | getRelationDetail viewerId targetId =>
      v ← encodeId viewerId; t ← encodeId targetId;
      Some (mk GET (lit "/catalog/relation/" ++ v ++ lit "/" ++ t))
  | getEntityInfo entityId =>
      e ← encodeId entityId;
      Some (mk_params GET (lit "/nodes/entities/" ++ e)
              [field "include_basic" (VBool true); field "include_history" (VBool true);
               field "include_edges" (VBool true); field "include_children" (VBool true)])
  | getState stateId =>
      s ← encodeId stateId; Some (mk GET (lit "/nodes/states/" ++ s))
  | deleteState stateId =>
      s ← encodeId stateId; Some (mk DELETE (lit "/nodes/states/" ++ s))
  | deleteEntity entityId =>
      e ← encodeId entityId; Some (mk DELETE (lit "/nodes/entities/" ++ e))
  | deleteDirectEdge viewerId targetId =>
      v ← encodeId viewerId; t ← encodeId targetId;
      Some (mk DELETE (lit "/edges/direct/" ++ v ++ lit "/" ++ t))
  | deleteRelayEdge edgeId =>
      e ← encodeId edgeId; Some (mk DELETE (lit "/edges/relay/" ++ e))
  | getChapter viewerId targetId chapterName =>
      v ← encodeId viewerId; t ← encodeId targetId; c ← encodeId chapterName;
      Some (mk GET (lit "/edges/relay/" ++ v ++ lit "/" ++ t ++ lit "/" ++ c))
  | getOrphanStates mode limit =>
      Some (mk_params GET (lit "/nodes/maintenance/orphan_states")
              [field "mode" (VStr mode); field "limit" (VNum limit)])
  | deleteStatesBatch stateIds =>
      Some (mk_body POST (lit "/nodes/maintenance/delete_states")
              [field "state_ids" (VArr stateIds)])
  | getOrphanEntities limit =>
      Some (mk_params GET (lit "/nodes/maintenance/orphan_entities")
              [field "limit" (VNum limit)])
  | deleteEntitiesBatch entityIds =>
      Some (mk_body POST (lit "/nodes/maintenance/delete_entities")
              [field "entity_ids" (VArr entityIds)])
  | updateEntity entityId newContent newName taskDescription =>
      e ← encodeId entityId;
      Some (mk_body POST (lit "/nodes/entities/" ++ e ++ lit "/update")
              [field "new_content" (VStr newContent); field "new_name" (of_jsopt newName);
               field "task_description" (task_or_default taskDescription)])
  | updateDirectEdge viewerId targetId newContent newRelation taskDescription =>
      v ← encodeId viewerId; t ← encodeId targetId;
      Some (mk_body PUT (lit "/edges/direct/" ++ v ++ lit "/" ++ t)
              [field "new_content" (VStr newContent); field "new_relation" (of_jsopt newRelation);
               field "task_description" (task_or_default taskDescription)])
  | updateChapter viewerId targetId chapterName newContent taskDescription =>
      v ← encodeId viewerId; t ← encodeId targetId; c ← encodeId chapterName;
      Some (mk_body PUT (lit "/edges/chapter/" ++ v ++ lit "/" ++ t ++ lit "/" ++ c)
              [field "new_content" (VStr newContent);
               field "task_description" (task_or_default taskDescription)])
  | linkParent childId parentId =>
      Some (mk_body POST (lit "/nodes/parent-child/link")
              [field "child_id" (VStr childId); field "parent_id" (VStr parentId)])
  | unlinkParent childId parentId =>
      Some (mk_body POST (lit "/nodes/parent-child/unlink")
              [field "child_id" (VStr childId); field "parent_id" (VStr parentId)])
  end.

(** ** The receiving side of a path *)

(** The pieces of [s] between occurrences of [sep]. *)
Fixpoint split_on (sep : Z) (s : jsstring) : list jsstring :=
  match s with
  | [] => [[]]
  | c :: r =>
      if c =? sep then [] :: split_on sep r
      else match split_on sep r with
           | seg :: segs => (c :: seg) :: segs
           | [] => [[c]]
           end
  end.

Fixpoint decode_all (segs : list jsstring) : option (list jsstring) :=
  match segs with
  | [] => Some []
  | s :: r =>
      match decodeURIComponent s, decode_all r with
      | Some d, Some ds => Some (d :: ds)
      | _, _ => None
      end
  end.

(** What a router recovers from a request path: the path is cut at every
    ['/'] and each segment is percent-decoded. *)
Definition path_segments (url : jsstring) : option (list jsstring) :=
  decode_all (split_on 47 url).

(** ** What the path of a request is meant to carry *)

(** The segments of each route, with the identifiers as the caller passed
    them: what the receiving side should read back from the path. *)
Definition route {X} (c : call X) : list jsstring :=
  match c with
  | getSessions => [lit "review"; lit "sessions"]
  | getSnapshots sessionId => [lit "review"; lit "sessions"; sessionId; lit "snapshots"]
  | getDiff sessionId resourceId =>
      [lit "review"; lit "sessions"; sessionId; lit "diff"; resourceId]
  | rollbackResource sessionId resourceId =>
      [lit "review"; lit "sessions"; sessionId; lit "rollback"; resourceId]
  | approveSnapshot sessionId resourceId =>
      [lit "review"; lit "sessions"; sessionId; lit "snapshots"; resourceId]
  | clearSession sessionId => [lit "review"; lit "sessions"; sessionId]
  | getCatalog => [lit "catalog"]
  | getRelationDetail viewerId targetId =>
      [lit "catalog"; lit "relation"; viewerId; targetId]
  | getEntityInfo entityId => [lit "nodes"; lit "entities"; entityId]
  | getState stateId => [lit "nodes"; lit "states"; stateId]
  | deleteState stateId => [lit "nodes"; lit "states"; stateId]
  | deleteEntity entityId => [lit "nodes"; lit "entities"; entityId]
  | deleteDirectEdge viewerId targetId => [lit "edges"; lit "direct"; viewerId; targetId]
  | deleteRelayEdge edgeId => [lit "edges"; lit "relay"; edgeId]
  | getChapter viewerId targetId chapterName =>
      [lit "edges"; lit "relay"; viewerId; targetId; chapterName]
  | getOrphanStates _ _ => [lit "nodes"; lit "maintenance"; lit "orphan_states"]
  | deleteStatesBatch _ => [lit "nodes"; lit "maintenance"; lit "delete_states"]
  | getOrphanEntities _ => [lit "nodes"; lit "maintenance"; lit "orphan_entities"]
  | deleteEntitiesBatch _ => [lit "nodes"; lit "maintenance"; lit "delete_entities"]
  | updateEntity entityId _ _ _ => [lit "nodes"; lit "entities"; entityId; lit "update"]
  | updateDirectEdge viewerId targetId _ _ _ =>
      [lit "edges"; lit "direct"; viewerId; targetId]
  | updateChapter viewerId targetId chapterName _ _ =>
      [lit "edges"; lit "chapter"; viewerId; targetId; chapterName]
  | linkParent _ _ => [lit "nodes"; lit "parent-child"; lit "link"]
  | unlinkParent _ _ => [lit "nodes"; lit "parent-child"; lit "unlink"]
  end.

(** The identifiers a request puts into its path through [encodeId]. *)
Definition escaped_ids {X} (c : call X) : list jsstring :=
  match c with
  | getDiff _ r | rollbackResource _ r | approveSnapshot _ r => [r]
  | getRelationDetail v t | deleteDirectEdge v t | updateDirectEdge v t _ _ _ => [v; t]
  | getEntityInfo e | deleteEntity e | updateEntity e _ _ _ => [e]
  | getState s | deleteState s => [s]
  | deleteRelayEdge e => [e]
  | getChapter v t n | updateChapter v t n _ _ => [v; t; n]
  | _ => []
  end.

(** The session id a request puts into its path as it is. *)
Definition session_of {X} (c : call X) : option jsstring :=
  match c with
  | getSnapshots s | getDiff s _ | rollbackResource s _ | approveSnapshot s _
  | clearSession s => Some s
  | _ => None
  end.

(** The path of the request carries every identifier without loss: cut at
    ['/'] and percent-decoded, it reads back as the route (after the empty
    segment before the leading ['/']). *)
Definition lossless {X} (c : call X) : Prop :=
  exists rq, http c = Some rq /\ path_segments (rq_url rq) = Some ([] :: route c).

(** An identifier of unreserved characters only, which needs no escape. *)
Definition plain (id : jsstring) : bool := forallb is_unreserved id.

(** A path written segment by segment. *)
Fixpoint build (segs : list jsstring) : jsstring :=
  match segs with
  | [] => []
  | [s] => 47 :: s
  | s :: rest => 47 :: s ++ build rest
  end.

(** A segment [e] of a path that reads back as [d]. *)
Definition carries (e d : jsstring) : Prop :=
  decodeURIComponent e = Some d /\ ~ In 47 e.

(** ** Endpoints *)

(** The exported function a request comes from. *)
Inductive endpoint : Type :=
| E_getSessions | E_getSnapshots | E_getDiff | E_rollbackResource
| E_approveSnapshot | E_clearSession | E_getCatalog | E_getRelationDetail
| E_getEntityInfo | E_getState | E_deleteState | E_deleteEntity
| E_deleteDirectEdge | E_deleteRelayEdge | E_getChapter | E_getOrphanStates
| E_deleteStatesBatch | E_getOrphanEntities | E_deleteEntitiesBatch
| E_updateEntity | E_updateDirectEdge | E_updateChapter | E_linkParent
| E_unlinkParent.

Definition endpoint_of {X} (c : call X) : endpoint :=
  match c with
  | getSessions => E_getSessions
  | getSnapshots _ => E_getSnapshots
  | getDiff _ _ => E_getDiff
  | rollbackResource _ _ => E_rollbackResource
  | approveSnapshot _ _ => E_approveSnapshot
  | clearSession _ => E_clearSession
  | getCatalog => E_getCatalog
  | getRelationDetail _ _ => E_getRelationDetail
  | getEntityInfo _ => E_getEntityInfo
  | getState _ => E_getState
  | deleteState _ => E_deleteState
  | deleteEntity _ => E_deleteEntity
  | deleteDirectEdge _ _ => E_deleteDirectEdge
  | deleteRelayEdge _ => E_deleteRelayEdge
  | getChapter _ _ _ => E_getChapter
  | getOrphanStates _ _ => E_getOrphanStates
  | deleteStatesBatch _ => E_deleteStatesBatch
  | getOrphanEntities _ => E_getOrphanEntities
  | deleteEntitiesBatch _ => E_deleteEntitiesBatch
  | updateEntity _ _ _ _ => E_updateEntity
  | updateDirectEdge _ _ _ _ _ => E_updateDirectEdge
  | updateChapter _ _ _ _ _ => E_updateChapter
  | linkParent _ _ => E_linkParent
  | unlinkParent _ _ => E_unlinkParent
  end.

(** The identifiers of a call are fit for its path: those that go through
    [encodeId] are well-formed strings, the session id is plain. *)
Definition path_ready {X} (c : call X) : Prop :=
  Forall (fun id => well_formed id = true) (escaped_ids c)
  /\ (forall s, session_of c = Some s -> plain s = true).

(** A field of the JSON body. *)
Fixpoint body_field (k : string) (b : list (string * jsval)) : option jsval :=
  match b with
  | [] => None
  | (k', v) :: r => if String.eqb k k' then Some v else body_field k r
  end.
Arguments body_field k%_string b.

(** The [taskDescription] and the [newContent] an edit function is called
    with. *)
Definition task_argument {X} (c : call X) : jsopt :=
  match c with
  | updateEntity _ _ _ t | updateDirectEdge _ _ _ _ t | updateChapter _ _ _ _ t => t
  | _ => Undefined
  end.

Definition content_argument {X} (c : call X) : jsstring :=
  match c with
  | updateEntity _ n _ _ | updateDirectEdge _ _ n _ _ | updateChapter _ _ _ n _ => n
  | _ => []
  end.

(** A call that only reads. *)
Definition is_read {X} (c : call X) : bool :=
  match c with
  | getSessions | getSnapshots _ | getDiff _ _ | getCatalog | getRelationDetail _ _
  | getEntityInfo _ | getState _ | getChapter _ _ _ | getOrphanStates _ _
  | getOrphanEntities _ => true
  | _ => false
  end.

End Api.

(* ===================================================================== *)
(** * Handlers as programs                                                *)
(* ===================================================================== *)

Module UI.

Import Api.

(** An event handler of a component with state [S].  A handler closes over
    the state of the render that created it, so it is a function of that
    state; what it does afterwards is a tree of effects:
    - [Alert], [Confirm], [ConsoleError], [Navigate]: browser effects;
    - [Update f]: a [setXxx] call or a write to a ref;
    - [Read]: reading a ref, which sees the latest value;
    - [Await c]: [await] of a request of [lib/api.js], resumed with the
      data or with the rejection (the [catch] branch);
    - [Spawn t]: an async function called without [await]. *)
Inductive prog (S : Type) : Type :=
| Done
| Alert (msg : jsstring) (k : prog S)
| Confirm (msg : jsstring) (k : bool -> prog S)
| ConsoleError (k : prog S)
| Navigate (path : jsstring) (k : prog S)
| Update (f : S -> S) (k : prog S)
| Read (k : S -> prog S)
| Await {X : Type} (c : call X) (k : result X -> prog S)
| Spawn (task : prog S) (k : prog S).

Arguments Done {S}.
Arguments Alert {S} msg k.
Arguments Confirm {S} msg k.
Arguments ConsoleError {S} k.
Arguments Navigate {S} path k.
Arguments Update {S} f k.
Arguments Read {S} k.
Arguments Await {S X} c k.
Arguments Spawn {S} task k.

(** [p] followed by [q]: a [return] inside [p] ends [p] only, which is how
    [try { p } finally { q }] and an awaited helper behave. *)
Fixpoint seq {S} (p q : prog S) : prog S :=
  match p with
  | Done => q
  | Alert m k => Alert m (seq k q)
  | Confirm m k => Confirm m (fun a => seq (k a) q)
  | ConsoleError k => ConsoleError (seq k q)
  | Navigate t k => Navigate t (seq k q)
  | Update f k => Update f (seq k q)
  | Read k => Read (fun s => seq (k s) q)
  | Await c k => Await c (fun r => seq (k r) q)
  | Spawn t k => Spawn t (seq k q)
  end.

(** Single statements, and [p >> q] for one statement after another. *)
Definition alert {S} (msg : jsstring) : prog S := Alert msg Done.
Definition console_error {S} : prog S := ConsoleError Done.
Definition navigate {S} (path : jsstring) : prog S := Navigate path Done.
Definition set {S} (f : S -> S) : prog S := Update f Done.
Definition spawn {S} (task : prog S) : prog S := Spawn task Done.

Notation "p >> q" := (seq p q) (at level 90, right associativity).

(** What an observer of the page sees, in order. *)
Inductive entry : Type :=
| EAlert (msg : jsstring)
| EConfirm (msg : jsstring) (answer : bool)
| EConsoleError
| ENavigate (path : jsstring)
| ECall {X : Type} (c : call X) (ok : bool)
| ESpawn.

Record world (B S : Type) : Type := {
  ui : S;                      (* the component's state and refs *)
  backend : B;                 (* the server *)
  answers : list bool;         (* the user's answers to confirm dialogs *)
  log : list entry;
  pending : list (prog S)      (* detached tasks not yet run *)
}.
Arguments ui {B S} w.
Arguments backend {B S} w.
Arguments answers {B S} w.
Arguments log {B S} w.
Arguments pending {B S} w.

Section Run.
Context {B S : Type}.
(** The server: any function from a request and a server state to a reply
    and a new server state. *)
Variable serve : forall X, call X -> B -> result X * B.

Definition logged (e : entry) (w : world B S) : world B S :=
  {| ui := ui w; backend := backend w; answers := answers w;
     log := log w ++ [e]; pending := pending w |}.

Definition with_ui (f : S -> S) (w : world B S) : world B S :=
  {| ui := f (ui w); backend := backend w; answers := answers w;
     log := log w; pending := pending w |}.

Definition with_backend (b : B) (w : world B S) : world B S :=
  {| ui := ui w; backend := b; answers := answers w;
     log := log w; pending := pending w |}.

Definition answered (w : world B S) : world B S :=
  {| ui := ui w; backend := backend w; answers := tl (answers w);
     log := log w; pending := pending w |}.

Definition queued (t : prog S) (w : world B S) : world B S :=
  {| ui := ui w; backend := backend w; answers := answers w;
     log := log w; pending := pending w ++ [t] |}.

(** A dialog left unanswered counts as cancelled. *)
Definition next_answer (w : world B S) : bool := hd false (answers w).

Fixpoint run (p : prog S) (w : world B S) : world B S :=
  match p with
  | Done => w
  | Alert m k => run k (logged (EAlert m) w)
  | Confirm m k =>
      let a := next_answer w in
      run (k a) (logged (EConfirm m a) (answered w))
  | ConsoleError k => run k (logged EConsoleError w)
  | Navigate t k => run k (logged (ENavigate t) w)
  | Update f k => run k (with_ui f w)
  | Read k => run (k (ui w)) w
  | Await c k =>
      let '(r, b) := serve _ c (backend w) in
      run (k r) (logged (ECall c (is_ok r)) (with_backend b w))
  | Spawn t k => run k (logged ESpawn (queued t w))
  end.

(** The oldest detached task runs. *)
Definition run_pending (w : world B S) : world B S :=
  match pending w with
  | [] => w
  | t :: r =>
      run t {| ui := ui w; backend := backend w; answers := answers w;
               log := log w; pending := r |}
  end.

End Run.

(** The requests of a log. *)
Definition is_update_entry (e : entry) : bool :=
  match e with ECall c _ => is_update c | _ => false end.

Definition is_call_entry (e : entry) : bool :=
  match e with ECall _ _ => true | _ => false end.

Definition update_count (l : list entry) : nat :=
  List.length (List.filter is_update_entry l).

Definition call_count (l : list entry) : nat :=
  List.length (List.filter is_call_entry l).

(** The entries a run added to a log that had [n] entries. *)
Definition added_since {A} (n : nat) (l : list A) : list A := skipn n l.

(** A program that sends no edit request, in itself or in a task it
    detaches. *)
Fixpoint no_update {S} (p : prog S) : Prop :=
  match p with
  | Done => True
  | Alert _ k | ConsoleError k | Navigate _ k | Update _ k => no_update k
  | Confirm _ k => forall a, no_update (k a)
  | Read k => forall s, no_update (k s)
  | Await c k => is_update c = false /\ forall r, no_update (k r)
  | Spawn t k => no_update t /\ no_update k
  end.

(** A freshly mounted page in front of a server in state [b]. *)
Definition mount {B S} (s : S) (b : B) (answers : list bool) : world B S :=
  {| ui := s; backend := b; answers := answers; log := []; pending := [] |}.

(** A server that cannot be reached: every request is rejected. *)
Definition offline (X : Type) (c : call X) (b : unit) : result X * unit :=
  (Err {| message := lit "Network Error"; detail := Undefined; status := None |}, b).

(** The entries a run from [w] to [w'] added to the log. *)
Definition fresh_log {B S} (w w' : world B S) : list entry :=
  added_since (List.length (log w)) (log w').

(** Nothing was sent and nothing changed; only [shown] was displayed. *)
Definition refused {B S} (shown : list entry) (w w' : world B S) : Prop :=
  fresh_log w w' = shown
  /\ call_count shown = 0%nat
  /\ ui w' = ui w /\ backend w' = backend w /\ pending w' = pending w.

(** Exactly one edit request was sent, now or by a detached task. *)
Definition one_update_request {B S} (w w' : world B S) : Prop :=
  update_count (fresh_log w w') = 1%nat
  /\ (Forall no_update (pending w) -> Forall no_update (pending w')).

(** The alert of the three editors for empty content. *)
Definition empty_content_message : jsstring := lit "Content cannot be empty".

(** What saving [content] with [handler] is to do: nothing but the alert
    when the trimmed content is empty, one edit request otherwise. *)
Definition save_contract {B S} (serve : forall X, call X -> B -> result X * B)
    (content : jsstring) (handler : prog S) (w : world B S) : Prop :=
  let w' := run serve handler w in
  if str_truthy (trim content) then one_update_request w w'
  else refused [EAlert empty_content_message] w w'.

(** [err.response?.data?.detail || err.message] *)
Definition detail_or_message (e : error) : jsstring :=
  if jsopt_truthy (detail e) then or_empty (detail e) else message e.

(** [err?.message || fallback] *)
Definition message_or (e : error) (fallback : jsstring) : jsstring :=
  if str_truthy (message e) then message e else fallback.

(** [l || []] *)
Definition or_nil {A} (l : option (list A)) : list A :=
  match l with Some x => x | None => [] end.

(** ** Tasks that wait *)

Section Suspend.
Context {B S : Type}.
Variable serve : forall X, call X -> B -> result X * B.

(** A task runs without interruption up to its next [await]: the world
    then, and what is left of the task (starting at that [await], or
    [Done]).  Dialogs block, so they do not suspend. *)
Fixpoint until_await (p : prog S) (w : world B S) : world B S * prog S :=
  match p with
  | Done => (w, Done)
  | Alert m k => until_await k (logged (EAlert m) w)
  | Confirm m k =>
      let a := next_answer w in
      until_await (k a) (logged (EConfirm m a) (answered w))
  | ConsoleError k => until_await k (logged EConsoleError w)
  | Navigate t k => until_await k (logged (ENavigate t) w)
  | Update f k => until_await k (with_ui f w)
  | Read k => until_await (k (ui w)) w
  | Await c k => (w, Await c k)
  | Spawn t k => until_await k (logged ESpawn (queued t w))
  end.

(** The reply to the request a suspended task waits for arrives: the task
    goes on to its next [await]. *)
Definition resume (p : prog S) (w : world B S) : world B S * prog S :=
  match p with
  | Await c k =>
      let '(r, b) := serve _ c (backend w) in
      until_await (k r) (logged (ECall c (is_ok r)) (with_backend b w))
  | _ => until_await p w
  end.

End Suspend.

(** ** Handlers underway together *)

(** A page in the middle of things: the world, and the tasks that wait for
    the reply to a request. *)
Record page (B S : Type) : Type := {
  present : world B S;
  waiting : list (prog S)
}.
Arguments present {B S} p.
Arguments waiting {B S} p.

Section Interleave.
Context {B S : Type}.
Variable serve : forall X, call X -> B -> result X * B.

(** A task that stopped at an [await] joins the tasks that wait; a task
    that came to its end does not. *)
Definition park (r : world B S * prog S) (ts : list (prog S)) : page B S :=
  {| present := fst r;
     waiting := match snd r with Done => ts | t => ts ++ [t] end |}.

(** A handler is called: it runs up to its first [await]. *)
Definition start (p : prog S) (pg : page B S) : page B S :=
  park (until_await p (present pg)) (waiting pg).

(** The reply to the request of the [n]-th waiting task arrives, whatever
    the order in which the requests were sent. *)
Definition arrive (n : nat) (pg : page B S) : page B S :=
  match waiting pg !! n with
  | Some t => park (resume serve t (present pg)) (base.delete n (waiting pg))
  | None => pg
  end.

(** The oldest task called without [await] starts. *)
Definition detach (pg : page B S) : page B S :=
  match pending (present pg) with
  | [] => pg
  | t :: r =>
      start t {| present := {| ui := ui (present pg); backend := backend (present pg);
                               answers := answers (present pg); log := log (present pg);
                               pending := r |};
                 waiting := waiting pg |}
  end.

End Interleave.

(** ** State shared by a component and a part of it *)

(** A program on a part [S] of a larger state [T], as a program on [T]. *)
Fixpoint zoom {S T} (get : T -> S) (put : (S -> S) -> T -> T) (p : prog S) : prog T :=
  match p with
  | Done => Done
  | Alert m k => Alert m (zoom get put k)
  | Confirm m k => Confirm m (fun a => zoom get put (k a))
  | ConsoleError k => ConsoleError (zoom get put k)
  | Navigate t k => Navigate t (zoom get put k)
  | Update f k => Update (put f) (zoom get put k)
  | Read k => Read (fun t => zoom get put (k (get t)))
  | Await c k => Await c (fun r => zoom get put (k r))
  | Spawn t k => Spawn (zoom get put t) (zoom get put k)
  end.

End UI.

Import Api UI.

(* ===================================================================== *)
(** * EntityDetail                                                        *)
(* ===================================================================== *)

Module EntityDetail.

Record stats := { s_in_count : Z; s_out_count : Z }.

(** The [useState] and [useRef] cells of the component (the add-child form,
    which none of the handlers below touches, is left out). *)
Record state := mk {
  currentContent : option state_data;   (* the content of the selected state *)
  versions : list version_entry;
  selectedStateId : jsopt;
  stateStats : option stats;
  contentError : jsopt;
  versionsError : jsopt;
  stateRequestRef : Z;
  versionsRequestRef : Z;
  loading : bool;
  outboundEdges : list edge;
  children : list child;
  isEditing : bool;
  editContent : jsstring;
  editName : jsstring;
  saving : bool;
  entityIdRef : jsstring
}.

Definition setCurrentContent (v : option state_data) (s : state) : state :=
  let 'mk _ vs ss st ce ve sr vr lo oe ch ie ec en sv er := s in
  mk v vs ss st ce ve sr vr lo oe ch ie ec en sv er.
Definition setVersions (v : list version_entry) (s : state) : state :=
  let 'mk cc _ ss st ce ve sr vr lo oe ch ie ec en sv er := s in
  mk cc v ss st ce ve sr vr lo oe ch ie ec en sv er.
Definition setSelectedStateId (v : jsopt) (s : state) : state :=
  let 'mk cc vs _ st ce ve sr vr lo oe ch ie ec en sv er := s in
  mk cc vs v st ce ve sr vr lo oe ch ie ec en sv er.
Definition setStateStats (v : option stats) (s : state) : state :=
  let 'mk cc vs ss _ ce ve sr vr lo oe ch ie ec en sv er := s in
  mk cc vs ss v ce ve sr vr lo oe ch ie ec en sv er.
Definition setContentError (v : jsopt) (s : state) : state :=
  let 'mk cc vs ss st _ ve sr vr lo oe ch ie ec en sv er := s in
  mk cc vs ss st v ve sr vr lo oe ch ie ec en sv er.
Definition setVersionsError (v : jsopt) (s : state) : state :=
  let 'mk cc vs ss st ce _ sr vr lo oe ch ie ec en sv er := s in
  mk cc vs ss st ce v sr vr lo oe ch ie ec en sv er.
Definition setStateRequestRef (v : Z) (s : state) : state :=
  let 'mk cc vs ss st ce ve _ vr lo oe ch ie ec en sv er := s in
  mk cc vs ss st ce ve v vr lo oe ch ie ec en sv er.
Definition setVersionsRequestRef (v : Z) (s : state) : state :=
  let 'mk cc vs ss st ce ve sr _ lo oe ch ie ec en sv er := s in
  mk cc vs ss st ce ve sr v lo oe ch ie ec en sv er.
Definition setLoading (v : bool) (s : state) : state :=
  let 'mk cc vs ss st ce ve sr vr _ oe ch ie ec en sv er := s in
  mk cc vs ss st ce ve sr vr v oe ch ie ec en sv er.
Definition setOutboundEdges (v : list edge) (s : state) : state :=
  let 'mk cc vs ss st ce ve sr vr lo _ ch ie ec en sv er := s in
  mk cc vs ss st ce ve sr vr lo v ch ie ec en sv er.
Definition setChildren (v : list child) (s : state) : state :=
  let 'mk cc vs ss st ce ve sr vr lo oe _ ie ec en sv er := s in
  mk cc vs ss st ce ve sr vr lo oe v ie ec en sv er.
Definition setIsEditing (v : bool) (s : state) : state :=
  let 'mk cc vs ss st ce ve sr vr lo oe ch _ ec en sv er := s in
  mk cc vs ss st ce ve sr vr lo oe ch v ec en sv er.
Definition setEditContent (v : jsstring) (s : state) : state :=
  let 'mk cc vs ss st ce ve sr vr lo oe ch ie _ en sv er := s in
  mk cc vs ss st ce ve sr vr lo oe ch ie v en sv er.
Definition setEditName (v : jsstring) (s : state) : state :=
  let 'mk cc vs ss st ce ve sr vr lo oe ch ie ec _ sv er := s in
  mk cc vs ss st ce ve sr vr lo oe ch ie ec v sv er.
Definition setSaving (v : bool) (s : state) : state :=
  let 'mk cc vs ss st ce ve sr vr lo oe ch ie ec en _ er := s in
  mk cc vs ss st ce ve sr vr lo oe ch ie ec en v er.

(** The state of a freshly mounted component for [entityId]. *)
Definition initial (entityId : jsstring) : state :=
  mk None [] Null None Null Null 0 0 true [] [] false [] [] false entityId.

(** [typeof n === 'number' ? n : 0] *)
Definition count_or_zero (n : option Z) : Z :=
  match n with Some v => v | None => 0 end.

Definition loadStateDetails (stateId : jsstring) : prog state :=
  Read (fun s0 =>
    let requestId := stateRequestRef s0 + 1 in
    set (setStateRequestRef requestId) >>
    set (setContentError Null) >>
    set (setStateStats None) >>
    (* try / catch *)
    Await (getState stateId) (fun r =>
      Read (fun s1 =>
        if negb (requestId =? stateRequestRef s1) then Done
        else match r with
             | Ok contentData =>
                 set (setCurrentContent (Some contentData)) >>
                 set (setContentError Null) >>
                 set (setStateStats (Some
                        {| s_in_count := count_or_zero (in_count contentData);
                           s_out_count := count_or_zero (out_count contentData) |}))
             | Err err =>
                 console_error >>
                 set (setCurrentContent None) >>
                 set (setContentError
                        (Str (message_or err (lit "Failed to load state details."))))
             end)) >>
    (* finally *)
    Read (fun s2 =>
      if requestId =? stateRequestRef s2 then set (setLoading false) else Done)).

Definition head_state_id (h : option (list version_entry)) : jsopt :=
  match h with
  | Some (v :: _) => h_state_id v
  | _ => Undefined
  end.

(** [loadVersions], closed over [entityId] and the render's
    [selectedStateId]. *)
Definition loadVersions (entityId : jsstring) (st : state) : prog state :=
  Read (fun s0 =>
    let requestId := versionsRequestRef s0 + 1 in
    let targetEntityId := entityId in
    set (setVersionsRequestRef requestId) >>
    set (setLoading true) >>
    set (setVersionsError Null) >>
    set (setContentError Null) >>
    set (setOutboundEdges []) >>
    set (setChildren []) >>
    Await (getEntityInfo targetEntityId) (fun r =>
      let stale (s1 : state) : bool :=
        negb (requestId =? versionsRequestRef s1)
        || negb (str_eq (entityIdRef s1) targetEntityId) in
      match r with
      | Ok info =>
          Read (fun s1 =>
            if stale s1 then Done
            else
              set (setVersions (or_nil (history info))) >>
              set (setOutboundEdges (or_nil (edges info))) >>
              set (setChildren (or_nil (Api.children info))) >>
              let nextStateId := head_state_id (history info) in
              if negb (jsopt_truthy nextStateId) then
                (* no states: stop loading and clear content *)
                set (setCurrentContent None) >>
                set (setContentError Null) >>
                set (setSelectedStateId Null) >>
                set (setStateStats None) >>
                set (setLoading false)
              else if jsopt_eq nextStateId (selectedStateId st)
              then loadStateDetails (or_empty nextStateId)
              else set (setSelectedStateId nextStateId))
      | Err err =>
          console_error >>
          Read (fun s1 =>
            if stale s1 then Done
            else
              set (setVersions []) >>
              set (setCurrentContent None) >>
              set (setSelectedStateId Null) >>
              set (setStateStats None) >>
              set (setOutboundEdges []) >>
              set (setChildren []) >>
              set (setContentError Null) >>
              set (setVersionsError
                     (Str (message_or err (lit "Failed to load entity info.")))) >>
              set (setLoading false))
      end)).

(** The effect on [selectedStateId]: the version selector's [onChange]
    stores the chosen id and the effect loads its details. *)
Definition selectVersion (value : jsstring) : prog state :=
  set (setSelectedStateId (Str value)) >>
  (if str_truthy value then loadStateDetails value else Done).

Definition version_of (c : option state_data) : option Z :=
  match c with Some d => Some (version d) | None => None end.

Definition in_count_positive (st : option stats) : bool :=
  match st with Some x => 0 <? s_in_count x | None => false end.

Definition stats_in_count (st : option stats) : option Z :=
  match st with Some x => Some (s_in_count x) | None => None end.

Definition handleDeleteState (entityId : jsstring) (st : state) : prog state :=
  if negb (jsopt_truthy (selectedStateId st)) then Done
  else if in_count_positive (stateStats st) then
    alert (lit "Cannot delete this state because it has "
           ++ opt_num_to_string (stats_in_count (stateStats st))
           ++ lit " incoming dependencies.")
  else
    Confirm (lit "Are you sure you want to delete version "
             ++ opt_num_to_string (version_of (currentContent st)) ++ lit "?")
      (fun yes =>
         if negb yes then Done
         else
           Await (deleteState (or_empty (selectedStateId st))) (fun r =>
             match r with
             | Ok _ => spawn (loadVersions entityId st)
             | Err err => alert (lit "Failed to delete state: " ++ message err)
             end)).

Definition has_states_message : jsstring :=
  lit "Cannot delete entity while it still has states. Delete all states first.".

Definition handleDeleteEntity (entityId : jsstring) (st : state) : prog state :=
  if (0 <? List.length (versions st))%nat then alert has_states_message
  else
    Confirm (lit "Are you sure you want to PERMANENTLY delete entity "
             ++ entityId ++ lit "?")
      (fun yes =>
         if negb yes then Done
         else
           Await (deleteEntity entityId) (fun r =>
             match r with
             | Ok _ => alert (lit "Entity deleted.") >> navigate (lit "/memory/catalog")
             | Err err => alert (lit "Failed to delete entity: " ++ message err)
             end)).

Definition content_of (c : option state_data) : jsopt :=
  match c with Some d => content d | None => Undefined end.

Definition name_of (c : option state_data) : jsopt :=
  match c with Some d => name d | None => Undefined end.

Definition startEdit (st : state) : prog state :=
  set (setEditContent (or_empty (content_of (currentContent st)))) >>
  set (setEditName (or_empty (name_of (currentContent st)))) >>
  set (setIsEditing true).

Definition cancelEdit : prog state :=
  set (setIsEditing false) >> set (setEditContent []) >> set (setEditName []).

Definition saveEdit (entityId : jsstring) (st : state) : prog state :=
  if negb (str_truthy (trim (editContent st))) then
    alert empty_content_message
  else
    set (setSaving true) >>
    (let nameChanged := negb (strict_eq (editName st) (name_of (currentContent st))) in
     Await (updateEntity entityId (editContent st)
              (if nameChanged then Str (editName st) else Null) Null)
       (fun r =>
          match r with
          | Ok _ => set (setIsEditing false) >> spawn (loadVersions entityId st)
          | Err err => alert (lit "Failed to save: " ++ detail_or_message err)
          end)) >>
    set (setSaving false).

(** The colour class of an outbound edge's version badge:
    [edge.viewer_version === currentContent.version ? "text-slate-600"
     : "text-amber-500/70"]. *)
Definition version_badge_class (e : edge) (currentContent : state_data) : jsstring :=
  if viewer_version e =? version currentContent
  then lit "text-slate-600" else lit "text-amber-500/70".

Definition highlighted (e : edge) (currentContent : state_data) : bool :=
  str_eq (version_badge_class e currentContent) (lit "text-amber-500/70").

(** The version the history lists first: the entity's current one. *)
Definition latest_version (vs : list version_entry) : option Z :=
  match vs with v :: _ => Some (h_version v) | [] => None end.

(** The reading of the badge as a staleness flag: an outbound edge is
    highlighted exactly when its pin differs from the entity's current
    version. *)
Definition flags_stale_edges (st : state) : Prop :=
  forall e cc,
    In e (outboundEdges st) ->
    currentContent st = Some cc ->
    (highlighted e cc = true <-> latest_version (versions st) <> Some (viewer_version e)).

(** ** Children *)

(** The cells of the add-child form, beside the cells above. *)
Record page := mk_page {
  main : state;
  showAddChild : bool;
  newChildId : jsstring;
  addingChild : bool
}.

Definition on_main (f : state -> state) (p : page) : page :=
  mk_page (f (main p)) (showAddChild p) (newChildId p) (addingChild p).
Definition setShowAddChild (v : bool) (p : page) : page :=
  mk_page (main p) v (newChildId p) (addingChild p).
Definition setNewChildId (v : jsstring) (p : page) : page :=
  mk_page (main p) (showAddChild p) v (addingChild p).
Definition setAddingChild (v : bool) (p : page) : page :=
  mk_page (main p) (showAddChild p) (newChildId p) v.

Definition initial_page (entityId : jsstring) : page :=
  mk_page (initial entityId) false [] false.

(** [loadVersions] as the whole component sees it. *)
Definition reload (entityId : jsstring) (pg : page) : prog page :=
  zoom main on_main (loadVersions entityId (main pg)).

Definition no_child_id_message : jsstring := lit "Please enter a child entity ID".

Definition handleAddChild (entityId : jsstring) (pg : page) : prog page :=
  if negb (str_truthy (trim (newChildId pg))) then alert no_child_id_message
  else
    set (setAddingChild true) >>
    Await (linkParent (trim (newChildId pg)) entityId) (fun r =>
      match r with
      | Ok _ =>
          set (setNewChildId []) >>
          set (setShowAddChild false) >>
          spawn (reload entityId pg)
      | Err err => alert (lit "Failed to add child: " ++ detail_or_message err)
      end) >>
    set (setAddingChild false).

Definition handleUnlinkChild (entityId : jsstring) (pg : page)
    (childId childName : jsstring) : prog page :=
  Confirm (lit "Remove " ++ [34] ++ childName ++ [34]
           ++ lit " from children of this entity?")
    (fun yes =>
       if negb yes then Done
       else
         Await (unlinkParent childId entityId) (fun r =>
           match r with
           | Ok _ => spawn (reload entityId pg)
           | Err err => alert (lit "Failed to unlink child: " ++ detail_or_message err)
           end)).

(** ** What the component renders *)

(** The early returns of the render function, in order, and the page
    itself. *)
Inductive screen : Type :=
| VersionsFailed (versionsError : jsstring)   (* with the retry button *)
| LoadingEntity
| StateFailed (contentError : jsstring)       (* with the retry button *)
| NoStates                                    (* with the "Delete Entity" button *)
| EntityNotFound
| Page (currentContent : state_data).

(** [loading || (!currentContent && versions.length > 0 && !contentError)] *)
Definition isLoadingContent (st : state) : bool :=
  loading st
  || (match currentContent st with None => true | Some _ => false end
      && (0 <? List.length (versions st))%nat
      && negb (jsopt_truthy (contentError st))).

Definition render (st : state) : screen :=
  if jsopt_truthy (versionsError st) then VersionsFailed (or_empty (versionsError st))
  else if isLoadingContent st then LoadingEntity
  else if jsopt_truthy (contentError st) then StateFailed (or_empty (contentError st))
  else if negb (loading st) && (List.length (versions st) =? 0)%nat then NoStates
  else match currentContent st with
       | None => EntityNotFound
       | Some cc => Page cc
       end.

(** ** Links *)

(** [`/memory/relation/${entityId}/${edge.target_entity_id}`] *)
Definition relation_link (entityId : jsstring) (e : edge) : jsstring :=
  lit "/memory/relation/" ++ entityId ++ lit "/" ++ target_entity_id e.

End EntityDetail.

(* ===================================================================== *)
(** * RelationDetail                                                      *)
(* ===================================================================== *)

Module RelationDetail.

Record state := mk {
  data : option relation_detail;
  loading : bool;
  isEditing : bool;
  editContent : jsstring;
  editRelation : jsstring;
  saving : bool
}.

Definition setData (v : option relation_detail) (s : state) : state :=
  let 'mk _ lo ie ec er sv := s in mk v lo ie ec er sv.
Definition setLoading (v : bool) (s : state) : state :=
  let 'mk da _ ie ec er sv := s in mk da v ie ec er sv.
Definition setIsEditing (v : bool) (s : state) : state :=
  let 'mk da lo _ ec er sv := s in mk da lo v ec er sv.
Definition setEditContent (v : jsstring) (s : state) : state :=
  let 'mk da lo ie _ er sv := s in mk da lo ie v er sv.
Definition setEditRelation (v : jsstring) (s : state) : state :=
  let 'mk da lo ie ec _ sv := s in mk da lo ie ec v sv.
Definition setSaving (v : bool) (s : state) : state :=
  let 'mk da lo ie ec er _ := s in mk da lo ie ec er v.

Definition initial : state := mk None true false [] [] false.

Definition loadData (viewerId targetId : jsstring) : prog state :=
  set (setLoading true) >>
  Await (getRelationDetail viewerId targetId) (fun r =>
    match r with
    | Ok result => set (setData result)
    | Err _ => console_error
    end) >>
  set (setLoading false).

(** [data?.direct?.content] and [data?.direct?.relation] *)
Definition direct_content (d : option relation_detail) : jsopt :=
  match d with
  | Some x => match direct x with Some e => d_content e | None => Undefined end
  | None => Undefined
  end.

Definition direct_relation (d : option relation_detail) : jsopt :=
  match d with
  | Some x => match direct x with Some e => d_relation e | None => Undefined end
  | None => Undefined
  end.

Definition startEdit (st : state) : prog state :=
  set (setEditContent (or_empty (direct_content (data st)))) >>
  set (setEditRelation (or_empty (direct_relation (data st)))) >>
  set (setIsEditing true).

Definition cancelEdit : prog state :=
  set (setIsEditing false) >> set (setEditContent []) >> set (setEditRelation []).

Definition saveEdit (viewerId targetId : jsstring) (st : state) : prog state :=
  if negb (str_truthy (trim (editContent st))) then
    alert empty_content_message
  else
    set (setSaving true) >>
    (let relationChanged :=
       negb (strict_eq (editRelation st) (direct_relation (data st))) in
     Await (updateDirectEdge viewerId targetId (editContent st)
              (if relationChanged then Str (editRelation st) else Null) Null)
       (fun r =>
          match r with
          | Ok _ => set (setIsEditing false) >> spawn (loadData viewerId targetId)
          | Err err => alert (lit "Failed to save: " ++ detail_or_message err)
          end)) >>
    set (setSaving false).

Definition handleDelete (viewerId targetId : jsstring) : prog state :=
  Confirm (lit "Are you sure you want to delete this relationship? This action cannot be undone.")
    (fun yes =>
       if negb yes then Done
       else
         Await (deleteDirectEdge viewerId targetId) (fun r =>
           match r with
           | Ok _ => navigate (lit "/memory/entity/" ++ viewerId)
           | Err _ => console_error >> alert (lit "Failed to delete relationship")
           end)).

(** The link of a chapter in the list of relays:
    [`/memory/chapter/${viewerId}/${targetId}/${encodeURIComponent(relay.state.name || relay.relation)}`];
    [None] when [encodeURIComponent] throws. *)
Definition chapter_label (name : jsopt) (relation : jsstring) : jsstring :=
  if jsopt_truthy name then or_empty name else relation.

Definition chapter_link (viewerId targetId : jsstring) (name : jsopt)
    (relation : jsstring) : option jsstring :=
  opt_map (fun n => lit "/memory/chapter/" ++ viewerId ++ lit "/" ++ targetId
                    ++ lit "/" ++ n)
          (encodeURIComponent (chapter_label name relation)).

End RelationDetail.

(* ===================================================================== *)
(** * ChapterDetail                                                       *)
(* ===================================================================== *)

Module ChapterDetail.

(** The route parameters; each may be missing. *)
Record params := {
  viewerId : jsopt;
  targetId : jsopt;
  chapterName : jsopt
}.

Record state := mk {
  resolvedStateId : jsopt;
  resolvedEdgeId : jsopt;
  versions : list version_entry;
  data : option state_data;
  loading : bool;
  isEditing : bool;
  editContent : jsstring;
  saving : bool;
  mountedRef : bool
}.

Definition setResolvedStateId (v : jsopt) (s : state) : state :=
  let 'mk _ re vs da lo ie ec sv mo := s in mk v re vs da lo ie ec sv mo.
Definition setResolvedEdgeId (v : jsopt) (s : state) : state :=
  let 'mk rs _ vs da lo ie ec sv mo := s in mk rs v vs da lo ie ec sv mo.
Definition setVersions (v : list version_entry) (s : state) : state :=
  let 'mk rs re _ da lo ie ec sv mo := s in mk rs re v da lo ie ec sv mo.
Definition setData (v : option state_data) (s : state) : state :=
  let 'mk rs re vs _ lo ie ec sv mo := s in mk rs re vs v lo ie ec sv mo.
Definition setLoading (v : bool) (s : state) : state :=
  let 'mk rs re vs da _ ie ec sv mo := s in mk rs re vs da v ie ec sv mo.
Definition setIsEditing (v : bool) (s : state) : state :=
  let 'mk rs re vs da lo _ ec sv mo := s in mk rs re vs da lo v ec sv mo.
Definition setEditContent (v : jsstring) (s : state) : state :=
  let 'mk rs re vs da lo ie _ sv mo := s in mk rs re vs da lo ie v sv mo.
Definition setSaving (v : bool) (s : state) : state :=
  let 'mk rs re vs da lo ie ec _ mo := s in mk rs re vs da lo ie ec v mo.

Definition initial : state := mk Null Null [] None true false [] false true.

(** [const canEdit = viewerId && targetId && chapterName] as a condition. *)
Definition canEdit (p : params) : bool :=
  jsopt_truthy (viewerId p) && jsopt_truthy (targetId p)
  && jsopt_truthy (chapterName p).

(** [if (mountedRef.current) stmt] *)
Definition if_mounted (stmt : prog state) : prog state :=
  Read (fun s => if mountedRef s then stmt else Done).

Definition loadData (p : params) : prog state :=
  set (setLoading true) >>
  set (setVersions []) >>
  (* try *)
  (if negb (jsopt_truthy (viewerId p)) || negb (jsopt_truthy (targetId p))
      || negb (jsopt_truthy (chapterName p))
   then if_mounted (set (setData None))
   else
     Await (getChapter (or_empty (viewerId p)) (or_empty (targetId p))
                       (or_empty (chapterName p)))
       (fun r =>
          match r with
          | Ok response =>
              Read (fun s =>
                if negb (mountedRef s) then Done
                else
                  match response with
                  | Some resp =>
                      match ch_state resp with
                      | Some st =>
                          set (setResolvedStateId (Str (state_id st))) >>
                          set (setResolvedEdgeId (ch_edge_id resp)) >>
                          set (setData (Some st)) >>
                          (* fetch versions history *)
                          if jsopt_truthy (entity_id st) then
                            Await (getEntityInfo (or_empty (entity_id st)))
                              (fun r2 =>
                                 match r2 with
                                 | Ok info =>
                                     if_mounted (set (setVersions (or_nil (history info))))
                                 | Err _ =>
                                     console_error >> if_mounted (set (setData None))
                                 end)
                          else Done
                      | None => set (setData None)
                      end
                  | None => set (setData None)
                  end)
          | Err _ => console_error >> if_mounted (set (setData None))
          end)) >>
  (* finally *)
  if_mounted (set (setLoading false)).

Definition content_of (c : option state_data) : jsopt :=
  match c with Some d => content d | None => Undefined end.

Definition startEdit (st : state) : prog state :=
  set (setEditContent (or_empty (content_of (data st)))) >>
  set (setIsEditing true).

Definition cancelEdit : prog state :=
  set (setIsEditing false) >> set (setEditContent []).

Definition missing_info_message : jsstring :=
  lit "Missing viewer/target/chapter info for editing".

Definition saveEdit (p : params) (st : state) : prog state :=
  if negb (str_truthy (trim (editContent st))) then
    alert empty_content_message
  else if negb (canEdit p) then
    alert missing_info_message
  else
    set (setSaving true) >>
    Await (updateChapter (or_empty (viewerId p)) (or_empty (targetId p))
                         (or_empty (chapterName p)) (editContent st) Null)
      (fun r =>
         match r with
         | Ok _ => set (setIsEditing false) >> spawn (loadData p)
         | Err err => alert (lit "Failed to save: " ++ detail_or_message err)
         end) >>
    if_mounted (set (setSaving false)).

(** The cleanup of the mount effect: [mountedRef.current = false]. *)
Definition setMountedRef (v : bool) (s : state) : state :=
  let 'mk rs re vs da lo ie ec sv _ := s in mk rs re vs da lo ie ec sv v.

Definition unmount : prog state := set (setMountedRef false).

Definition loadVersionDetails (stateId : jsstring) : prog state :=
  if negb (str_truthy stateId) then Done
  else
    set (setLoading true) >>
    Await (getState stateId) (fun r =>
      match r with
      | Ok contentData =>
          if_mounted (set (setData (Some contentData)) >>
                      set (setResolvedStateId (Str stateId)))
      | Err _ => console_error >> alert (lit "Failed to load version details")
      end) >>
    if_mounted (set (setLoading false)).

Definition handleDelete (p : params) (st : state) : prog state :=
  Confirm (lit "Are you sure you want to delete this chapter? This action cannot be undone.")
    (fun yes =>
       if negb yes then Done
       else if jsopt_truthy (resolvedEdgeId st) then
         Await (deleteRelayEdge (or_empty (resolvedEdgeId st))) (fun r =>
           match r with
           | Ok _ =>
               navigate (lit "/memory/relation/" ++ interpolate (viewerId p)
                         ++ lit "/" ++ interpolate (targetId p))
           | Err _ => console_error >> alert (lit "Failed to delete chapter")
           end)
       else alert (lit "Cannot delete: Missing edge ID information.")).

(** ** The page as a transition system *)

(** The effect on the route parameters: it runs on mount and whenever one
    of them changes. *)
Definition routeEffect (p : params) : prog state :=
  set (setIsEditing false) >>
  set (setEditContent []) >>
  loadData p.

(** What the component returns. *)
Inductive screen : Type :=
| LoadingChapter
| ChapterNotFound
| Chapter (d : state_data).

Definition render (st : state) : screen :=
  match data st with
  | None => if loading st then LoadingChapter else ChapterNotFound
  | Some d => Chapter d
  end.

(** The chapter is on the screen of a mounted component. *)
Definition on_screen (st : state) : bool :=
  mountedRef st && match render st with Chapter _ => true | _ => false end.

(** What happens on the page: what the user can do, a change of route, and
    the progress of the tasks underway. *)
Inductive action : Type :=
| Route (p : params)                 (* the route parameters change *)
| StartEdit
| TypeContent (value : jsstring)     (* the textarea's [onChange] *)
| CancelEdit
| Save
| PickVersion (stateId : jsstring)   (* the version selector's [onChange] *)
| Delete
| Unmount
| Reply (n : nat)                    (* the reply to a request underway arrives *)
| Detached.                          (* a reload called without [await] starts *)

(** The handlers of the render for the route parameters [p] and the state
    [st]. *)
Definition handler (p : params) (st : state) (a : action) : prog state :=
  match a with
  | Route p' => routeEffect p'
  | StartEdit => startEdit st
  | TypeContent value => set (setEditContent value)
  | CancelEdit => cancelEdit
  | Save => saveEdit p st
  | PickVersion stateId => loadVersionDetails stateId
  | Delete => handleDelete p st
  | Unmount => unmount
  | Reply _ | Detached => Done
  end.

(** What that render offers.  "Edit" is shown when not editing and
    [canEdit]; the textarea, "Save" and "Cancel" while editing, the two
    buttons disabled while saving; the version selector when there are
    versions; "Delete Chapter" with an edge id.  The effect on the route
    parameters runs when one of them is different. *)
Definition offered (p : params) (st : state) (a : action) : Prop :=
  match a with
  | Route p' => mountedRef st = true /\ p' <> p
  | StartEdit => on_screen st = true /\ isEditing st = false /\ canEdit p = true
  | TypeContent _ => on_screen st = true /\ isEditing st = true
  | Save | CancelEdit =>
      on_screen st = true /\ isEditing st = true /\ saving st = false
  | PickVersion _ => on_screen st = true /\ versions st <> []
  | Delete => on_screen st = true /\ jsopt_truthy (resolvedEdgeId st) = true
  | Unmount => mountedRef st = true
  | Reply _ | Detached => True
  end.

(** The route parameters of the last render, and the page. *)
Record view (B : Type) : Type := {
  routeParams : params;
  tasks : page B state
}.
Arguments routeParams {B} v.
Arguments tasks {B} v.

(** The state the last render saw. *)
Definition cells {B} (v : view B) : state := ui (present (tasks v)).

Section Page.
Context {B : Type}.
Variable serve : forall X, call X -> B -> result X * B.

Definition step (v : view B) (a : action) : view B :=
  match a with
  | Route p => {| routeParams := p; tasks := start (routeEffect p) (tasks v) |}
  | Reply n => {| routeParams := routeParams v; tasks := arrive serve n (tasks v) |}
  | Detached => {| routeParams := routeParams v; tasks := detach (tasks v) |}
  | _ => {| routeParams := routeParams v;
            tasks := start (handler (routeParams v) (cells v) a) (tasks v) |}
  end.

Fixpoint offered_play (v : view B) (acts : list action) : Prop :=
  match acts with
  | [] => True
  | a :: rest => offered (routeParams v) (cells v) a /\ offered_play (step v a) rest
  end.

Definition play (v : view B) (acts : list action) : view B :=
  fold_left step acts v.

End Page.

(** The component mounts at the route parameters [p]: its effect on them
    runs. *)
Definition opened {B} (p : params) (b : B) (answers : list bool) : view B :=
  {| routeParams := p;
     tasks := start (routeEffect p)
                {| present := mount initial b answers; waiting := [] |} |}.

(** A program that never turns editing on. *)
Fixpoint calm (p : prog state) : Prop :=
  match p with
  | Done => True
  | Alert _ k | ConsoleError k | Navigate _ k => calm k
  | Update f k => (forall s, isEditing (f s) = true -> isEditing s = true) /\ calm k
  | Confirm _ k => forall a, calm (k a)
  | Read k => forall s, calm (k s)
  | Await _ k => forall r, calm (k r)
  | Spawn t k => calm t /\ calm k
  end.

(** The editor is open only on a route that has all three parameters, and
    no task underway will open it. *)
Definition editable {B} (v : view B) : Prop :=
  (isEditing (cells v) = true -> canEdit (routeParams v) = true)
  /\ Forall calm (waiting (tasks v))
  /\ Forall calm (pending (present (tasks v))).

End ChapterDetail.

(* ===================================================================== *)
(** * MaintenancePage                                                     *)
(* ===================================================================== *)

Module MaintenancePage.

(** A JavaScript [Set] of strings: distinct elements in insertion order. *)
Definition idset : Type := list jsstring.

Definition has (id : jsstring) (s : idset) : bool := existsb (str_eq id) s.
Definition add (id : jsstring) (s : idset) : idset :=
  if has id s then s else s ++ [id].
Definition delete (id : jsstring) (s : idset) : idset :=
  List.filter (fun x => negb (str_eq id x)) s.
(** [new Set(array)] *)
Definition of_list (l : list jsstring) : idset :=
  fold_left (fun acc id => add id acc) l [].
Definition size (s : idset) : Z := Z.of_nat (List.length s).

Inductive tab : Type := States | Entities.

Record state := mk {
  activeTab : tab;
  stateMode : jsstring;
  stateLimit : Z;
  stateLoading : bool;
  stateDeleting : bool;
  stateError : jsopt;
  orphanStates : option orphan_states;
  selectedStateIds : idset;
  stateDeleteResult : option batch_result;
  entityLimit : Z;
  entityLoading : bool;
  entityDeleting : bool;
  entityError : jsopt;
  orphanEntities : option orphan_entities;
  selectedEntityIds : idset;
  entityDeleteResult : option batch_result
}.

Definition setActiveTab (v : tab) (s : state) : state :=
  let 'mk _ sm sl so sd se os ss sr el eo ed ee oe es er := s in
  mk v sm sl so sd se os ss sr el eo ed ee oe es er.
Definition setStateMode (v : jsstring) (s : state) : state :=
  let 'mk at' _ sl so sd se os ss sr el eo ed ee oe es er := s in
  mk at' v sl so sd se os ss sr el eo ed ee oe es er.
Definition setStateLimit (v : Z) (s : state) : state :=
  let 'mk at' sm _ so sd se os ss sr el eo ed ee oe es er := s in
  mk at' sm v so sd se os ss sr el eo ed ee oe es er.
Definition setStateLoading (v : bool) (s : state) : state :=
  let 'mk at' sm sl _ sd se os ss sr el eo ed ee oe es er := s in
  mk at' sm sl v sd se os ss sr el eo ed ee oe es er.
Definition setStateDeleting (v : bool) (s : state) : state :=
  let 'mk at' sm sl so _ se os ss sr el eo ed ee oe es er := s in
  mk at' sm sl so v se os ss sr el eo ed ee oe es er.
Definition setStateError (v : jsopt) (s : state) : state :=
  let 'mk at' sm sl so sd _ os ss sr el eo ed ee oe es er := s in
  mk at' sm sl so sd v os ss sr el eo ed ee oe es er.
Definition setOrphanStates (v : option orphan_states) (s : state) : state :=
  let 'mk at' sm sl so sd se _ ss sr el eo ed ee oe es er := s in
  mk at' sm sl so sd se v ss sr el eo ed ee oe es er.
Definition setSelectedStateIds (f : idset -> idset) (s : state) : state :=
  let 'mk at' sm sl so sd se os ss sr el eo ed ee oe es er := s in
  mk at' sm sl so sd se os (f ss) sr el eo ed ee oe es er.
Definition setStateDeleteResult (v : option batch_result) (s : state) : state :=
  let 'mk at' sm sl so sd se os ss _ el eo ed ee oe es er := s in
  mk at' sm sl so sd se os ss v el eo ed ee oe es er.
Definition setEntityLimit (v : Z) (s : state) : state :=
  let 'mk at' sm sl so sd se os ss sr _ eo ed ee oe es er := s in
  mk at' sm sl so sd se os ss sr v eo ed ee oe es er.
Definition setEntityLoading (v : bool) (s : state) : state :=
  let 'mk at' sm sl so sd se os ss sr el _ ed ee oe es er := s in
  mk at' sm sl so sd se os ss sr el v ed ee oe es er.
Definition setEntityDeleting (v : bool) (s : state) : state :=
  let 'mk at' sm sl so sd se os ss sr el eo _ ee oe es er := s in
  mk at' sm sl so sd se os ss sr el eo v ee oe es er.
Definition setEntityError (v : jsopt) (s : state) : state :=
  let 'mk at' sm sl so sd se os ss sr el eo ed _ oe es er := s in
  mk at' sm sl so sd se os ss sr el eo ed v oe es er.
Definition setOrphanEntities (v : option orphan_entities) (s : state) : state :=
  let 'mk at' sm sl so sd se os ss sr el eo ed ee _ es er := s in
  mk at' sm sl so sd se os ss sr el eo ed ee v es er.
Definition setSelectedEntityIds (f : idset -> idset) (s : state) : state :=
  let 'mk at' sm sl so sd se os ss sr el eo ed ee oe es er := s in
  mk at' sm sl so sd se os ss sr el eo ed ee oe (f es) er.
Definition setEntityDeleteResult (v : option batch_result) (s : state) : state :=
  let 'mk at' sm sl so sd se os ss sr el eo ed ee oe es _ := s in
  mk at' sm sl so sd se os ss sr el eo ed ee oe es v.

(** The [useState] defaults. *)
Definition initial : state :=
  mk States (lit "in_zero") 100 false false Null None [] None
     100 false false Null None [] None.

(** [err.response?.data?.detail || err.message || fallback] *)
Definition error_text (e : error) (fallback : jsstring) : jsstring :=
  if jsopt_truthy (detail e) then or_empty (detail e)
  else if str_truthy (message e) then message e
  else fallback.

(** ** State cleanup handlers *)

(** [Math.max(1, Math.min(500, parseInt(e.target.value) || 100))], the
    value the [onChange] of either Limit field stores. *)
Definition limit_of_input (value : jsstring) : Z :=
  Z.max 1 (Z.min 500 (num_or (parseInt value) 100)).

Definition changeStateLimit (value : jsstring) : prog state :=
  set (setStateLimit (limit_of_input value)).

Definition handleSearchStates (st : state) : prog state :=
  set (setStateLoading true) >>
  set (setStateError Null) >>
  set (setStateDeleteResult None) >>
  set (setSelectedStateIds (fun _ => [])) >>
  Await (getOrphanStates (stateMode st) (stateLimit st)) (fun r =>
    match r with
    | Ok data => set (setOrphanStates (Some data))
    | Err err =>
        set (setStateError (Str (error_text err (lit "Failed to fetch orphan states")))) >>
        set (setOrphanStates None)
    end) >>
  set (setStateLoading false).

Definition toggleStateSelection (stateId : jsstring) : prog state :=
  set (setSelectedStateIds (fun prev =>
         if has stateId prev then delete stateId prev else add stateId prev)).

Definition selectAllStates (st : state) : prog state :=
  match orphanStates st with
  | None => Done
  | Some os =>
      let nonCurrentIds :=
        List.map o_state_id (List.filter (fun s => negb (is_current s)) (states os)) in
      set (setSelectedStateIds (fun _ => of_list nonCurrentIds))
  end.

(** [orphanStates.states.some(s => selectedStateIds.has(s.state_id) && s.is_current)] *)
Definition hasCurrent (os : orphan_states) (selected : idset) : bool :=
  existsb (fun s => has (o_state_id s) selected && is_current s) (states os).

Definition newline : jsstring := [10].

(** The paragraph added when a current version is selected. *)
Definition current_warning : jsstring :=
  newline ++ newline ++ [0x26A0; 0xFE0F]
  ++ lit " WARNING: You have selected CURRENT version(s)." ++ newline
  ++ lit "Deleting them will revert the entity to its previous version.".

(** The list of the first five selected ids, and how many more there are. *)
Definition selected_ids_text (selected : idset) : jsstring :=
  newline ++ newline ++ lit "Selected IDs:" ++ newline
  ++ join newline (slice0 5 selected)
  ++ (if 5 <? size selected
      then newline ++ lit "... and " ++ num_to_string (size selected - 5) ++ lit " more"
      else []).

Definition delete_states_message (warn : bool) (selected : idset) : jsstring :=
  (lit "Delete " ++ num_to_string (size selected)
   ++ lit " state(s)? This cannot be undone.")
  ++ (if warn then current_warning else [])
  ++ selected_ids_text selected.

Definition handleDeleteStates (st : state) : prog state :=
  if size (selectedStateIds st) =? 0 then Done
  else
    match orphanStates st with
    | None => Done   (* TypeError on [orphanStates.states]: the handler stops *)
    | Some os =>
        Confirm (delete_states_message (hasCurrent os (selectedStateIds st))
                                       (selectedStateIds st))
          (fun confirmed =>
             if negb confirmed then Done
             else
               set (setStateDeleting true) >>
               set (setStateError Null) >>
               set (setStateDeleteResult None) >>
               Await (deleteStatesBatch (selectedStateIds st)) (fun r =>
                 match r with
                 | Ok result =>
                     set (setStateDeleteResult (Some result)) >>
                     if 0 <? deleted_count result then
                       Await (getOrphanStates (stateMode st) (stateLimit st)) (fun r2 =>
                         match r2 with
                         | Ok data =>
                             set (setOrphanStates (Some data)) >>
                             set (setSelectedStateIds (fun _ => []))
                         | Err err =>
                             set (setStateError
                                    (Str (error_text err (lit "Failed to delete states"))))
                         end)
                     else Done
                 | Err err =>
                     set (setStateError
                            (Str (error_text err (lit "Failed to delete states"))))
                 end) >>
               set (setStateDeleting false))
    end.

(** ** Entity cleanup handlers *)

Definition changeEntityLimit (value : jsstring) : prog state :=
  set (setEntityLimit (limit_of_input value)).

Definition handleSearchEntities (st : state) : prog state :=
  set (setEntityLoading true) >>
  set (setEntityError Null) >>
  set (setEntityDeleteResult None) >>
  set (setSelectedEntityIds (fun _ => [])) >>
  Await (getOrphanEntities (entityLimit st)) (fun r =>
    match r with
    | Ok data => set (setOrphanEntities (Some data))
    | Err err =>
        set (setEntityError (Str (error_text err (lit "Failed to fetch orphan entities")))) >>
        set (setOrphanEntities None)
    end) >>
  set (setEntityLoading false).

Definition toggleEntitySelection (entityId : jsstring) : prog state :=
  set (setSelectedEntityIds (fun prev =>
         if has entityId prev then delete entityId prev else add entityId prev)).

Definition selectAllEntities (st : state) : prog state :=
  match orphanEntities st with
  | None => Done
  | Some oe =>
      set (setSelectedEntityIds (fun _ => of_list (List.map o_entity_id (entities oe))))
  end.

Definition delete_entities_message (selected : idset) : jsstring :=
  (lit "Delete " ++ num_to_string (size selected)
   ++ lit " entity(ies) permanently? This cannot be undone." ++ newline ++ newline
   ++ [0x706D; 0x5B83; 0x5168; 0x5BB6; 0x8001; 0x5C0F; 0xFF1F])
  ++ selected_ids_text selected.

Definition handleDeleteEntities (st : state) : prog state :=
  if size (selectedEntityIds st) =? 0 then Done
  else
    Confirm (delete_entities_message (selectedEntityIds st))
      (fun confirmed =>
         if negb confirmed then Done
         else
           set (setEntityDeleting true) >>
           set (setEntityError Null) >>
           set (setEntityDeleteResult None) >>
           Await (deleteEntitiesBatch (selectedEntityIds st)) (fun r =>
             match r with
             | Ok result =>
                 set (setEntityDeleteResult (Some result)) >>
                 if 0 <? deleted_count result then
                   Await (getOrphanEntities (entityLimit st)) (fun r2 =>
                     match r2 with
                     | Ok data =>
                         set (setOrphanEntities (Some data)) >>
                         set (setSelectedEntityIds (fun _ => []))
                     | Err err =>
                         set (setEntityError
                                (Str (error_text err (lit "Failed to delete entities"))))
                     end)
                 else Done
             | Err err =>
                 set (setEntityError
                        (Str (error_text err (lit "Failed to delete entities"))))
             end) >>
           set (setEntityDeleting false)).

(** ** The page as a transition system *)

(** What the user can do on the page. *)
Inductive action : Type :=
| SwitchTab (t : tab)
| ChangeStateMode (value : jsstring)
| ChangeStateLimit (value : jsstring)
| SearchStates
| ToggleState (stateId : jsstring)
| SelectNonCurrent
| ClearStateSelection
| DeleteStates
| ChangeEntityLimit (value : jsstring)
| SearchEntities
| ToggleEntity (entityId : jsstring)
| SelectAllEntities
| ClearEntitySelection
| DeleteEntities.

(** The handler an action runs, created by the latest render. *)
Definition handler (a : action) (st : state) : prog state :=
  match a with
  | SwitchTab t => set (setActiveTab t)
  | ChangeStateMode v => set (setStateMode v)
  | ChangeStateLimit v => changeStateLimit v
  | SearchStates => handleSearchStates st
  | ToggleState id => toggleStateSelection id
  | SelectNonCurrent => selectAllStates st
  | ClearStateSelection => set (setSelectedStateIds (fun _ => []))
  | DeleteStates => handleDeleteStates st
  | ChangeEntityLimit v => changeEntityLimit v
  | SearchEntities => handleSearchEntities st
  | ToggleEntity id => toggleEntitySelection id
  | SelectAllEntities => selectAllEntities st
  | ClearEntitySelection => set (setSelectedEntityIds (fun _ => []))
  | DeleteEntities => handleDeleteEntities st
  end.

Section Page.
Context {B : Type}.
Variable serve : forall X, call X -> B -> result X * B.

Definition dispatch (w : world B state) (a : action) : world B state :=
  run serve (handler a (ui w)) w.

(** The page after a session of user actions. *)
Definition session (w : world B state) (acts : list action) : world B state :=
  fold_left dispatch acts w.

End Page.

(** The [limit] argument of an orphan query. *)
Definition limit_of_call {X} (c : call X) : option Z :=
  match c with
  | getOrphanStates _ limit => Some limit
  | getOrphanEntities limit => Some limit
  | _ => None
  end.

Definition limit_of_entry (e : entry) : option Z :=
  match e with
  | ECall c _ => limit_of_call c
  | _ => None
  end.

Definition in_range (n : Z) : Prop := 1 <= n <= 500.


Definition state_ok (s : state) : Prop :=
  in_range (stateLimit s) /\ in_range (entityLimit s).


(** A program that keeps both limits in range and only queries in range. *)
Fixpoint safe (p : prog state) : Prop :=
  match p with
  | Done => True
  | Alert _ k | ConsoleError k | Navigate _ k | Spawn _ k => safe k
  | Confirm _ k => forall a, safe (k a)
  | Update f k => (forall s, state_ok s -> state_ok (f s)) /\ safe k
  | Read k => forall s, state_ok s -> safe (k s)
  | Await c k =>
      (forall n, limit_of_call c = Some n -> in_range n) /\ forall r, safe (k r)
  end.

(** No search and no deletion is under way. *)
Definition idle (s : state) : Prop :=
  stateLoading s = false /\ stateDeleting s = false
  /\ entityLoading s = false /\ entityDeleting s = false.

(** The ids "Select Non-Current" selects. *)
Definition nonCurrentIds (os : orphan_states) : list jsstring :=
  List.map o_state_id (List.filter (fun s => negb (is_current s)) (states os)).

End MaintenancePage.

(* ===================================================================== *)
(** * components/DiffViewer.jsx                                           *)
(* ===================================================================== *)

Module DiffViewer.

(** A change object of the [diff] package: a run of lines that was added,
    removed, or is common to both texts. *)
Record change := {
  value : jsstring;
  added : bool;
  removed : bool
}.

(** What the components render. *)
Record span := { className : jsstring; text : jsstring }.

Inductive view : Type :=
| Unified (rows : list span)
| Split (before after : jsstring).

Section Components.
(** [import { diffLines } from 'diff'] *)
Variable diffLines : jsstring -> jsstring -> list change.

Definition row_color (part : change) : jsstring :=
  if added part then lit "bg-green-900/30 text-green-200"
  else if removed part then lit "bg-red-900/30 text-red-200"
  else lit "text-slate-400".

(** [mode = 'unified'] is the default of a missing prop. *)
Definition DiffViewer (oldText newText : jsopt) (mode : jsopt) : view :=
  let safeOld := or_empty oldText in
  let safeNew := or_empty newText in
  let diff := diffLines safeOld safeNew in
  let mode := match mode with Undefined => Str (lit "unified") | m => m end in
  if jsopt_eq mode (Str (lit "unified"))
  then Unified (List.map (fun part => {| className := row_color part;
                                        text := value part |}) diff)
  else Split safeOld safeNew.

Definition span_style (part : change) : jsstring :=
  if added part
  then lit "bg-emerald-900/30 text-emerald-300 block border-l-2 border-emerald-500 pl-2"
  else if removed part
  then lit "bg-rose-900/30 text-rose-300 block border-l-2 border-rose-500 pl-2"
  else lit "text-slate-400".

Definition SimpleDiff (oldText newText : jsopt) : list span :=
  let diff := diffLines (or_empty oldText) (or_empty newText) in
  List.map (fun part => {| className := span_style part; text := value part |}) diff.

End Components.

End DiffViewer.

(* ===================================================================== *)
(** * The line-oriented comparison                                        *)
(* ===================================================================== *)

Module LineDiff.

Import DiffViewer.

Inductive op : Type := Keep | Ins | Del.

(** The lines of a text, each with its line break. *)
Fixpoint lines_from (cur : jsstring) (s : jsstring) : list jsstring :=
  match s with
  | [] => match cur with [] => [] | _ :: _ => [rev cur] end
  | c :: r =>
      if c =? 10 then rev (c :: cur) :: lines_from [] r
      else lines_from (c :: cur) r
  end.

Definition tokenize (s : jsstring) : list jsstring := lines_from [] s.

Definition cost (l : list (op * jsstring)) : nat :=
  List.length (List.filter (fun e => match fst e with Keep => false | _ => true end) l).

(** A shortest edit script between two sequences of lines. *)
Fixpoint script (xs : list jsstring) : list jsstring -> list (op * jsstring) :=
  fix inner (ys : list jsstring) : list (op * jsstring) :=
    match xs, ys with
    | [], _ => List.map (fun y => (Ins, y)) ys
    | _, [] => List.map (fun x => (Del, x)) xs
    | x :: xs', y :: ys' =>
        if str_eq x y then (Keep, x) :: script xs' ys'
        else
          let d := (Del, x) :: script xs' ys in
          let i := (Ins, y) :: inner ys' in
          if (cost d <=? cost i)%nat then d else i
    end.

Definition run_of (o : op) (t : jsstring) : change :=
  {| value := t;
     added := match o with Ins => true | _ => false end;
     removed := match o with Del => true | _ => false end |}.

Definition same_kind (o : op) (c : change) : bool :=
  match o with
  | Keep => negb (added c) && negb (removed c)
  | Ins => added c
  | Del => removed c
  end.

(** Neighbouring lines of one kind form one run. *)
Fixpoint runs (l : list (op * jsstring)) : list change :=
  match l with
  | [] => []
  | (o, t) :: r =>
      match runs r with
      | c :: cs =>
          if same_kind o c
          then {| value := t ++ value c; added := added c; removed := removed c |} :: cs
          else run_of o t :: c :: cs
      | [] => [run_of o t]
      end
  end.

(** Modelled from the spec: the line-oriented comparison of the diff
    operation ("insert/delete/equal runs").  The client takes it from the
    [diff] package ([diffLines]) and the server computes [has_changes] with
    its own; neither is part of the sources. *)
Definition diffLines (oldStr newStr : jsstring) : list change :=
  runs (script (tokenize oldStr) (tokenize newStr)).

Definition is_equal_run (c : change) : bool := negb (added c) && negb (removed c).

(** Modelled from the spec: [has_changes] of the diff result, an inserted
    or deleted run exists. *)
Definition has_changes (snapshot_content current_content : jsstring) : bool :=
  existsb (fun c => negb (is_equal_run c)) (diffLines snapshot_content current_content).

(** The two texts a list of runs stands for. *)
Definition old_text (cs : list change) : jsstring :=
  List.concat (List.map value (List.filter (fun c => negb (added c)) cs)).

Definition new_text (cs : list change) : jsstring :=
  List.concat (List.map value (List.filter (fun c => negb (removed c)) cs)).

Definition in_old (e : op * jsstring) : bool :=
  match fst e with Ins => false | _ => true end.

Definition in_new (e : op * jsstring) : bool :=
  match fst e with Del => false | _ => true end.

Definition is_keep (e : op * jsstring) : bool :=
  match fst e with Keep => true | _ => false end.

(** A run is of one kind: not both added and removed. *)
Definition one_kind (c : change) : bool := negb (added c && removed c).

End LineDiff.

(* ===================================================================== *)
(** * ReviewPage                                                          *)
(* ===================================================================== *)

Module ReviewPage.

Record state := mk {
  sessions : list session;
  currentSessionId : jsopt;
  snapshots : list snapshot;
  selectedSnapshot : option snapshot;
  diffData : option diff_data;
  loading : bool;
  error : jsopt
}.

Definition setSessions (v : list session) (s : state) : state :=
  let 'mk _ cs sn se dd lo er := s in mk v cs sn se dd lo er.
Definition setCurrentSessionId (v : jsopt) (s : state) : state :=
  let 'mk ss _ sn se dd lo er := s in mk ss v sn se dd lo er.
Definition setSnapshots (v : list snapshot) (s : state) : state :=
  let 'mk ss cs _ se dd lo er := s in mk ss cs v se dd lo er.
Definition setSelectedSnapshot (v : option snapshot) (s : state) : state :=
  let 'mk ss cs sn _ dd lo er := s in mk ss cs sn v dd lo er.
Definition setDiffData (v : option diff_data) (s : state) : state :=
  let 'mk ss cs sn se _ lo er := s in mk ss cs sn se v lo er.
Definition setLoading (v : bool) (s : state) : state :=
  let 'mk ss cs sn se dd _ er := s in mk ss cs sn se dd v er.
Definition setError (v : jsopt) (s : state) : state :=
  let 'mk ss cs sn se dd lo _ := s in mk ss cs sn se dd lo v.

Definition initial : state := mk [] Null [] None None false Null.

Definition loadSessions (st : state) : prog state :=
  Await getSessions (fun r =>
    match r with
    | Ok list =>
        set (setSessions list) >>
        match list with
        | first :: _ =>
            (* select latest session by default if available *)
            if negb (jsopt_truthy (currentSessionId st))
            then set (setCurrentSessionId (Str (session_id first)))
            else Done
        | [] => Done
        end
    | Err _ => set (setError (Str (lit "Failed to load sessions. Is backend running?")))
    end).

Definition is_404 (e : Api.error) : bool :=
  match status e with Some n => n =? 404 | None => false end.

Definition loadSnapshots (sessionId : jsstring) : prog state :=
  set (setLoading true) >>
  Await (getSnapshots sessionId) (fun r =>
    match r with
    | Ok list =>
        set (setSnapshots list) >>
        match list with
        | first :: _ => set (setSelectedSnapshot (Some first))
        | [] => set (setSelectedSnapshot None) >> set (setDiffData None)
        end
    | Err err =>
        (* 404 means no snapshots, which is fine *)
        if is_404 err
        then set (setSnapshots []) >> set (setSelectedSnapshot None)
        else console_error
    end) >>
  set (setLoading false).

Definition loadDiff (sessionId resourceId : jsstring) : prog state :=
  Await (getDiff sessionId resourceId) (fun r =>
    match r with
    | Ok data => set (setDiffData (Some data))
    | Err _ => console_error >> set (setDiffData None)
    end).

Definition handleRollback (st : state) : prog state :=
  match selectedSnapshot st with
  | None => Done
  | Some selected =>
      if negb (jsopt_truthy (currentSessionId st)) then Done
      else
        let sessionId := or_empty (currentSessionId st) in
        Confirm (lit "Rollback " ++ resource_id selected
                 ++ lit "? This will undo the changes.")
          (fun yes =>
             if negb yes then Done
             else
               Await (rollbackResource sessionId (resource_id selected)) (fun r =>
                 match r with
                 | Ok _ =>
                     (* the API does not delete the snapshot on rollback:
                        delete it after the rollback to clear the list *)
                     Await (approveSnapshot sessionId (resource_id selected)) (fun r2 =>
                       match r2 with
                       | Ok _ => spawn (loadSnapshots sessionId)
                       | Err err => alert (lit "Rollback failed: " ++ message err)
                       end)
                 | Err err => alert (lit "Rollback failed: " ++ message err)
                 end))
  end.

Definition handleApprove (st : state) : prog state :=
  match selectedSnapshot st with
  | None => Done
  | Some selected =>
      if negb (jsopt_truthy (currentSessionId st)) then Done
      else
        let sessionId := or_empty (currentSessionId st) in
        Await (approveSnapshot sessionId (resource_id selected)) (fun r =>
          match r with
          | Ok _ => spawn (loadSnapshots sessionId)
          | Err err => alert (lit "Approval failed: " ++ message err)
          end)
  end.

Definition handleClearSession (st : state) : prog state :=
  if negb (jsopt_truthy (currentSessionId st)) then Done
  else
    let sessionId := or_empty (currentSessionId st) in
    Confirm (lit "Approve ALL changes in this session? This clears the review queue.")
      (fun yes =>
         if negb yes then Done
         else
           Await (clearSession sessionId) (fun r =>
             match r with
             | Ok _ => spawn (loadSnapshots sessionId)
             | Err err => alert (lit "Clear failed: " ++ message err)
             end)).

(** [onSelect={setSelectedSnapshot}]: a click on a row of the list. *)
Definition selectSnapshot (snap : snapshot) : prog state :=
  set (setSelectedSnapshot (Some snap)).

(** The session selector's [onChange]. *)
Definition changeSession (value : jsstring) : prog state :=
  set (setCurrentSessionId (Str value)).

(** [selectedSnapshot?.resource_id], the [selectedId] given to the list. *)
Definition selectedId (st : state) : jsopt :=
  match selectedSnapshot st with
  | Some snap => Str (resource_id snap)
  | None => Undefined
  end.

(** The selected snapshot, if any, is one of the snapshots listed. *)
Definition selection_listed (st : state) : Prop :=
  match selectedSnapshot st with
  | Some snap => In snap (snapshots st)
  | None => True
  end.

(** ** The page as a transition system *)

(** What happens on the page: the effects of the component and what the
    user can do. *)
Inductive action : Type :=
| Mounted                            (* the effect on mount *)
| SessionEffect                      (* the effect on [currentSessionId] *)
| SelectionEffect                    (* the effect on the session and the selection *)
| ChangeSession (value : jsstring)
| SelectRow (snap : snapshot)
| Rollback
| Approve
| ApproveAll
| Detached.                          (* a reload called without [await] runs *)

Definition sessionEffect (st : state) : prog state :=
  if jsopt_truthy (currentSessionId st)
  then loadSnapshots (or_empty (currentSessionId st))
  else Done.

Definition selectionEffect (st : state) : prog state :=
  match selectedSnapshot st with
  | Some selected =>
      if jsopt_truthy (currentSessionId st)
      then loadDiff (or_empty (currentSessionId st)) (resource_id selected)
      else Done
  | None => Done
  end.

Definition handler (a : action) (st : state) : prog state :=
  match a with
  | Mounted => loadSessions st
  | SessionEffect => sessionEffect st
  | SelectionEffect => selectionEffect st
  | ChangeSession v => changeSession v
  | SelectRow snap => selectSnapshot snap
  | Rollback => handleRollback st
  | Approve => handleApprove st
  | ApproveAll => handleClearSession st
  | Detached => Done
  end.

(** A row can be clicked only while it is listed, and "Approve All" is
    shown only while the list is not empty; "Rollback" and "Approve" only
    with a snapshot selected. *)
Definition offered (st : state) (a : action) : Prop :=
  match a with
  | SelectRow snap => In snap (snapshots st) /\ loading st = false
  | ApproveAll => snapshots st <> []
  | Rollback | Approve => selectedSnapshot st <> None
  | _ => True
  end.

Section Page.
Context {B : Type}.
Variable serve : forall X, call X -> B -> result X * B.

Definition dispatch (w : world B state) (a : action) : world B state :=
  match a with
  | Detached => run_pending serve w
  | _ => run serve (handler a (ui w)) w
  end.

Fixpoint offered_session (w : world B state) (acts : list action) : Prop :=
  match acts with
  | [] => True
  | a :: rest => offered (ui w) a /\ offered_session (dispatch w a) rest
  end.

Definition session (w : world B state) (acts : list action) : world B state :=
  fold_left dispatch acts w.

End Page.

(** A detached task of this page: a reload of the list. *)
Definition is_reload (t : prog state) : Prop :=
  exists sessionId, t = loadSnapshots sessionId.

(** The selection is listed and every detached task is a reload. *)
Definition steady {B} (w : world B state) : Prop :=
  selection_listed (ui w) /\ Forall is_reload (pending w).

End ReviewPage.

(* ===================================================================== *)
(** * The review ledger behind the requests                               *)
(* ===================================================================== *)

Module Ledger.

(** A snapshot row: the content before the session's first mutation,
    [None] for a resource the session created. *)
Record row := {
  row_session : jsstring;
  row_resource : jsstring;
  row_type : jsstring;
  before : option jsstring
}.

(** Modelled from the spec: the server's review ledger and the live
    content it reads and writes, which are not part of the sources.
    [live] maps a resource id to its current content, [snaps] lists the
    snapshot rows in creation order, and [faults] says for each coming
    request whether it fails in transit or in storage ([true]), in which
    case it has no effect. *)
Record ledger := {
  live : gmap (list Z) (list Z);
  snaps : list row;
  faults : list bool
}.

Definition is_row (sessionId resourceId : jsstring) (r : row) : bool :=
  str_eq (row_session r) sessionId && str_eq (row_resource r) resourceId.

Definition find_row (sessionId resourceId : jsstring) (l : ledger) : option row :=
  List.find (is_row sessionId resourceId) (snaps l).

Definition internal_error : Api.error :=
  {| message := lit "Request failed with status code 500";
     detail := Str (lit "Internal"); status := Some 500 |}.

Definition not_found : Api.error :=
  {| message := lit "Request failed with status code 404";
     detail := Str (lit "NotFound"); status := Some 404 |}.

Definition not_modelled : Api.error :=
  {| message := lit "Network Error"; detail := Undefined; status := None |}.

(** Modelled from the spec: [rollback] restores the resource to the
    snapshot's content (a created resource is deleted) and then discards
    the snapshot, the two as one unit; it fails with NotFound when there
    is no snapshot for the key. *)
Definition rollback (sessionId resourceId : jsstring) (l : ledger)
  : result unit * ledger :=
  match find_row sessionId resourceId l with
  | None => (Err not_found, l)
  | Some r =>
      (Ok tt,
       {| live := match before r with
                  | Some c => <[resourceId := c]> (live l)
                  | None => base.delete resourceId (live l)
                  end;
          snaps := List.filter (fun r => negb (is_row sessionId resourceId r)) (snaps l);
          faults := faults l |})
  end.

(** Modelled from the spec: [approve] discards the snapshot and fails with
    NotFound when there is none. *)
Definition approve (sessionId resourceId : jsstring) (l : ledger)
  : result unit * ledger :=
  match find_row sessionId resourceId l with
  | None => (Err not_found, l)
  | Some _ =>
      (Ok tt,
       {| live := live l;
          snaps := List.filter (fun r => negb (is_row sessionId resourceId r)) (snaps l);
          faults := faults l |})
  end.

Definition operation_of (r : row) : jsopt :=
  match before r with
  | Some _ => Str (lit "modify")
  | None => Str (lit "create")
  end.

(** Modelled from the spec: [listSnapshots], in creation order. *)
Definition listSnapshots (sessionId : jsstring) (l : ledger) : list snapshot :=
  List.map (fun r => {| resource_id := row_resource r; resource_type := row_type r;
                        operation_type := operation_of r |})
           (List.filter (fun r => str_eq (row_session r) sessionId) (snaps l)).

Definition consume_fault (l : ledger) : ledger :=
  {| live := live l; snaps := snaps l; faults := tl (faults l) |}.

(** The server as the pages see it: a request either fails without effect
    or is carried out. *)
Definition serve (X : Type) (c : call X) (l : ledger) : result X * ledger :=
  if hd false (faults l) then (Err internal_error, consume_fault l)
  else
    match c in call X return result X * ledger with
    | rollbackResource s r => rollback s r (consume_fault l)
    | approveSnapshot s r => approve s r (consume_fault l)
    | getSnapshots s => (Ok (listSnapshots s l), consume_fault l)
    | _ => (Err not_modelled, consume_fault l)
    end.




End Ledger.

(* ===================================================================== *)
(** * components/SnapshotList.jsx                                         *)
(* ===================================================================== *)

Module SnapshotList.

(** One entry of the list, as rendered. *)
Record row := {
  key : jsstring;
  highlighted : bool;      (* the selected row's background and border *)
  badge : jsstring;        (* the colour classes of the operation badge *)
  label : jsstring;        (* the text of the operation badge *)
  title : jsstring
}.

Inductive rendering : Type :=
| NoPendingReviews
| Rows (rows : list row).

Definition create_badge : jsstring := lit "bg-emerald-900/50 text-emerald-400".
Definition modify_badge : jsstring := lit "bg-amber-900/50 text-amber-400".

(** [snap.operation_type === 'create'] *)
Definition is_create (snap : snapshot) : bool :=
  jsopt_eq (operation_type snap) (Str (lit "create")).

Definition render_row (selectedId : jsopt) (snap : snapshot) : row :=
  {| key := resource_id snap;
     highlighted := strict_eq (resource_id snap) selectedId;
     badge := if is_create snap then create_badge else modify_badge;
     label := if jsopt_truthy (operation_type snap)
              then or_empty (operation_type snap) else lit "modify";
     title := resource_id snap |}.

(** [snapshots] may be missing. *)
Definition SnapshotList (snapshots : option (list snapshot)) (selectedId : jsopt)
  : rendering :=
  match snapshots with
  | None | Some [] => NoPendingReviews
  | Some l => Rows (List.map (render_row selectedId) l)
  end.

Definition rows_of (r : rendering) : list row :=
  match r with NoPendingReviews => [] | Rows l => l end.

(** The list as [ReviewPage] shows it. *)
Definition of_page (st : ReviewPage.state) : rendering :=
  SnapshotList (Some (ReviewPage.snapshots st)) (ReviewPage.selectedId st).

End SnapshotList.

(* ===================================================================== *)
(** * A small store to run the pages against                              *)
(* ===================================================================== *)

Module Fixture.

(** The scenario of the specification: [char_1] had version 1 when its
    edge to [char_2] was written and was edited to version 2 afterwards. *)
Definition v1 : state_data :=
  {| state_id := lit "s1"; entity_id := Str (lit "char_1"); version := 1;
     name := Str (lit "Alice"); content := Str (lit "A");
     in_count := Some 0; out_count := Some 1 |}.

Definition v2 : state_data :=
  {| state_id := lit "s2"; entity_id := Str (lit "char_1"); version := 2;
     name := Str (lit "Alice"); content := Str (lit "B");
     in_count := Some 1; out_count := Some 0 |}.

Definition loves : edge :=
  {| target_entity_id := lit "char_2"; target_name := lit "Bob";
     relation := lit "LOVES"; viewer_version := 1 |}.

Definition info : entity_info :=
  {| history := Some [ {| h_state_id := Str (lit "s2"); h_version := 2 |};
                       {| h_state_id := Str (lit "s1"); h_version := 1 |} ];
     edges := Some [loves];
     children := Some [] |}.

Definition serve (X : Type) (c : call X) (b : unit) : result X * unit :=
  match c in call X return result X * unit with
  | getEntityInfo _ => (Ok info, b)
  | getState stateId => (Ok (if str_eq stateId (lit "s1") then v1 else v2), b)
  | _ => (Err {| message := lit "Not Found"; detail := Undefined; status := Some 404 |}, b)
  end.

(** The page of [char_1] once loaded: the history arrives, the latest
    state is selected and its details are fetched. *)
Definition loaded : world unit EntityDetail.state :=
  let st := EntityDetail.initial (lit "char_1") in
  run serve (EntityDetail.loadStateDetails (lit "s2"))
    (run serve (EntityDetail.loadVersions (lit "char_1") st) (mount st tt [])).

(** The user then picks version 1 in the version selector. *)
Definition viewing_v1 : world unit EntityDetail.state :=
  run serve (EntityDetail.selectVersion (lit "s1")) loaded.

(** The review scenario of the specification: [char_1] was edited from
    ["A"] to ["B"] inside session [s1]. *)
Definition snap_char_1 : Ledger.row :=
  {| Ledger.row_session := lit "s1"; Ledger.row_resource := lit "char_1";
     Ledger.row_type := lit "entity"; Ledger.before := Some (lit "A") |}.

Definition reviewing (faults : list bool) : Ledger.ledger :=
  {| Ledger.live := {[ lit "char_1" := lit "B" ]};
     Ledger.snaps := [snap_char_1];
     Ledger.faults := faults |}.

(** The review page with that snapshot selected. *)
Definition review_page : ReviewPage.state :=
  let snap := {| resource_id := lit "char_1"; resource_type := lit "entity";
                 operation_type := Str (lit "modify") |} in
  ReviewPage.setSelectedSnapshot (Some snap)
    (ReviewPage.setSnapshots [snap]
       (ReviewPage.setCurrentSessionId (Str (lit "s1"))
          (ReviewPage.setSessions [ {| session_id := lit "s1" |} ] ReviewPage.initial))).

(** An entity that is left without any state. *)
Definition no_states : entity_info :=
  {| history := Some []; edges := None; children := None |}.

Definition serve_stateless (X : Type) (c : call X) (b : unit) : result X * unit :=
  match c in call X return result X * unit with
  | getEntityInfo _ => (Ok no_states, b)
  | _ => (Err {| message := lit "Network Error"; detail := Undefined; status := None |}, b)
  end.

(** A store with two orphan states, the second one current. *)
Definition two_orphans : orphan_states :=
  {| os_count := 2;
     states := [ {| o_state_id := lit "s1"; is_current := false |};
                 {| o_state_id := lit "s2"; is_current := true |} ] |}.

(** The snapshot of [char_1] as the review page lists it. *)
Definition listed_char_1 : snapshot :=
  {| resource_id := lit "char_1"; resource_type := lit "entity";
     operation_type := Str (lit "modify") |}.

(** The chapter ["ch1"] of the edge from [char_1] to [char_2], and a
    server that has it and accepts edits of it. *)
Definition chapter_1 : state_data :=
  {| state_id := lit "c1"; entity_id := Str (lit "chap_1"); version := 1;
     name := Str (lit "ch1"); content := Str (lit "Once");
     in_count := Some 0; out_count := Some 0 |}.

Definition chapter_route : ChapterDetail.params :=
  {| ChapterDetail.viewerId := Str (lit "char_1");
     ChapterDetail.targetId := Str (lit "char_2");
     ChapterDetail.chapterName := Str (lit "ch1") |}.

Definition serve_chapter (X : Type) (c : call X) (b : unit) : result X * unit :=
  match c in call X return result X * unit with
  | getChapter _ _ _ =>
      (Ok (Some {| ch_state := Some chapter_1; ch_edge_id := Str (lit "e1") |}), b)
  | getEntityInfo _ =>
      (Ok {| history := Some [ {| h_state_id := Str (lit "c1"); h_version := 1 |} ];
             edges := None; children := None |}, b)
  | updateChapter _ _ _ _ _ => (Ok tt, b)
  | _ => (Err {| message := lit "Network Error"; detail := Undefined; status := None |}, b)
  end.

End Fixture.

(* ===================================================================== *)
(** * Properties                                                          *)
(* ===================================================================== *)

(** ** Running programs *)

Section RunFacts.
Context {B S : Type}.
Variable serve : forall X, call X -> B -> result X * B.

Lemma run_seq (p q : prog S) (w : world B S) :
  run serve (p >> q) w = run serve q (run serve p w).
Proof.
  revert w. induction p as [ | m k IH | m k IH | k IH | t k IH | f k IH
                           | k IH | X c k IH | t _ k IH ]; intros w; simpl.
  - reflexivity.
  - apply IH.
  - apply IH.
  - apply IH.
  - apply IH.
  - apply IH.
  - apply IH.
  - destruct (serve X c (backend w)) as [r b]. apply IH.
  - apply IH.
Qed.

End RunFacts.

(** ** The limit fields (MaintenancePage) *)



Section MaintenanceInvariant.
Import MaintenancePage.
Context {B : Type}.
Variable serve : forall X, call X -> B -> result X * B.

Lemma safe_seq (p q : prog state) : safe p -> safe q -> safe (p >> q).
Proof.
  intros Hp Hq.
  induction p as [ | m k IH | m k IH | k IH | t k IH | f k IH
                 | k IH | X c k IH | t _ k IH ]; simpl in *; auto.
  - destruct Hp as [Hf Hk]. split; auto.
  - destruct Hp as [Hc Hk]. split; auto.
Qed.








End MaintenanceInvariant.

(** ** Logs *)

Lemma added_since_app {A} (l l' : list A) :
  added_since (List.length l) (l ++ l') = l'.
Proof.
  unfold added_since. induction l as [ | x l IH]; simpl; [reflexivity | exact IH].
Qed.

Lemma skipn_log {A} (l l' : list A) : skipn (List.length l) (l ++ l') = l'.
Proof. exact (added_since_app l l'). Qed.

Lemma fresh_log_app {B S} (w w' : world B S) (l : list entry) :
  log w' = log w ++ l -> fresh_log w w' = l.
Proof. intros H. unfold fresh_log. rewrite H. apply added_since_app. Qed.

Lemma update_count_app (l l' : list entry) :
  update_count (l ++ l') = (update_count l + update_count l')%nat.
Proof.
  unfold update_count. rewrite List.filter_app, List.length_app. reflexivity.
Qed.

Lemma call_count_app (l l' : list entry) :
  call_count (l ++ l') = (call_count l + call_count l')%nat.
Proof.
  unfold call_count. rewrite List.filter_app, List.length_app. reflexivity.
Qed.

Section NoUpdate.
Context {B S : Type}.
Variable serve : forall X, call X -> B -> result X * B.

Lemma no_update_seq (p q : prog S) :
  no_update p -> no_update q -> no_update (p >> q).
Proof.
  intros Hp Hq.
  induction p as [ | m k IH | m k IH | k IH | t k IH | f k IH
                 | k IH | X c k IH | t _ k IH ]; simpl in *; auto.
  - destruct Hp as [Hc Hk]. split; auto.
  - destruct Hp as [Ht Hk]. split; auto.
Qed.

(** Running a program without edit requests adds none to the log and
    detaches only tasks without edit requests. *)
Lemma run_no_update (p : prog S) (w : world B S) :
  no_update p ->
  update_count (log (run serve p w)) = update_count (log w)
  /\ (Forall no_update (pending w) -> Forall no_update (pending (run serve p w))).
Proof.
  revert w.
  induction p as [ | m k IH | m k IH | k IH | t k IH | f k IH
                 | k IH | X c k IH | t _ k IH ]; intros w Hp; simpl in *.
  - split; [reflexivity | auto].
  - destruct (IH (logged (EAlert m) w) Hp) as [H1 H2]. split; [ | exact H2].
    rewrite H1. simpl. rewrite update_count_app. unfold update_count. simpl. lia.
  - destruct (IH (next_answer w) (logged (EConfirm m (next_answer w)) (answered w))
                 (Hp _)) as [H1 H2].
    split; [ | exact H2]. rewrite H1. simpl. rewrite update_count_app. unfold update_count. simpl. lia.
  - destruct (IH (logged EConsoleError w) Hp) as [H1 H2]. split; [ | exact H2].
    rewrite H1. simpl. rewrite update_count_app. unfold update_count. simpl. lia.
  - destruct (IH (logged (ENavigate t) w) Hp) as [H1 H2]. split; [ | exact H2].
    rewrite H1. simpl. rewrite update_count_app. unfold update_count. simpl. lia.
  - exact (IH (with_ui f w) Hp).
  - exact (IH (ui w) w (Hp _)).
  - destruct Hp as [Hc Hk]. destruct (serve X c (backend w)) as [r b].
    destruct (IH r (logged (ECall c (is_ok r)) (with_backend b w)) (Hk r)) as [H1 H2].
    split; [ | exact H2]. rewrite H1. simpl. rewrite update_count_app.
    unfold update_count. simpl. rewrite Hc. simpl. lia.
  - destruct Hp as [Ht Hk].
    destruct (IH (logged ESpawn (queued t w)) Hk) as [H1 H2]. split.
    + rewrite H1. simpl. rewrite update_count_app. unfold update_count. simpl. lia.
    + intros Hw. apply H2. simpl. apply Forall_app. split; [exact Hw | ].
      constructor; [exact Ht | constructor].
Qed.

End NoUpdate.

(** The reloads the save handlers detach only read. *)

Ltac only_reads :=
  repeat first
    [ exact I
    | reflexivity
    | split
    | intro
    | progress simpl
    | match goal with
      | |- context [if ?b then _ else _] => destruct b
      | |- context [match ?x with _ => _ end] => destruct x
      end ].

Lemma EntityDetail_loadStateDetails_reads (stateId : jsstring) :
  no_update (EntityDetail.loadStateDetails stateId).
Proof. unfold EntityDetail.loadStateDetails. only_reads. Qed.

Lemma EntityDetail_loadVersions_reads (entityId : jsstring) (st : EntityDetail.state) :
  no_update (EntityDetail.loadVersions entityId st).
Proof.
  unfold EntityDetail.loadVersions, EntityDetail.loadStateDetails. only_reads.
Qed.

Lemma RelationDetail_loadData_reads (viewerId targetId : jsstring) :
  no_update (RelationDetail.loadData viewerId targetId).
Proof. unfold RelationDetail.loadData. only_reads. Qed.

Lemma ChapterDetail_loadData_reads (p : ChapterDetail.params) :
  no_update (ChapterDetail.loadData p).
Proof.
  unfold ChapterDetail.loadData, ChapterDetail.if_mounted. only_reads.
Qed.

(** ** EntityDetail: deleting a state or the entity *)

(** The guard of the delete-state handler, once the counts of the selected
    state are on the page: when they show an [in_count] greater than zero,
    the handler sends no request at all (so no [deleteState]), and the
    component's state (versions list, selected state, displayed content
    and every other cell), the server and the detached tasks are exactly as
    before; the only thing it does is show alerts. *)
Lemma handleDeleteState_refuses_referenced_state
  (B : Type) (serve : forall X, call X -> B -> result X * B)
  (entityId : jsstring) (st : EntityDetail.state)
  (w : world B EntityDetail.state) (stats : EntityDetail.stats) :
  EntityDetail.stateStats st = Some stats ->
  0 < EntityDetail.s_in_count stats ->
  let w' := run serve (EntityDetail.handleDeleteState entityId st) w in
  exists shown,
    refused shown w w'
    /\ (forall e, In e shown -> exists m, e = EAlert m)
    /\ EntityDetail.versions (ui w') = EntityDetail.versions (ui w)
    /\ EntityDetail.selectedStateId (ui w') = EntityDetail.selectedStateId (ui w)
    /\ EntityDetail.currentContent (ui w') = EntityDetail.currentContent (ui w).
Proof.
  intros Hstats Hpos. unfold EntityDetail.handleDeleteState.
  rewrite Hstats. simpl.
  apply Z.ltb_lt in Hpos. rewrite Hpos.
  destruct (jsopt_truthy (EntityDetail.selectedStateId st)); simpl.
  - eexists. split; [ | split; [ | repeat split]].
    + split; [apply fresh_log_app; reflexivity | repeat split].
    + intros e [<- | []]. eexists. reflexivity.
  - exists []. split; [ | split; [ | repeat split]].
    + split; [apply fresh_log_app; symmetry; apply app_nil_r | repeat split].
    + intros e [].
Qed.

Lemma handleDeleteState_refuses_referenced_state_witness :
  let st := EntityDetail.setStateStats
              (Some {| EntityDetail.s_in_count := 2; EntityDetail.s_out_count := 0 |})
              (EntityDetail.setSelectedStateId (Str (lit "state_7"))
                 (EntityDetail.initial (lit "char_1"))) in
  let w := mount st tt [true] in
  let w' := run offline (EntityDetail.handleDeleteState (lit "char_1") st) w in
  exists shown,
    refused shown w w'
    /\ (forall e, In e shown -> exists m, e = EAlert m)
    /\ EntityDetail.versions (ui w') = EntityDetail.versions (ui w)
    /\ EntityDetail.selectedStateId (ui w') = EntityDetail.selectedStateId (ui w)
    /\ EntityDetail.currentContent (ui w') = EntityDetail.currentContent (ui w).
Proof.
  intros st w.
  apply (handleDeleteState_refuses_referenced_state unit offline (lit "char_1") st w
           {| EntityDetail.s_in_count := 2; EntityDetail.s_out_count := 0 |}).
  - reflexivity.
  - simpl. lia.
Defined.

(** On the loaded page of [char_1], whose current state has one incoming
    reference, the click ends in the alert. *)
Example handleDeleteState_on_loaded_page :
  EntityDetail.stateStats (ui Fixture.loaded)
  = Some {| EntityDetail.s_in_count := 1; EntityDetail.s_out_count := 0 |}
  /\ fresh_log Fixture.loaded
       (run Fixture.serve
          (EntityDetail.handleDeleteState (lit "char_1") (ui Fixture.loaded))
          Fixture.loaded)
     = [EAlert (lit "Cannot delete this state because it has 1 incoming dependencies.")].
Proof. split; reflexivity. Qed.

(** C3 fails while the details of a version just picked are on their
    way.  The page of [char_1] shows version 1; the user picks version 2
    in the selector, whose state [s2] has one incoming reference.
    [loadStateDetails] clears the counts and waits for [getState]; the
    page still shows version 1 and its "Delete State" button.  A click on
    it now finds no counts, so the guard does not refuse: the dialog asks
    about version 1, the version displayed, and once confirmed the handler
    sends [deleteState] for [s2]. *)
Lemma handleDeleteState_before_details_arrive :
  let picked := fst (until_await (EntityDetail.selectVersion (lit "s2"))
                       Fixture.viewing_v1) in
  let w := {| ui := ui picked; backend := backend picked; answers := [true];
              log := log picked; pending := pending picked |} in
  let w' := run Fixture.serve
              (EntityDetail.handleDeleteState (lit "char_1") (ui w)) w in
  fst (Fixture.serve _ (getState (lit "s2")) tt) = Ok Fixture.v2
  /\ in_count Fixture.v2 = Some 1
  /\ EntityDetail.selectedStateId (ui w) = Str (lit "s2")
  /\ EntityDetail.stateStats (ui w) = None
  /\ EntityDetail.render (ui w) = EntityDetail.Page Fixture.v1
  /\ fresh_log w w'
     = [EConfirm (lit "Are you sure you want to delete version 1?") true;
        ECall (deleteState (lit "s2")) false;
        EAlert (lit "Failed to delete state: Not Found")]
  /\ call_count (fresh_log w w') <> 0%nat.
Proof. repeat split. discriminate. Qed.

(** The same click on a state without incoming references does send the
    request once the user confirms. *)
Example handleDeleteState_unreferenced :
  let st := EntityDetail.setStateStats
              (Some {| EntityDetail.s_in_count := 0; EntityDetail.s_out_count := 3 |})
              (EntityDetail.setSelectedStateId (Str (lit "state_7"))
                 (EntityDetail.initial (lit "char_1"))) in
  List.map is_call_entry
    (log (run offline (EntityDetail.handleDeleteState (lit "char_1") st)
            (mount st tt [true])))
  = [false; true; false].
Proof. reflexivity. Qed.

(** C6.  The delete-entity handler sends no request while the entity's
    version history is non-empty: it only shows the alert, and the page and
    the server stay as they were.  With an empty history that refusal is not
    reached: the handler asks for confirmation and, once confirmed, sends
    exactly one request, [deleteEntity] for this entity. *)
Theorem handleDeleteEntity_only_for_stateless_entity
  (B : Type) (serve : forall X, call X -> B -> result X * B)
  (entityId : jsstring) (st : EntityDetail.state)
  (w : world B EntityDetail.state) :
  let w' := run serve (EntityDetail.handleDeleteEntity entityId st) w in
  (EntityDetail.versions st <> [] ->
     refused [EAlert EntityDetail.has_states_message] w w')
  /\ (EntityDetail.versions st = [] ->
        ~ In (EAlert EntityDetail.has_states_message) (fresh_log w w')
        /\ (next_answer w = false -> call_count (fresh_log w w') = 0%nat)
        /\ (next_answer w = true ->
              call_count (fresh_log w w') = 1%nat
              /\ exists ok, In (ECall (deleteEntity entityId) ok) (fresh_log w w'))).
Proof.
  unfold EntityDetail.handleDeleteEntity. split.
  - intros Hne. destruct (EntityDetail.versions st) as [ | v vs]; [congruence | ].
    simpl. split; [apply fresh_log_app; reflexivity | repeat split].
  - intros ->. simpl. destruct (next_answer w); simpl.
    + destruct (serve unit (deleteEntity entityId) (backend (answered w))) as [r b] eqn:E.
      simpl in E. rewrite E.
      destruct r as [u | err]; simpl;
        match goal with
        | |- context [fresh_log w ?w1] =>
            erewrite (fresh_log_app w w1)
              by (simpl; rewrite <- !app_assoc; reflexivity)
        end; simpl.
      * split; [ | split; [discriminate | ]].
        -- unfold EntityDetail.has_states_message.
           intros [H | [H | [H | [H | []]]]]; discriminate.
        -- intros _. split; [reflexivity | ]. exists true. right. left. reflexivity.
      * split; [ | split; [discriminate | ]].
        -- unfold EntityDetail.has_states_message.
           intros [H | [H | [H | []]]]; discriminate.
        -- intros _. split; [reflexivity | ]. exists false. right. left. reflexivity.
    + erewrite fresh_log_app by reflexivity.
      split; [ | split; [reflexivity | discriminate]].
      unfold EntityDetail.has_states_message. intros [H | []]; discriminate.
Qed.

Example handleDeleteEntity_with_history :
  let st := EntityDetail.setVersions
              [{| h_state_id := Str (lit "state_1"); h_version := 1 |}]
              (EntityDetail.initial (lit "char_1")) in
  log (run offline (EntityDetail.handleDeleteEntity (lit "char_1") st)
         (mount st tt [true]))
  = [(EAlert EntityDetail.has_states_message)].
Proof. reflexivity. Qed.

Example handleDeleteEntity_orphan :
  let st := EntityDetail.initial (lit "char_1") in
  List.map is_call_entry
    (log (run offline (EntityDetail.handleDeleteEntity (lit "char_1") st)
            (mount st tt [true])))
  = [false; true; false].
Proof. reflexivity. Qed.

(** ** The three editors: saving *)

Lemma one_update_intro {B S} (w w' : world B S) (l : list entry) (ts : list (prog S)) :
  log w' = log w ++ l ->
  update_count l = 1%nat ->
  pending w' = pending w ++ ts ->
  Forall no_update ts ->
  one_update_request w w'.
Proof.
  intros Hl Hc Hp Hts. split.
  - rewrite (fresh_log_app w w' l Hl). exact Hc.
  - intros Hw. rewrite Hp. apply Forall_app. split; assumption.
Qed.

Lemma RelationDetail_saveEdit_contract
  (B : Type) (serve : forall X, call X -> B -> result X * B)
  (viewerId targetId : jsstring) (st : RelationDetail.state)
  (w : world B RelationDetail.state) :
  save_contract serve (RelationDetail.editContent st)
    (RelationDetail.saveEdit viewerId targetId st) w.
Proof.
  unfold save_contract, RelationDetail.saveEdit.
  destruct (str_truthy (trim (RelationDetail.editContent st))); simpl.
  - match goal with |- context [serve unit ?c ?b] =>
      destruct (serve unit c b) as [r b'] end.
    destruct r as [u | err]; simpl.
    + eapply one_update_intro with (ts := [_]); simpl.
      * rewrite <- app_assoc. reflexivity.
      * reflexivity.
      * reflexivity.
      * constructor; [apply RelationDetail_loadData_reads | constructor].
    + eapply one_update_intro with (ts := []); simpl.
      * rewrite <- app_assoc. reflexivity.
      * reflexivity.
      * rewrite app_nil_r. reflexivity.
      * constructor.
  - repeat split. apply fresh_log_app. reflexivity.
Qed.

Lemma EntityDetail_saveEdit_contract
  (B : Type) (serve : forall X, call X -> B -> result X * B)
  (entityId : jsstring) (st : EntityDetail.state)
  (w : world B EntityDetail.state) :
  save_contract serve (EntityDetail.editContent st)
    (EntityDetail.saveEdit entityId st) w.
Proof.
  unfold save_contract, EntityDetail.saveEdit.
  destruct (str_truthy (trim (EntityDetail.editContent st))); simpl.
  - match goal with |- context [serve unit ?c ?b] =>
      destruct (serve unit c b) as [r b'] end.
    destruct r as [u | err]; simpl.
    + eapply one_update_intro with (ts := [_]); simpl.
      * rewrite <- app_assoc. reflexivity.
      * reflexivity.
      * reflexivity.
      * constructor; [apply EntityDetail_loadVersions_reads | constructor].
    + eapply one_update_intro with (ts := []); simpl.
      * rewrite <- app_assoc. reflexivity.
      * reflexivity.
      * rewrite app_nil_r. reflexivity.
      * constructor.
  - repeat split. apply fresh_log_app. reflexivity.
Qed.

Lemma ChapterDetail_saveEdit_contract
  (B : Type) (serve : forall X, call X -> B -> result X * B)
  (p : ChapterDetail.params) (st : ChapterDetail.state)
  (w : world B ChapterDetail.state) :
  let w' := run serve (ChapterDetail.saveEdit p st) w in
  if ChapterDetail.canEdit p
  then save_contract serve (ChapterDetail.editContent st)
         (ChapterDetail.saveEdit p st) w
  else if str_truthy (trim (ChapterDetail.editContent st))
       then refused [EAlert ChapterDetail.missing_info_message] w w'
       else refused [EAlert empty_content_message] w w'.
Proof.
  unfold save_contract, ChapterDetail.saveEdit, ChapterDetail.if_mounted.
  destruct (ChapterDetail.canEdit p);
    destruct (str_truthy (trim (ChapterDetail.editContent st))); simpl.
  - match goal with |- context [serve unit ?c ?b] =>
      destruct (serve unit c b) as [r b'] end.
    destruct r as [u | err]; simpl.
    + destruct (ChapterDetail.mountedRef _); simpl.
      * eapply one_update_intro with (ts := [_]); simpl.
        -- rewrite <- app_assoc. reflexivity.
        -- reflexivity.
        -- reflexivity.
        -- constructor; [apply ChapterDetail_loadData_reads | constructor].
      * eapply one_update_intro with (ts := [_]); simpl.
        -- rewrite <- app_assoc. reflexivity.
        -- reflexivity.
        -- reflexivity.
        -- constructor; [apply ChapterDetail_loadData_reads | constructor].
    + destruct (ChapterDetail.mountedRef _); simpl.
      * eapply one_update_intro with (ts := []); simpl.
        -- rewrite <- app_assoc. reflexivity.
        -- reflexivity.
        -- rewrite app_nil_r. reflexivity.
        -- constructor.
      * eapply one_update_intro with (ts := []); simpl.
        -- rewrite <- app_assoc. reflexivity.
        -- reflexivity.
        -- rewrite app_nil_r. reflexivity.
        -- constructor.
  - repeat split. apply fresh_log_app. reflexivity.
  - repeat split. apply fresh_log_app. reflexivity.
  - repeat split. apply fresh_log_app. reflexivity.
Qed.

(** ** ChapterDetail: the editor is open only on a complete route *)

Section ChapterSessions.
Context {B : Type}.
Variable serve : forall X, call X -> B -> result X * B.

Lemma calm_seq (p q : prog ChapterDetail.state) :
  ChapterDetail.calm p -> ChapterDetail.calm q -> ChapterDetail.calm (p >> q).
Proof.
  intros Hp Hq.
  induction p as [ | m k IH | m k IH | k IH | t k IH | f k IH
                 | k IH | X c k IH | t _ k IH ]; simpl in *; auto.
  - destruct Hp as [Hf Hk]. split; auto.
  - destruct Hp as [Ht Hk]. split; auto.
Qed.

(** A calm task run up to its next [await] has not turned editing on, and
    what is left of it and what it detached are calm. *)
Lemma until_await_calm (p : prog ChapterDetail.state) (w : world B ChapterDetail.state) :
  ChapterDetail.calm p ->
  Forall ChapterDetail.calm (pending w) ->
  let r := until_await p w in
  (ChapterDetail.isEditing (ui (fst r)) = true -> ChapterDetail.isEditing (ui w) = true)
  /\ ChapterDetail.calm (snd r)
  /\ Forall ChapterDetail.calm (pending (fst r)).
Proof.
  revert w.
  induction p as [ | m k IH | m k IH | k IH | t k IH | f k IH
                 | k IH | X c k IH | t _ k IH ]; intros w Hp Hw; cbn [until_await].
  - cbn. auto.
  - exact (IH (logged (EAlert m) w) Hp Hw).
  - exact (IH (next_answer w) (logged (EConfirm m (next_answer w)) (answered w)) (Hp _) Hw).
  - exact (IH (logged EConsoleError w) Hp Hw).
  - exact (IH (logged (ENavigate t) w) Hp Hw).
  - destruct Hp as [Hf Hk].
    destruct (IH (with_ui f w) Hk Hw) as (H1 & H2 & H3).
    split; [ | split; assumption].
    intros H. apply Hf. apply H1. exact H.
  - exact (IH (ui w) w (Hp _) Hw).
  - cbn. auto.
  - destruct Hp as [Ht Hk].
    apply (IH (logged ESpawn (queued t w)) Hk).
    cbn. apply Forall_app. split; [exact Hw | constructor; [exact Ht | constructor]].
Qed.

Lemma resume_calm (p : prog ChapterDetail.state) (w : world B ChapterDetail.state) :
  ChapterDetail.calm p ->
  Forall ChapterDetail.calm (pending w) ->
  let r := resume serve p w in
  (ChapterDetail.isEditing (ui (fst r)) = true -> ChapterDetail.isEditing (ui w) = true)
  /\ ChapterDetail.calm (snd r)
  /\ Forall ChapterDetail.calm (pending (fst r)).
Proof.
  intros Hp Hw. destruct p as [ | | | | | | | X c k | ];
    try exact (until_await_calm _ w Hp Hw).
  cbn [resume]. destruct (serve X c (backend w)) as [r b].
  exact (until_await_calm (k r) (logged (ECall c (is_ok r)) (with_backend b w)) (Hp r) Hw).
Qed.

Lemma park_waiting (r : world B ChapterDetail.state * prog ChapterDetail.state)
    (ts : list (prog ChapterDetail.state)) :
  ChapterDetail.calm (snd r) -> Forall ChapterDetail.calm ts ->
  Forall ChapterDetail.calm (waiting (park r ts)).
Proof.
  intros Hr Hts. unfold park. cbn [waiting].
  destruct (snd r); try (apply Forall_app; split; [exact Hts | constructor; [exact Hr | constructor]]).
  exact Hts.
Qed.

Ltac is_calm :=
  repeat first
    [ exact I
    | split
    | intro
    | progress cbn
    | match goal with
      | |- context [if ?b then _ else _] => destruct b
      | |- context [match ?x with _ => _ end] => destruct x
      | H : ChapterDetail.isEditing (_ ?s) = true |- ChapterDetail.isEditing ?s = true =>
          destruct s; cbn in H; first [exact H | discriminate H]
      end ].

Lemma loadData_calm (p : ChapterDetail.params) : ChapterDetail.calm (ChapterDetail.loadData p).
Proof. unfold ChapterDetail.loadData, ChapterDetail.if_mounted. is_calm. Qed.


Lemma handler_calm (p : ChapterDetail.params) (st : ChapterDetail.state)
    (a : ChapterDetail.action) :
  a <> ChapterDetail.StartEdit -> ChapterDetail.calm (ChapterDetail.handler p st a).
Proof.
  intros Ha. destruct a; cbn [ChapterDetail.handler]; try congruence.
  - apply calm_seq; [is_calm | apply calm_seq; [is_calm | apply loadData_calm]].
  - is_calm.
  - is_calm.
  - unfold ChapterDetail.saveEdit, ChapterDetail.if_mounted.
    destruct (negb _); [is_calm | ]. destruct (negb _); [is_calm | ].
    apply calm_seq; [is_calm | ].
    apply calm_seq; [ | is_calm].
    cbn. intros [u | err]; [ | is_calm].
    cbn. split; [is_calm | ]. split; [apply loadData_calm | exact I].
  - unfold ChapterDetail.loadVersionDetails, ChapterDetail.if_mounted. is_calm.
  - unfold ChapterDetail.handleDelete. is_calm.
  - is_calm.
  - exact I.
  - exact I.
Qed.

(** Calling a calm handler keeps the page editable. *)
Lemma start_editable (h : prog ChapterDetail.state) (v : ChapterDetail.view B) :
  ChapterDetail.calm h -> ChapterDetail.editable v ->
  ChapterDetail.editable
    {| ChapterDetail.routeParams := ChapterDetail.routeParams v;
       ChapterDetail.tasks := start h (ChapterDetail.tasks v) |}.
Proof.
  intros Hh (He & Hw & Hp).
  destruct (until_await_calm h (present (ChapterDetail.tasks v)) Hh Hp) as (H1 & H2 & H3).
  unfold ChapterDetail.editable, ChapterDetail.cells, start.
  cbn [ChapterDetail.routeParams ChapterDetail.tasks].
  split; [ | split].
  - intros H. apply He. apply H1. exact H.
  - apply park_waiting; assumption.
  - exact H3.
Qed.

Lemma arrive_editable (n : nat) (v : ChapterDetail.view B) :
  ChapterDetail.editable v ->
  ChapterDetail.editable
    {| ChapterDetail.routeParams := ChapterDetail.routeParams v;
       ChapterDetail.tasks := arrive serve n (ChapterDetail.tasks v) |}.
Proof.
  intros (He & Hw & Hp). unfold arrive.
  destruct (waiting (ChapterDetail.tasks v) !! n) as [t | ] eqn:Et.
  - assert (Ht : ChapterDetail.calm t).
    { exact (proj1 (List.Forall_forall _ _) Hw t (proj1 (list_elem_of_In _ _) (list_elem_of_lookup_2 _ _ _ Et))). }
    destruct (resume_calm t (present (ChapterDetail.tasks v)) Ht Hp) as (H1 & H2 & H3).
    unfold ChapterDetail.editable, ChapterDetail.cells.
    cbn [ChapterDetail.routeParams ChapterDetail.tasks].
    split; [ | split].
    + intros H. apply He. apply H1. exact H.
    + apply park_waiting; [exact H2 | ]. apply Forall_delete. exact Hw.
    + exact H3.
  - destruct v as [p [w ts]]. exact (conj He (conj Hw Hp)).
Qed.

Lemma detach_editable (v : ChapterDetail.view B) :
  ChapterDetail.editable v ->
  ChapterDetail.editable
    {| ChapterDetail.routeParams := ChapterDetail.routeParams v;
       ChapterDetail.tasks := detach (ChapterDetail.tasks v) |}.
Proof.
  intros (He & Hw & Hp). unfold detach.
  destruct v as [p [[u b a l ps] ts]].
  unfold ChapterDetail.cells in He. cbn in He, Hw, Hp. cbn.
  destruct ps as [ | t r]; [exact (conj He (conj Hw Hp)) | ].
  inversion Hp as [ | ? ? Ht Hr]; subst.
  apply (start_editable t
           {| ChapterDetail.routeParams := p;
              ChapterDetail.tasks :=
                {| present := {| ui := u; backend := b; answers := a; log := l; pending := r |};
                   waiting := ts |} |} Ht).
  exact (conj He (conj Hw Hr)).
Qed.

(** The effect on the route parameters closes the editor. *)
Lemma route_editable (p : ChapterDetail.params) (v : ChapterDetail.view B) :
  ChapterDetail.editable v ->
  ChapterDetail.editable (ChapterDetail.step serve v (ChapterDetail.Route p)).
Proof.
  intros (He & Hw & Hp).
  cbn [ChapterDetail.step]. unfold ChapterDetail.routeEffect, start.
  cbn [set seq until_await].
  destruct (until_await_calm (ChapterDetail.loadData p)
              (with_ui (ChapterDetail.setEditContent [])
                 (with_ui (ChapterDetail.setIsEditing false) (present (ChapterDetail.tasks v))))
              (loadData_calm p) Hp) as (H1 & H2 & H3).
  unfold ChapterDetail.editable, ChapterDetail.cells.
  cbn [ChapterDetail.routeParams ChapterDetail.tasks].
  split; [ | split].
  - intros H. apply H1 in H. cbn in H.
    destruct (ui (present (ChapterDetail.tasks v))). discriminate H.
  - apply park_waiting; assumption.
  - exact H3.
Qed.

(** "Edit" is offered only on a route with all three parameters. *)
Lemma startEdit_editable (v : ChapterDetail.view B) :
  ChapterDetail.offered (ChapterDetail.routeParams v) (ChapterDetail.cells v)
    ChapterDetail.StartEdit ->
  ChapterDetail.editable v ->
  ChapterDetail.editable (ChapterDetail.step serve v ChapterDetail.StartEdit).
Proof.
  intros (_ & _ & Hc) (He & Hw & Hp).
  unfold ChapterDetail.editable, ChapterDetail.cells.
  cbn. split; [intros _; exact Hc | split; assumption].
Qed.

Lemma step_editable (v : ChapterDetail.view B) (a : ChapterDetail.action) :
  ChapterDetail.offered (ChapterDetail.routeParams v) (ChapterDetail.cells v) a ->
  ChapterDetail.editable v ->
  ChapterDetail.editable (ChapterDetail.step serve v a).
Proof.
  intros Ho Hv.
  destruct a;
    try (cbn [ChapterDetail.step]; apply start_editable;
         [apply handler_calm; discriminate | exact Hv]).
  - apply route_editable. exact Hv.
  - apply startEdit_editable; assumption.
  - apply arrive_editable. exact Hv.
  - apply detach_editable. exact Hv.
Qed.

Lemma play_editable (acts : list ChapterDetail.action) (v : ChapterDetail.view B) :
  ChapterDetail.offered_play serve v acts ->
  ChapterDetail.editable v ->
  ChapterDetail.editable (ChapterDetail.play serve v acts).
Proof.
  revert v. induction acts as [ | a rest IH]; intros v Ho Hv; [exact Hv | ].
  destruct Ho as [Ha Hrest]. cbn [ChapterDetail.play fold_left].
  apply (IH (ChapterDetail.step serve v a) Hrest).
  apply step_editable; assumption.
Qed.

Lemma opened_editable (p : ChapterDetail.params) (b : B) (answers : list bool) :
  ChapterDetail.editable (ChapterDetail.opened p b answers).
Proof.
  pose (v0 := {| ChapterDetail.routeParams := p;
                 ChapterDetail.tasks :=
                   {| present := mount ChapterDetail.initial b answers;
                      waiting := [] |} |}).
  change (ChapterDetail.opened p b answers)
    with (ChapterDetail.step serve v0 (ChapterDetail.Route p)).
  apply route_editable. unfold ChapterDetail.editable, v0. cbn.
  split; [discriminate | split; constructor].
Qed.

(** Every save the chapter page can make is on a route with all three
    parameters. *)
Lemma offered_save_can_edit (p : ChapterDetail.params) (b : B) (answers : list bool)
    (acts : list ChapterDetail.action) :
  let v := ChapterDetail.play serve (ChapterDetail.opened p b answers) acts in
  ChapterDetail.offered_play serve (ChapterDetail.opened p b answers) acts ->
  ChapterDetail.offered (ChapterDetail.routeParams v) (ChapterDetail.cells v)
    ChapterDetail.Save ->
  ChapterDetail.canEdit (ChapterDetail.routeParams v) = true.
Proof.
  intros v Hplay (_ & He & _).
  destruct (play_editable acts _ Hplay (opened_editable p b answers)) as (H & _).
  exact (H He).
Qed.

End ChapterSessions.

(** C7.  Saving in the entity editor, in the direct-edge editor and in the
    chapter editor sends nothing and changes nothing when the content is
    empty or only white space (the alert is all that happens), and sends
    exactly one edit request otherwise.  For the entity editor and the
    direct-edge editor this holds at every state of the page.  For the
    chapter editor it holds at every save the page offers: in every session
    of the page from its mount (the clicks its renders offer, changes of
    route, replies arriving in any order, detached reloads, unmounting),
    whenever "Save" is offered, the handler of that render keeps the
    contract; the editor is open only on a route with viewer id, target id
    and chapter name, so the second guard of [saveEdit] never fires.  On
    such a route the handler keeps the contract at every state. *)
Theorem saveEdit_sends_one_update_or_none
  (B : Type) (serve : forall X, call X -> B -> result X * B) :
  (forall entityId st (w : world B EntityDetail.state),
      save_contract serve (EntityDetail.editContent st)
        (EntityDetail.saveEdit entityId st) w)
  /\ (forall viewerId targetId st (w : world B RelationDetail.state),
        save_contract serve (RelationDetail.editContent st)
          (RelationDetail.saveEdit viewerId targetId st) w)
  /\ (forall p b answers acts,
        let v := ChapterDetail.play serve (ChapterDetail.opened p b answers) acts in
        ChapterDetail.offered_play serve (ChapterDetail.opened p b answers) acts ->
        ChapterDetail.offered (ChapterDetail.routeParams v) (ChapterDetail.cells v)
          ChapterDetail.Save ->
        save_contract serve (ChapterDetail.editContent (ChapterDetail.cells v))
          (ChapterDetail.saveEdit (ChapterDetail.routeParams v) (ChapterDetail.cells v))
          (present (ChapterDetail.tasks v)))
  /\ (forall p st (w : world B ChapterDetail.state),
        ChapterDetail.canEdit p = true ->
        save_contract serve (ChapterDetail.editContent st) (ChapterDetail.saveEdit p st) w).
Proof.
  split; [ | split; [ | split]].
  - intros. apply EntityDetail_saveEdit_contract.
  - intros. apply RelationDetail_saveEdit_contract.
  - intros p b answers acts v Hplay Hsave.
    pose proof (offered_save_can_edit serve p b answers acts Hplay Hsave) as Hc.
    pose proof (ChapterDetail_saveEdit_contract B serve (ChapterDetail.routeParams v)
                  (ChapterDetail.cells v) (present (ChapterDetail.tasks v))) as H.
    cbv zeta in H. fold v in Hc. rewrite Hc in H. exact H.
  - intros p st w Hc.
    pose proof (ChapterDetail_saveEdit_contract B serve p st w) as H.
    cbv zeta in H. rewrite Hc in H. exact H.
Qed.

(** A session of the chapter page on which "Save" is offered: the chapter
    and its versions arrive, the user opens the editor and types. *)
Lemma saveEdit_sends_one_update_or_none_witness :
  let acts := [ChapterDetail.Reply 0; ChapterDetail.Reply 0; ChapterDetail.StartEdit;
               ChapterDetail.TypeContent (lit "Twice")] in
  let v := ChapterDetail.play Fixture.serve_chapter
             (ChapterDetail.opened Fixture.chapter_route tt []) acts in
  ChapterDetail.offered_play Fixture.serve_chapter
    (ChapterDetail.opened Fixture.chapter_route tt []) acts
  /\ ChapterDetail.offered (ChapterDetail.routeParams v) (ChapterDetail.cells v)
       ChapterDetail.Save
  /\ save_contract Fixture.serve_chapter (ChapterDetail.editContent (ChapterDetail.cells v))
       (ChapterDetail.saveEdit (ChapterDetail.routeParams v) (ChapterDetail.cells v))
       (present (ChapterDetail.tasks v)).
Proof.
  intros acts v.
  assert (Hplay : ChapterDetail.offered_play Fixture.serve_chapter
                    (ChapterDetail.opened Fixture.chapter_route tt []) acts).
  { vm_compute. repeat split. }
  assert (Hsave : ChapterDetail.offered (ChapterDetail.routeParams v) (ChapterDetail.cells v)
                    ChapterDetail.Save).
  { vm_compute. repeat split. }
  split; [exact Hplay | split; [exact Hsave | ]].
  exact (proj1 (proj2 (proj2 (saveEdit_sends_one_update_or_none unit Fixture.serve_chapter)))
           Fixture.chapter_route tt [] acts Hplay Hsave).
Defined.

(** That session goes on: the user saves, the reply arrives, the reload
    starts and its two replies arrive.  One edit request was sent, with
    the text typed. *)
Example chapter_save_session :
  let acts := [ChapterDetail.Reply 0; ChapterDetail.Reply 0; ChapterDetail.StartEdit;
               ChapterDetail.TypeContent (lit "Twice"); ChapterDetail.Save;
               ChapterDetail.Reply 0; ChapterDetail.Detached;
               ChapterDetail.Reply 0; ChapterDetail.Reply 0] in
  let v := ChapterDetail.play Fixture.serve_chapter
             (ChapterDetail.opened Fixture.chapter_route tt []) acts in
  ChapterDetail.offered_play Fixture.serve_chapter
    (ChapterDetail.opened Fixture.chapter_route tt []) acts
  /\ List.filter is_update_entry (log (present (ChapterDetail.tasks v)))
     = [ECall (updateChapter (lit "char_1") (lit "char_2") (lit "ch1") (lit "Twice") Null) true]
  /\ waiting (ChapterDetail.tasks v) = []
  /\ ChapterDetail.isEditing (ChapterDetail.cells v) = false
  /\ ChapterDetail.saving (ChapterDetail.cells v) = false.
Proof. vm_compute. repeat split. Qed.

(** With a route parameter missing the page shows "Chapter not found" and
    offers neither "Edit" nor "Save". *)
Example chapter_without_name_offers_no_edit :
  let p := {| ChapterDetail.viewerId := Str (lit "char_1");
              ChapterDetail.targetId := Str (lit "char_2");
              ChapterDetail.chapterName := Undefined |} in
  let v := ChapterDetail.opened (B := unit) p tt [] in
  ChapterDetail.render (ChapterDetail.cells v) = ChapterDetail.ChapterNotFound
  /\ waiting (ChapterDetail.tasks v) = []
  /\ ~ ChapterDetail.offered p (ChapterDetail.cells v) ChapterDetail.StartEdit
  /\ ~ ChapterDetail.offered p (ChapterDetail.cells v) ChapterDetail.Save.
Proof.
  repeat split; intros (H & _); discriminate H.
Qed.

Example EntityDetail_saveEdit_blank :
  let st := EntityDetail.setEditContent [32; 0x3000; 10] (EntityDetail.initial (lit "char_1")) in
  log (run offline (EntityDetail.saveEdit (lit "char_1") st) (mount st tt []))
  = [EAlert empty_content_message].
Proof. reflexivity. Qed.

Example RelationDetail_saveEdit_text :
  let st := RelationDetail.setEditContent (lit " loves ") RelationDetail.initial in
  List.map is_update_entry
    (log (run offline (RelationDetail.saveEdit (lit "a") (lit "b") st) (mount st tt [])))
  = [true; false].
Proof. reflexivity. Qed.

(** ** MaintenancePage: the confirmation before a batch delete *)

Lemma str_eq_refl (a : jsstring) : str_eq a a = true.
Proof.
  induction a as [ | x a IH]; simpl; [reflexivity | ].
  rewrite Z.eqb_refl. exact IH.
Qed.

Lemma str_eq_true (a b : jsstring) : str_eq a b = true <-> a = b.
Proof.
  split.
  - revert b. induction a as [ | x a IH]; intros [ | y b]; simpl;
      try discriminate; [reflexivity | ].
    intros H. apply andb_true_iff in H. destruct H as [Hx Hr].
    apply Z.eqb_eq in Hx. rewrite Hx, (IH b Hr). reflexivity.
  - intros ->. apply str_eq_refl.
Qed.

Lemma has_In (id : jsstring) (s : MaintenancePage.idset) :
  MaintenancePage.has id s = true <-> In id s.
Proof.
  unfold MaintenancePage.has. rewrite existsb_exists. split.
  - intros [x [Hx He]]. apply str_eq_true in He. subst x. exact Hx.
  - intros H. exists id. split; [exact H | apply str_eq_refl].
Qed.

Lemma hasCurrent_spec (os : orphan_states) (selected : MaintenancePage.idset) :
  MaintenancePage.hasCurrent os selected = true
  <-> exists s, In s (states os) /\ In (o_state_id s) selected /\ is_current s = true.
Proof.
  unfold MaintenancePage.hasCurrent. rewrite existsb_exists. split.
  - intros [s [Hs H]]. apply andb_true_iff in H. destruct H as [Hh Hc].
    exists s. rewrite <- has_In. auto.
  - intros [s [Hs [Hh Hc]]]. exists s. split; [exact Hs | ].
    apply andb_true_iff. rewrite has_In. auto.
Qed.

(** C8.  With a non-empty selection, the delete-states handler opens one
    confirmation dialog whose message is the question, then the
    CURRENT-version warning or nothing, then the list of selected ids; the
    warning is there if and only if some state of the orphan-query result
    is selected and flagged [is_current]. *)
Theorem handleDeleteStates_warns_iff_current_selected
  (st : MaintenancePage.state) (os : orphan_states) :
  MaintenancePage.orphanStates st = Some os ->
  MaintenancePage.selectedStateIds st <> [] ->
  let selected := MaintenancePage.selectedStateIds st in
  exists (warn : bool) (k : bool -> prog MaintenancePage.state),
    MaintenancePage.handleDeleteStates st
    = Confirm ((lit "Delete " ++ num_to_string (MaintenancePage.size selected)
                ++ lit " state(s)? This cannot be undone.")
               ++ (if warn then MaintenancePage.current_warning else [])
               ++ MaintenancePage.selected_ids_text selected) k
    /\ (warn = true <->
        exists s, In s (states os) /\ In (o_state_id s) selected /\ is_current s = true).
Proof.
  intros Hos Hsel selected. subst selected.
  assert (Hsz : (MaintenancePage.size (MaintenancePage.selectedStateIds st) =? 0) = false).
  { apply Z.eqb_neq. unfold MaintenancePage.size.
    destruct (MaintenancePage.selectedStateIds st) as [ | id rest]; [contradiction | ].
    simpl List.length. lia. }
  exists (MaintenancePage.hasCurrent os (MaintenancePage.selectedStateIds st)).
  unfold MaintenancePage.handleDeleteStates. rewrite Hos, Hsz.
  eexists. split.
  - reflexivity.
  - apply hasCurrent_spec.
Qed.

Lemma handleDeleteStates_warns_iff_current_selected_witness :
  let os := {| os_count := 2;
               states := [ {| o_state_id := lit "s1"; is_current := false |};
                           {| o_state_id := lit "s2"; is_current := true |} ] |} in
  let st := MaintenancePage.setSelectedStateIds (fun _ => [lit "s2"])
              (MaintenancePage.setOrphanStates (Some os) MaintenancePage.initial) in
  let selected := MaintenancePage.selectedStateIds st in
  exists (warn : bool) (k : bool -> prog MaintenancePage.state),
    MaintenancePage.handleDeleteStates st
    = Confirm ((lit "Delete " ++ num_to_string (MaintenancePage.size selected)
                ++ lit " state(s)? This cannot be undone.")
               ++ (if warn then MaintenancePage.current_warning else [])
               ++ MaintenancePage.selected_ids_text selected) k
    /\ (warn = true <->
        exists s, In s (states os) /\ In (o_state_id s) selected /\ is_current s = true).
Proof.
  intros os st.
  apply (handleDeleteStates_warns_iff_current_selected st os).
  - reflexivity.
  - simpl. discriminate.
Defined.

Example delete_message_with_warning :
  MaintenancePage.delete_states_message true [lit "s2"]
  = lit "Delete 1 state(s)? This cannot be undone."
    ++ [10; 10; 0x26A0; 0xFE0F]
    ++ lit " WARNING: You have selected CURRENT version(s)." ++ [10]
    ++ lit "Deleting them will revert the entity to its previous version."
    ++ [10; 10] ++ lit "Selected IDs:" ++ [10] ++ lit "s2".
Proof. reflexivity. Qed.

Example delete_message_of_six :
  MaintenancePage.delete_states_message false
    [lit "a"; lit "b"; lit "c"; lit "d"; lit "e"; lit "f"]
  = lit "Delete 6 state(s)? This cannot be undone."
    ++ [10; 10] ++ lit "Selected IDs:" ++ [10]
    ++ lit "a" ++ [10] ++ lit "b" ++ [10] ++ lit "c" ++ [10] ++ lit "d" ++ [10]
    ++ lit "e" ++ [10] ++ lit "... and 1 more".
Proof. reflexivity. Qed.

(** "Select Non-Current" never leads to the warning. *)
Example selectAllStates_then_delete_has_no_warning :
  let os := {| os_count := 2;
               states := [ {| o_state_id := lit "s1"; is_current := false |};
                           {| o_state_id := lit "s2"; is_current := true |} ] |} in
  let st := MaintenancePage.setOrphanStates (Some os) MaintenancePage.initial in
  let w := run offline (MaintenancePage.selectAllStates st) (mount st tt []) in
  MaintenancePage.selectedStateIds (ui w) = [lit "s1"]
  /\ MaintenancePage.hasCurrent os (MaintenancePage.selectedStateIds (ui w)) = false.
Proof. split; reflexivity. Qed.

(** ** EntityDetail: the version badge of an outbound edge *)

Lemma highlighted_spec (e : edge) (cc : state_data) :
  EntityDetail.highlighted e cc = true <-> viewer_version e <> version cc.
Proof.
  unfold EntityDetail.highlighted, EntityDetail.version_badge_class.
  destruct (viewer_version e =? version cc) eqn:E.
  - apply Z.eqb_eq in E. split; [discriminate | contradiction].
  - apply Z.eqb_neq in E. split; [intros _; exact E | reflexivity].
Qed.

(** C5, as the code has it.  An outbound edge is highlighted exactly when
    its [viewer_version] differs from the version of the state selected for
    display.  While the selected state is the entity's current one (the
    first of the history, as after loading) this is the comparison with the
    current version. *)
Theorem edge_highlighted_iff_differs_from_displayed_version :
  (forall (e : edge) (cc : state_data),
      EntityDetail.highlighted e cc = true <-> viewer_version e <> version cc)
  /\ (forall (st : EntityDetail.state) (e : edge) (cc : state_data),
        EntityDetail.currentContent st = Some cc ->
        EntityDetail.latest_version (EntityDetail.versions st) = Some (version cc) ->
        (EntityDetail.highlighted e cc = true
         <-> EntityDetail.latest_version (EntityDetail.versions st)
             <> Some (viewer_version e))).
Proof.
  split.
  - exact highlighted_spec.
  - intros st e cc _ Hl. rewrite Hl, highlighted_spec. split.
    + intros H [= E]. apply H. symmetry. exact E.
    + intros H E. apply H. rewrite E. reflexivity.
Qed.

(** C5 as stated fails once an older version is displayed: with version 1
    of [char_1] selected, the edge pinned to version 1 is not highlighted
    although the entity's current version is 2. *)
Lemma old_version_selected_hides_stale_edge :
  ~ EntityDetail.flags_stale_edges (ui Fixture.viewing_v1).
Proof.
  intros H.
  destruct (H Fixture.loves Fixture.v1) as [_ Hflag].
  - left. reflexivity.
  - reflexivity.
  - assert (Hne : EntityDetail.latest_version
                    (EntityDetail.versions (ui Fixture.viewing_v1))
                  <> Some (viewer_version Fixture.loves)).
    { vm_compute. discriminate. }
    specialize (Hflag Hne). vm_compute in Hflag. discriminate Hflag.
Qed.

Example latest_version_selected_flags_stale_edge :
  EntityDetail.currentContent (ui Fixture.loaded) = Some Fixture.v2
  /\ EntityDetail.highlighted Fixture.loves Fixture.v2 = true.
Proof. split; reflexivity. Qed.

(** ** DiffViewer: missing texts *)

(** C10.  Both renderers replace a missing text ([null] or [undefined])
    by the empty string before diffing, whatever [diffLines] is: the runs
    for a missing text are the runs for [""], and [diffLines] is only ever
    applied to the two strings [oldText || ''] and [newText || '']. *)
Theorem diff_renderers_total_on_missing_text
  (diffLines : jsstring -> jsstring -> list DiffViewer.change) :
  (forall oldText newText,
      DiffViewer.SimpleDiff diffLines oldText newText
      = List.map (fun part => {| DiffViewer.className := DiffViewer.span_style part;
                                 DiffViewer.text := DiffViewer.value part |})
                 (diffLines (or_empty oldText) (or_empty newText)))
  /\ (forall x,
        DiffViewer.SimpleDiff diffLines Null x = DiffViewer.SimpleDiff diffLines (Str []) x
        /\ DiffViewer.SimpleDiff diffLines Undefined x
           = DiffViewer.SimpleDiff diffLines (Str []) x
        /\ DiffViewer.SimpleDiff diffLines x Null = DiffViewer.SimpleDiff diffLines x (Str [])
        /\ DiffViewer.SimpleDiff diffLines x Undefined
           = DiffViewer.SimpleDiff diffLines x (Str []))
  /\ (forall x mode,
        DiffViewer.DiffViewer diffLines Null x mode
        = DiffViewer.DiffViewer diffLines (Str []) x mode
        /\ DiffViewer.DiffViewer diffLines Undefined x mode
           = DiffViewer.DiffViewer diffLines (Str []) x mode
        /\ DiffViewer.DiffViewer diffLines x Null mode
           = DiffViewer.DiffViewer diffLines x (Str []) mode
        /\ DiffViewer.DiffViewer diffLines x Undefined mode
           = DiffViewer.DiffViewer diffLines x (Str []) mode).
Proof.
  split; [ | split].
  - intros. reflexivity.
  - intros x. repeat split.
  - intros x mode. repeat split.
Qed.

(** ** MaintenancePage: the limits *)


Example limit_inputs :
  List.map MaintenancePage.limit_of_input
    [lit "250"; lit "0"; lit ""; lit "abc"; lit "-7"; lit "99999"; lit "12.9"; lit " 42px"]
  = [250; 100; 100; 100; 1; 500; 12; 42].
Proof. reflexivity. Qed.

Example limit_reaches_the_query :
  let w := MaintenancePage.session offline (mount MaintenancePage.initial tt [])
             [MaintenancePage.ChangeStateLimit (lit "9000"); MaintenancePage.SearchStates] in
  List.map MaintenancePage.limit_of_entry (log w) = [Some 500].
Proof. reflexivity. Qed.

(** ** The line-oriented comparison *)

Section LineDiffFacts.
Import LineDiff DiffViewer.

Lemma lines_from_concat (s cur : jsstring) :
  List.concat (lines_from cur s) = rev cur ++ s.
Proof.
  revert cur. induction s as [ | c r IH]; intros cur; simpl.
  - destruct cur; simpl; [reflexivity | ].
    rewrite !app_nil_r. reflexivity.
  - destruct (c =? 10); simpl.
    + rewrite IH. simpl. rewrite <- app_assoc. reflexivity.
    + rewrite IH. simpl. rewrite <- app_assoc. reflexivity.
Qed.

(** Cutting a text into lines loses nothing. *)
Lemma tokenize_concat (s : jsstring) : List.concat (tokenize s) = s.
Proof. unfold tokenize. rewrite lines_from_concat. reflexivity. Qed.

Lemma script_nil_l (ys : list jsstring) :
  script [] ys = List.map (fun y => (Ins, y)) ys.
Proof. destruct ys; reflexivity. Qed.

Lemma script_nil_r (xs : list jsstring) :
  script xs [] = List.map (fun x => (Del, x)) xs.
Proof. destruct xs; reflexivity. Qed.

Lemma script_cons (x y : jsstring) (xs ys : list jsstring) :
  script (x :: xs) (y :: ys)
  = if str_eq x y then (Keep, x) :: script xs ys
    else
      let d := (Del, x) :: script xs (y :: ys) in
      let i := (Ins, y) :: script (x :: xs) ys in
      if (cost d <=? cost i)%nat then d else i.
Proof. reflexivity. Qed.

(** An edit script contains both sequences of lines. *)
Lemma script_sides (xs ys : list jsstring) :
  List.map snd (List.filter in_old (script xs ys)) = xs
  /\ List.map snd (List.filter in_new (script xs ys)) = ys.
Proof.
  revert ys. induction xs as [ | x xs IHx]; intros ys.
  - rewrite script_nil_l. induction ys as [ | y ys IHy]; simpl; [auto | ].
    destruct IHy as [H1 H2]. split; [exact H1 | ]. simpl. rewrite H2. reflexivity.
  - induction ys as [ | y ys IHy].
    + rewrite script_nil_r. clear IHx.
      induction (x :: xs) as [ | z zs IHz]; simpl; [auto | ].
      destruct IHz as [H1 H2]. split; [ | exact H2]. rewrite H1. reflexivity.
    + rewrite script_cons. destruct (str_eq x y) eqn:E.
      * apply str_eq_true in E. subst y.
        destruct (IHx ys) as [H1 H2].
        cbn [List.filter List.map in_old in_new fst snd]. rewrite H1, H2. auto.
      * cbv zeta. destruct (_ <=? _)%nat.
        -- destruct (IHx (y :: ys)) as [H1 H2].
           cbn [List.filter List.map in_old in_new fst snd]. rewrite H1, H2. auto.
        -- destruct IHy as [H1 H2].
           cbn [List.filter List.map in_old in_new fst snd]. rewrite H1, H2. auto.
Qed.

Lemma script_same (xs : list jsstring) :
  script xs xs = List.map (fun x => (Keep, x)) xs.
Proof.
  induction xs as [ | x xs IH]; [reflexivity | ].
  rewrite script_cons, str_eq_refl, IH. reflexivity.
Qed.

Lemma runs_one_kind (l : list (op * jsstring)) :
  forallb one_kind (runs l) = true.
Proof.
  induction l as [ | [o t] r IH]; simpl; [reflexivity | ].
  destruct (runs r) as [ | c cs]; simpl.
  - destruct o; reflexivity.
  - simpl in IH. apply andb_true_iff in IH. destruct IH as [Hc Hcs].
    destruct (same_kind o c); simpl.
    + unfold one_kind in *. simpl. rewrite Hc, Hcs. reflexivity.
    + rewrite Hc, Hcs. destruct o; reflexivity.
Qed.

(** Grouping lines into runs keeps both texts. *)
Lemma runs_sides (l : list (op * jsstring)) :
  old_text (runs l) = List.concat (List.map snd (List.filter in_old l))
  /\ new_text (runs l) = List.concat (List.map snd (List.filter in_new l)).
Proof.
  unfold old_text, new_text.
  induction l as [ | [o t] r IH]; [simpl; auto | ].
  pose proof (runs_one_kind r) as Hk.
  destruct IH as [IH1 IH2].
  cbn [runs List.filter].
  destruct (runs r) as [ | c cs].
  - destruct o;
      cbn [List.filter List.map List.concat in_old in_new fst snd
           run_of added removed value negb];
      rewrite <- ?IH1, <- ?IH2; simpl; auto.
  - cbn [forallb] in Hk. apply andb_true_iff in Hk. destruct Hk as [Hc _].
    unfold one_kind in Hc.
    cbn [List.filter List.map List.concat] in IH1, IH2.
    destruct o; cbn [same_kind in_old in_new fst snd];
      destruct (added c) eqn:Ea; destruct (removed c) eqn:Er; try discriminate Hc;
      cbn [negb andb List.filter List.map List.concat run_of added removed value snd] in *;
      rewrite ?Ea, ?Er;
      cbn [negb andb List.filter List.map List.concat run_of added removed value snd] in *;
      rewrite <- ?IH1, <- ?IH2, <- ?app_assoc; auto.
Qed.

(** The runs of a diff spell out the old text and the new text. *)
Lemma diffLines_sides (a b : jsstring) :
  old_text (diffLines a b) = a /\ new_text (diffLines a b) = b.
Proof.
  unfold diffLines.
  destruct (runs_sides (script (tokenize a) (tokenize b))) as [H1 H2].
  destruct (script_sides (tokenize a) (tokenize b)) as [H3 H4].
  rewrite H1, H2, H3, H4, !tokenize_concat. auto.
Qed.

Lemma filter_all {A} (f : A -> bool) (l : list A) :
  forallb f l = true -> List.filter f l = l.
Proof.
  induction l as [ | x l IH]; simpl; [reflexivity | ].
  intros H. apply andb_true_iff in H. destruct H as [Hx Hl].
  rewrite Hx, (IH Hl). reflexivity.
Qed.

Lemma runs_all_keep (l : list (op * jsstring)) :
  forallb is_keep l = true -> forallb is_equal_run (runs l) = true.
Proof.
  induction l as [ | [o t] r IH]; simpl; [reflexivity | ].
  intros H. apply andb_true_iff in H. destruct H as [Ho Hr].
  specialize (IH Hr). destruct o; try discriminate.
  destruct (runs r) as [ | c cs]; simpl in *; [reflexivity | ].
  apply andb_true_iff in IH. destruct IH as [Hc Hcs].
  unfold is_equal_run in Hc. rewrite Hc. simpl.
  unfold is_equal_run at 1. simpl. fold (is_equal_run c).
  unfold is_equal_run at 1. rewrite Hc, Hcs. reflexivity.
Qed.

Lemma only_equal_runs_iff (a b : jsstring) :
  forallb is_equal_run (diffLines a b) = true <-> a = b.
Proof.
  split.
  - intros H. destruct (diffLines_sides a b) as [Ha Hb].
    unfold old_text in Ha. unfold new_text in Hb.
    rewrite filter_all in Ha, Hb.
    + congruence.
    + rewrite forallb_forall in *. intros c Hc. specialize (H c Hc).
      unfold is_equal_run in H. apply andb_true_iff in H. tauto.
    + rewrite forallb_forall in *. intros c Hc. specialize (H c Hc).
      unfold is_equal_run in H. apply andb_true_iff in H. tauto.
  - intros ->. unfold diffLines. rewrite script_same.
    apply runs_all_keep. induction (tokenize b); simpl; auto.
Qed.

End LineDiffFacts.

Lemma or_empty_Str (s : jsstring) : or_empty (Str s) = s.
Proof. destruct s; reflexivity. Qed.

Lemma existsb_negb_forallb {A} (f : A -> bool) (l : list A) :
  existsb (fun x => negb (f x)) l = negb (forallb f l).
Proof.
  induction l as [ | x l IH]; simpl; [reflexivity | ].
  rewrite IH. destruct (f x); reflexivity.
Qed.

Lemma span_style_neutral (part : DiffViewer.change) :
  DiffViewer.span_style part = lit "text-slate-400"
  <-> LineDiff.is_equal_run part = true.
Proof.
  unfold DiffViewer.span_style, LineDiff.is_equal_run.
  destruct (DiffViewer.added part); destruct (DiffViewer.removed part); simpl;
    split; intros H; try reflexivity; discriminate H.
Qed.

(** C2.  The line-oriented comparison of two texts yields only equal runs
    (no inserted and no deleted run) if and only if the texts are the same
    string; [has_changes] is false exactly then; and exactly then every
    span [SimpleDiff] renders carries the neutral style. *)
Theorem diff_only_equal_runs_iff_identical (snapshot_content current_content : jsstring) :
  (forallb LineDiff.is_equal_run (LineDiff.diffLines snapshot_content current_content) = true
   <-> snapshot_content = current_content)
  /\ (LineDiff.has_changes snapshot_content current_content = false
      <-> snapshot_content = current_content)
  /\ (Forall (fun sp => DiffViewer.className sp = lit "text-slate-400")
             (DiffViewer.SimpleDiff LineDiff.diffLines
                (Str snapshot_content) (Str current_content))
      <-> snapshot_content = current_content).
Proof.
  split; [ | split].
  - apply only_equal_runs_iff.
  - unfold LineDiff.has_changes. rewrite existsb_negb_forallb.
    rewrite <- only_equal_runs_iff.
    destruct (forallb _ _); simpl; split; intros H; congruence.
  - rewrite <- only_equal_runs_iff. unfold DiffViewer.SimpleDiff.
    rewrite !or_empty_Str, List.Forall_map, forallb_forall, List.Forall_forall.
    split; intros H c Hc; specialize (H c Hc); simpl in *;
      apply span_style_neutral; exact H.
Qed.

Example diff_of_an_edit :
  List.map (fun c => (DiffViewer.added c, DiffViewer.removed c))
    (LineDiff.diffLines (lit "A") (lit "B"))
  = [(false, true); (true, false)]
  /\ LineDiff.has_changes (lit "A") (lit "B") = true
  /\ LineDiff.has_changes (lit "A") (lit "A") = false.
Proof. repeat split. Qed.

(** ** ReviewPage: rollback *)

Section RollbackFacts.
Import Ledger.








End RollbackFacts.



(** The scenario of the specification: the rollback of [char_1] in
    session [s1] restores ["A"] and removes the snapshot. *)
Example rollback_of_char_1 :
  let w := mount Fixture.review_page (Fixture.reviewing []) [true] in
  let w' := run Ledger.serve (ReviewPage.handleRollback Fixture.review_page) w in
  Ledger.live (backend w') !! lit "char_1" = Some (lit "A")
  /\ Ledger.snaps (backend w') = []
  /\ List.map is_call_entry (log w') = [false; true; true; false].
Proof. vm_compute. auto. Qed.

(** The handler was written for an API that keeps the snapshot after a
    rollback (its comment says so) and sends a second request to discard
    it.  Against the ledger as the specification words it that request
    finds nothing: the handler then reports a failure and does not reload
    the list, although the rollback is done. *)
Example rollback_then_second_request :
  let w := mount Fixture.review_page (Fixture.reviewing []) [true] in
  let w' := run Ledger.serve (ReviewPage.handleRollback Fixture.review_page) w in
  fresh_log w w'
  = [EConfirm (lit "Rollback char_1? This will undo the changes.") true;
     ECall (rollbackResource (lit "s1") (lit "char_1")) true;
     ECall (approveSnapshot (lit "s1") (lit "char_1")) false;
     EAlert (lit "Rollback failed: Request failed with status code 404")]
  /\ pending w' = [].
Proof. split; reflexivity. Qed.

Example rollback_request_fails :
  let w := mount Fixture.review_page (Fixture.reviewing [true]) [true] in
  let w' := run Ledger.serve (ReviewPage.handleRollback Fixture.review_page) w in
  Ledger.live (backend w') !! lit "char_1" = Some (lit "B")
  /\ Ledger.snaps (backend w') = [Fixture.snap_char_1]
  /\ call_count (log w') = 1%nat.
Proof. vm_compute. auto. Qed.

(** ** Identifiers in request paths *)

Section UriFacts.

Lemma hex_val_hex_digit (d : Z) : 0 <= d < 16 -> hex_val (hex_digit d) = Some d.
Proof.
  intros H.
  assert (E : d = 0 \/ d = 1 \/ d = 2 \/ d = 3 \/ d = 4 \/ d = 5 \/ d = 6 \/ d = 7
              \/ d = 8 \/ d = 9 \/ d = 10 \/ d = 11 \/ d = 12 \/ d = 13 \/ d = 14
              \/ d = 15) by lia.
  repeat (destruct E as [-> | E]; [reflexivity | ]). subst d. reflexivity.
Qed.

Lemma hex_digit_not_slash (d : Z) : 0 <= d < 16 -> hex_digit d <> 47.
Proof. intros H. unfold hex_digit. destruct (d <? 10) eqn:E; lia. Qed.

Lemma unescape_pct (b : Z) (rest : jsstring) :
  is_byte b ->
  unescape (pct b ++ rest) = opt_map (cons (Oct b)) (unescape rest).
Proof.
  intros Hb. unfold is_byte in Hb. unfold pct. cbn [app unescape].
  replace (37 =? 37) with true by reflexivity.
  rewrite !hex_val_hex_digit by (Z.div_mod_to_equations; lia).
  replace (16 * (b / 16) + b mod 16) with b by (Z.div_mod_to_equations; lia).
  reflexivity.
Qed.

Lemma unescape_escaped (bs : list Z) (rest : jsstring) :
  Forall is_byte bs ->
  unescape (List.concat (List.map pct bs) ++ rest)
  = opt_map (app (List.map Oct bs)) (unescape rest).
Proof.
  induction 1 as [ | b bs Hb _ IH]; cbn [List.map List.concat].
  - cbn [app]. destruct (unescape rest); reflexivity.
  - rewrite <- app_assoc, unescape_pct by exact Hb. rewrite IH.
    destruct (unescape rest); reflexivity.
Qed.

Lemma unescape_unreserved (c : Z) (rest : jsstring) :
  is_unreserved c = true ->
  unescape (c :: rest) = opt_map (cons (Lit c)) (unescape rest).
Proof.
  intros H. cbn [unescape]. destruct (c =? 37) eqn:E; [ | reflexivity].
  apply Z.eqb_eq in E. subst c. discriminate H.
Qed.

Lemma utf8_encode_bytes (cp : Z) : 0 <= cp <= 0x10FFFF -> Forall is_byte (utf8_encode cp).
Proof.
  intros H. unfold utf8_encode, is_byte.
  destruct (cp <? 0x80) eqn:E1; [ | destruct (cp <? 0x800) eqn:E2;
                                    [ | destruct (cp <? 0x10000) eqn:E3]];
    repeat constructor; Z.div_mod_to_equations; lia.
Qed.

Lemma is_cont_low (x : Z) : is_cont (0x80 + x mod 64) = true.
Proof.
  unfold is_cont. apply andb_true_iff. split.
  - apply Z.leb_le. Z.div_mod_to_equations. lia.
  - apply Z.ltb_lt. Z.div_mod_to_equations. lia.
Qed.

Ltac div_lia := Z.div_mod_to_equations; lia.
Ltac is_lt := symmetry; apply Z.ltb_lt; div_lia.
Ltac is_ge := symmetry; apply Z.ltb_ge; div_lia.
Ltac is_le := symmetry; apply Z.leb_le; div_lia.

Lemma utf8_decode_encoded (cp : Z) (ts : list tok) :
  is_scalar cp ->
  utf8_decode (List.map Oct (utf8_encode cp) ++ ts)
  = opt_map (app (utf16_encode cp)) (utf8_decode ts).
Proof.
  intros [Hr Hs]. unfold utf8_encode.
  destruct (cp <? 0x80) eqn:E1; [ | destruct (cp <? 0x800) eqn:E2;
                                    [ | destruct (cp <? 0x10000) eqn:E3]].
  - apply Z.ltb_lt in E1. cbn [List.map app utf8_decode].
    rewrite (proj2 (Z.ltb_lt cp 0x80) E1).
    unfold utf16_encode. replace (cp <? 0x10000) with true by is_lt.
    destruct (utf8_decode ts); reflexivity.
  - apply Z.ltb_ge in E1. apply Z.ltb_lt in E2.
    cbn [List.map app utf8_decode].
    replace (0xC0 + cp / 64 <? 0x80) with false by is_ge.
    replace (0xC0 + cp / 64 <? 0xC0) with false by is_ge.
    replace (0xC0 + cp / 64 <? 0xE0) with true by is_lt.
    rewrite is_cont_low.
    replace ((0xC0 + cp / 64 - 0xC0) * 64 + (0x80 + cp mod 64 - 0x80)) with cp
      by div_lia.
    replace (0x80 <=? cp) with true by is_le.
    reflexivity.
  - apply Z.ltb_ge in E1, E2. apply Z.ltb_lt in E3.
    cbn [List.map app utf8_decode].
    replace (0xE0 + cp / 4096 <? 0x80) with false by is_ge.
    replace (0xE0 + cp / 4096 <? 0xC0) with false by is_ge.
    replace (0xE0 + cp / 4096 <? 0xE0) with false by is_ge.
    replace (0xE0 + cp / 4096 <? 0xF0) with true by is_lt.
    rewrite !is_cont_low.
    replace ((0xE0 + cp / 4096 - 0xE0) * 4096 + (0x80 + (cp / 64) mod 64 - 0x80) * 64
             + (0x80 + cp mod 64 - 0x80)) with cp by div_lia.
    replace (0x800 <=? cp) with true by is_le.
    replace ((0xD800 <=? cp) && (cp <=? 0xDFFF)) with false.
    + reflexivity.
    + symmetry. apply andb_false_iff.
      destruct (Z.leb_spec 0xD800 cp); [ | left; reflexivity].
      right. apply Z.leb_gt. lia.
  - apply Z.ltb_ge in E1, E2, E3.
    cbn [List.map app utf8_decode].
    replace (0xF0 + cp / 262144 <? 0x80) with false by is_ge.
    replace (0xF0 + cp / 262144 <? 0xC0) with false by is_ge.
    replace (0xF0 + cp / 262144 <? 0xE0) with false by is_ge.
    replace (0xF0 + cp / 262144 <? 0xF0) with false by is_ge.
    replace (0xF0 + cp / 262144 <? 0xF8) with true by is_lt.
    rewrite !is_cont_low.
    replace ((0xF0 + cp / 262144 - 0xF0) * 262144
             + (0x80 + (cp / 4096) mod 64 - 0x80) * 4096
             + (0x80 + (cp / 64) mod 64 - 0x80) * 64 + (0x80 + cp mod 64 - 0x80)) with cp
      by div_lia.
    replace (0x10000 <=? cp) with true by is_le.
    replace (cp <=? 0x10FFFF) with true by is_le.
    reflexivity.
Qed.


Lemma utf16_encode_pair (hi lo : Z) :
  is_high_surrogate hi = true -> is_low_surrogate lo = true ->
  utf16_encode (pair_to_code_point hi lo) = [hi; lo]
  /\ is_scalar (pair_to_code_point hi lo).
Proof.
  unfold is_high_surrogate, is_low_surrogate, pair_to_code_point, utf16_encode, is_scalar.
  intros Hh Hl. apply andb_true_iff in Hh, Hl.
  destruct Hh as [H1 H2]. destruct Hl as [H3 H4].
  apply Z.leb_le in H1, H2, H3, H4.
  split; [ | lia].
  replace (_ <? 0x10000) with false by (symmetry; apply Z.ltb_ge; lia).
  f_equal; [ | f_equal]; Z.div_mod_to_equations; lia.
Qed.

Lemma no_slash_escape (cp : Z) :
  0 <= cp <= 0x10FFFF -> ~ In 47 (escape_code_point cp).
Proof.
  intros H. unfold escape_code_point.
  pose proof (utf8_encode_bytes cp H) as Hb.
  induction Hb as [ | b bs Hb _ IH]; cbn [List.map List.concat]; [intros [] | ].
  intros Hin. apply in_app_or in Hin. destruct Hin as [Hin | Hin]; [ | exact (IH Hin)].
  unfold is_byte in Hb. unfold pct in Hin.
  destruct Hin as [E | [E | [E | []]]]; [discriminate E | | ];
    revert E; apply hex_digit_not_slash; Z.div_mod_to_equations; lia.
Qed.

Lemma round_trip_bounded (n : nat) (s : jsstring) :
  (List.length s <= n)%nat -> well_formed s = true -> round_trip s.
Proof.
  revert s. induction n as [ | n IH]; intros s Hlen Hwf.
  - destruct s; [ | simpl in Hlen; lia].
    exists [], []. repeat split; auto.
  - destruct s as [ | c r].
    + exists [], []. repeat split; auto.
    + cbn [well_formed] in Hwf. apply andb_true_iff in Hwf. destruct Hwf as [Hc Hwf].
      unfold is_code_unit in Hc. apply andb_true_iff in Hc. destruct Hc as [Hc0 Hc1].
      apply Z.leb_le in Hc0. apply Z.ltb_lt in Hc1.
      unfold round_trip. cbn [encodeURIComponent].
      destruct (is_unreserved c) eqn:Eu.
      * (* an unreserved character stands for itself *)
        assert (Hh : is_high_surrogate c = false).
        { unfold is_high_surrogate. destruct (0xD800 <=? c) eqn:E; [ | reflexivity].
          apply Z.leb_le in E. unfold is_unreserved, is_alnum in Eu.
          repeat match type of Eu with
                 | (_ || _) = true => apply orb_true_iff in Eu; destruct Eu as [Eu | Eu]
                 | (_ && _) = true => apply andb_true_iff in Eu; destruct Eu as [? Eu]
                 | (_ <=? _) = true => apply Z.leb_le in Eu
                 | (_ =? _) = true => apply Z.eqb_eq in Eu
                 end; lia. }
        rewrite Hh in Hwf. apply andb_true_iff in Hwf. destruct Hwf as [_ Hwf].
        destruct (IH r) as (e & ts & He & Hu & Hd & Hn); [simpl in Hlen; lia | exact Hwf | ].
        exists (c :: e), (Lit c :: ts). rewrite He. repeat split.
        -- rewrite unescape_unreserved, Hu by exact Eu. reflexivity.
        -- cbn [utf8_decode]. rewrite Hd. reflexivity.
        -- intros [E | Hin]; [subst c; discriminate Eu | exact (Hn Hin)].
      * destruct (is_high_surrogate c) eqn:Eh.
        -- (* a surrogate pair *)
           destruct r as [ | d r']; [discriminate Hwf | ].
           apply andb_true_iff in Hwf. destruct Hwf as [El Hwf]. rewrite El.
           destruct (IH r') as (e & ts & He & Hu & Hd & Hn);
             [simpl in Hlen; lia | exact Hwf | ].
           destruct (utf16_encode_pair c d Eh El) as [Hp Hs].
           exists (escape_code_point (pair_to_code_point c d) ++ e),
                  (List.map Oct (utf8_encode (pair_to_code_point c d)) ++ ts).
           rewrite He. repeat split.
           ++ unfold escape_code_point.
              rewrite unescape_escaped, Hu by (apply utf8_encode_bytes; apply Hs).
              reflexivity.
           ++ rewrite utf8_decode_encoded, Hd, Hp by exact Hs. reflexivity.
           ++ intros Hin. apply in_app_or in Hin. destruct Hin as [Hin | Hin];
                [ | exact (Hn Hin)].
              revert Hin. apply no_slash_escape. apply Hs.
        -- (* any other character of the basic plane *)
           cbn [negb] in Hwf. apply andb_true_iff in Hwf. destruct Hwf as [El Hwf].
           apply negb_true_iff in El. rewrite El.
           destruct (IH r) as (e & ts & He & Hu & Hd & Hn);
             [simpl in Hlen; lia | exact Hwf | ].
           assert (Hs : is_scalar c).
           { unfold is_scalar. split; [lia | ].
             unfold is_high_surrogate in Eh. unfold is_low_surrogate in El.
             intros [H1 H2].
             assert (c <= 0xDBFF \/ 0xDC00 <= c) as [H | H] by lia.
             - rewrite (proj2 (Z.leb_le 0xD800 c) H1), (proj2 (Z.leb_le c 0xDBFF) H) in Eh.
               discriminate Eh.
             - rewrite (proj2 (Z.leb_le 0xDC00 c) H), (proj2 (Z.leb_le c 0xDFFF) H2) in El.
               discriminate El. }
           exists (escape_code_point c ++ e), (List.map Oct (utf8_encode c) ++ ts).
           rewrite He. repeat split.
           ++ unfold escape_code_point.
              rewrite unescape_escaped, Hu by (apply utf8_encode_bytes; apply Hs).
              reflexivity.
           ++ rewrite utf8_decode_encoded, Hd by exact Hs.
              unfold utf16_encode.
              replace (c <? 0x10000) with true by (symmetry; apply Z.ltb_lt; lia).
              reflexivity.
           ++ intros Hin. apply in_app_or in Hin. destruct Hin as [Hin | Hin];
                [ | exact (Hn Hin)].
              revert Hin. apply no_slash_escape. apply Hs.
Qed.

Lemma encodeId_round_trip (id : jsstring) :
  well_formed id = true ->
  exists e, encodeId id = Some e /\ decodeURIComponent e = Some id /\ ~ In 47 e.
Proof.
  intros Hwf.
  destruct (round_trip_bounded (List.length id) id (le_n _) Hwf)
    as (e & ts & He & Hu & Hd & Hn).
  exists e. unfold encodeId, decodeURIComponent. rewrite He, Hu. auto.
Qed.


Lemma plain_decodes (s : jsstring) :
  plain s = true -> decodeURIComponent s = Some s /\ ~ In 47 s.
Proof.
  unfold plain, decodeURIComponent. induction s as [ | c r IH]; cbn [forallb].
  - intros _. split; [reflexivity | intros []].
  - intros H. apply andb_true_iff in H. destruct H as [Hc Hr].
    destruct (IH Hr) as [Hd Hn]. rewrite unescape_unreserved by exact Hc.
    destruct (unescape r) as [ts | ]; [ | discriminate Hd].
    cbn [opt_map utf8_decode]. rewrite Hd. split; [reflexivity | ].
    intros [E | Hin]; [subst c; discriminate Hc | exact (Hn Hin)].
Qed.


Lemma split_on_segment (s rest : jsstring) :
  ~ In 47 s -> split_on 47 (s ++ 47 :: rest) = s :: split_on 47 rest.
Proof.
  induction s as [ | c s IH]; intros Hn; cbn [app split_on].
  - reflexivity.
  - replace (c =? 47) with false
      by (symmetry; apply Z.eqb_neq; intros ->; apply Hn; left; reflexivity).
    rewrite IH by (intros H; apply Hn; right; exact H). reflexivity.
Qed.

Lemma split_on_last (s : jsstring) : ~ In 47 s -> split_on 47 s = [s].
Proof.
  induction s as [ | c s IH]; intros Hn; cbn [split_on].
  - reflexivity.
  - replace (c =? 47) with false
      by (symmetry; apply Z.eqb_neq; intros ->; apply Hn; left; reflexivity).
    rewrite IH by (intros H; apply Hn; right; exact H). reflexivity.
Qed.

Lemma build_split (s : jsstring) (segs : list jsstring) :
  exists tail,
    build (s :: segs) = 47 :: tail
    /\ (Forall (fun x => ~ In 47 x) (s :: segs) -> split_on 47 tail = s :: segs).
Proof.
  revert s. induction segs as [ | t segs IH]; intros s.
  - exists s. split; [reflexivity | ].
    intros H. inversion H; subst. apply split_on_last. assumption.
  - destruct (IH t) as (tail & Hb & Hs).
    exists (s ++ 47 :: tail). split.
    + change (build (s :: t :: segs)) with (47 :: s ++ build (t :: segs)).
      rewrite Hb. reflexivity.
    + intros H. inversion H as [ | ? ? Hhead Hrest]; subst.
      rewrite split_on_segment, Hs by assumption. reflexivity.
Qed.

Lemma decode_all_cons (s d : jsstring) (segs ds : list jsstring) :
  decodeURIComponent s = Some d -> decode_all segs = Some ds ->
  decode_all (s :: segs) = Some (d :: ds).
Proof. intros H1 H2. cbn [decode_all]. rewrite H1, H2. reflexivity. Qed.

Lemma path_segments_build (es ds : list jsstring) :
  Forall2 carries es ds -> es <> [] ->
  path_segments (build es) = Some ([] :: ds).
Proof.
  intros H Hne. unfold path_segments.
  destruct es as [ | e es]; [congruence | ].
  destruct (build_split e es) as (tail & Hb & Hs).
  rewrite Hb. cbn [split_on]. replace (47 =? 47) with true by reflexivity.
  rewrite Hs.
  - apply decode_all_cons; [reflexivity | ].
    clear Hne Hb Hs. induction H as [ | x y xs ys [Hd _] _ IH]; [reflexivity | ].
    apply decode_all_cons; assumption.
  - clear Hne Hb Hs. induction H as [ | x y xs ys [_ Hn] _ IH]; constructor; assumption.
Qed.

Lemma carries_plain (s : jsstring) : plain s = true -> carries s s.
Proof. intros H. exact (plain_decodes s H). Qed.

Lemma carries_encoded (id e : jsstring) :
  well_formed id = true -> encodeId id = Some e -> carries e id.
Proof.
  intros Hwf He. destruct (encodeId_round_trip id Hwf) as (e' & He' & Hd & Hn).
  rewrite He in He'. injection He' as <-. split; assumption.
Qed.

Ltac with_ids :=
  repeat match goal with
         | H : Forall _ (_ :: _) |- _ => inversion H; subst; clear H
         | H : Forall _ [] |- _ => clear H
         end;
  repeat match goal with
         | H : well_formed ?id = true |- _ =>
             let e := fresh "e" in
             let He := fresh "He" in
             destruct (encodeId_round_trip id H) as (e & He & _);
             pose proof (carries_encoded id e H He);
             rewrite He; clear H He
         end.

(** The segments sent for the segments [r] meant. *)
Ltac sent r :=
  lazymatch r with
  | @nil _ => constr:(@nil jsstring)
  | ?d :: ?r' =>
      let es := sent r' in
      let e := lazymatch goal with
               | H : carries ?e d |- _ => e
               | _ => d
               end in
      constr:(e :: es)
  end.

Ltac segments :=
  repeat (constructor;
          [ first [ assumption
                  | apply carries_plain; first [ assumption | reflexivity ] ] | ]);
  constructor.

Lemma ids_lossless_raw {X : Type} (c : call X) :
  Forall (fun id => well_formed id = true) (escaped_ids c) ->
  (forall s, session_of c = Some s -> carries s s) ->
  lossless c.
Proof.
  intros Hids Hsession. unfold lossless.
  destruct c; cbn [escaped_ids session_of] in *;
    try (specialize (Hsession _ eq_refl));
    cbn [http]; with_ids; cbn [mbind option_bind];
    eexists; (split; [reflexivity | ]); cbn [rq_url mk mk_params mk_body route];
    match goal with
    | |- path_segments ?u = Some ([] :: ?r) =>
        let es := sent r in
        change u with (build es)
    end;
    (apply path_segments_build; [segments | discriminate]).
Qed.

Lemma ids_lossless {X : Type} (c : call X) :
  Forall (fun id => well_formed id = true) (escaped_ids c) ->
  (forall s, session_of c = Some s -> plain s = true) ->
  lossless c.
Proof.
  intros Hids Hsession. apply ids_lossless_raw; [exact Hids | ].
  intros s Hs. apply carries_plain. exact (Hsession s Hs).
Qed.



Lemma utf16_encode_short (cp : Z) : cp < 0x10000 -> utf16_encode cp = [cp].
Proof. intros H. unfold utf16_encode. apply Z.ltb_lt in H. rewrite H. reflexivity. Qed.











End UriFacts.


Example session_id_with_percent :
  option_map rq_url (http (getSnapshots (lit "%41"))) = Some (lit "/review/sessions/%41/snapshots")
  /\ decodeURIComponent (lit "%41") = Some (lit "A").
Proof. split; reflexivity. Qed.

(** A session id with a reserved character other than ['/'] and ['%']
    reads back. *)
Example session_id_with_colon :
  plain (lit "a:b") = false /\ lossless (getSnapshots (lit "a:b")).
Proof.
  split; [reflexivity | ].
  eexists. split; [reflexivity | reflexivity].
Qed.

(** Two different operations on different sessions, one request. *)
Example session_id_collision :
  http (clearSession (lit "x/snapshots/y")) = http (approveSnapshot (lit "x") (lit "y")).
Proof. reflexivity. Qed.

Example chapter_name_with_reserved_characters :
  let name := lit "50% off/on sale" ++ [0x4E2D; 0xD83D; 0xDE00] in
  well_formed name = true
  /\ encodeId name = Some (lit "50%25%20off%2Fon%20sale%E4%B8%AD%F0%9F%98%80")
  /\ option_map (fun rq => path_segments (rq_url rq))
       (http (getChapter (lit "char_1") (lit "char_2") name))
     = Some (Some [[]; lit "edges"; lit "relay"; lit "char_1"; lit "char_2"; name]).
Proof. repeat split. Qed.

Example lone_surrogate_is_refused :
  encodeId [0xD800] = None /\ http (getState [0xD800]) = None.
Proof. split; reflexivity. Qed.

(* ===================================================================== *)
(** * Further properties of the request layer and of the pages            *)
(* ===================================================================== *)

(** ** Escaped identifiers *)

Lemma hex_digit_unreserved (d : Z) : 0 <= d < 16 -> is_unreserved (hex_digit d) = true.
Proof.
  intros H.
  assert (E : d = 0 \/ d = 1 \/ d = 2 \/ d = 3 \/ d = 4 \/ d = 5 \/ d = 6 \/ d = 7
              \/ d = 8 \/ d = 9 \/ d = 10 \/ d = 11 \/ d = 12 \/ d = 13 \/ d = 14
              \/ d = 15) by lia.
  repeat (destruct E as [-> | E]; [reflexivity | ]). subst d. reflexivity.
Qed.

Lemma escape_segment_safe (cp : Z) :
  0 <= cp <= 0x10FFFF -> Forall (fun u => is_unreserved u = true \/ u = 37) (escape_code_point cp).
Proof.
  intros H. unfold escape_code_point.
  pose proof (utf8_encode_bytes cp H) as Hb.
  induction Hb as [ | b bs Hb _ IH]; cbn [List.map List.concat]; [constructor | ].
  apply Forall_app. split; [ | exact IH].
  unfold is_byte in Hb. unfold pct.
  constructor; [right; reflexivity | ].
  constructor; [left; apply hex_digit_unreserved; Z.div_mod_to_equations; lia | ].
  constructor; [left; apply hex_digit_unreserved; Z.div_mod_to_equations; lia | ].
  constructor.
Qed.

Lemma surrogate_not_unreserved (c : Z) :
  is_unreserved c = true -> is_high_surrogate c = false /\ is_low_surrogate c = false.
Proof.
  intros Eu. unfold is_high_surrogate, is_low_surrogate.
  assert (c < 128).
  { unfold is_unreserved, is_alnum in Eu.
    repeat match type of Eu with
           | (_ || _) = true => apply orb_true_iff in Eu; destruct Eu as [Eu | Eu]
           | (_ && _) = true => apply andb_true_iff in Eu; destruct Eu as [? Eu]
           | (_ <=? _) = true => apply Z.leb_le in Eu
           | (_ =? _) = true => apply Z.eqb_eq in Eu
           end; lia. }
  split; apply andb_false_iff; left; apply Z.leb_gt; lia.
Qed.

Lemma encode_segment_safe_bounded (n : nat) (s e : jsstring) :
  (List.length s <= n)%nat -> well_formed s = true ->
  encodeURIComponent s = Some e -> Forall (fun u => is_unreserved u = true \/ u = 37) e.
Proof.
  revert s e. induction n as [ | n IH]; intros s e Hlen Hwf He.
  - destruct s; [ | simpl in Hlen; lia]. injection He as <-. constructor.
  - destruct s as [ | c r]; [injection He as <-; constructor | ].
    cbn [well_formed] in Hwf. apply andb_true_iff in Hwf. destruct Hwf as [Hc Hwf].
    unfold is_code_unit in Hc. apply andb_true_iff in Hc. destruct Hc as [Hc0 Hc1].
    apply Z.leb_le in Hc0. apply Z.ltb_lt in Hc1.
    cbn [encodeURIComponent] in He.
    destruct (is_unreserved c) eqn:Eu.
    + destruct (surrogate_not_unreserved c Eu) as [Hh _]. rewrite Hh in Hwf.
      apply andb_true_iff in Hwf. destruct Hwf as [_ Hwf].
      destruct (encodeURIComponent r) as [e' | ] eqn:Er; [ | discriminate He].
      injection He as <-. constructor; [left; exact Eu | ].
      apply (IH r e'); [simpl in Hlen; lia | exact Hwf | exact Er].
    + destruct (is_high_surrogate c) eqn:Eh.
      * destruct r as [ | d r']; [discriminate Hwf | ].
        apply andb_true_iff in Hwf. destruct Hwf as [El Hwf]. rewrite El in He.
        destruct (encodeURIComponent r') as [e' | ] eqn:Er; [ | discriminate He].
        injection He as <-. apply Forall_app. split.
        -- apply escape_segment_safe.
           destruct (utf16_encode_pair c d Eh El) as [_ [Hs _]]. exact Hs.
        -- apply (IH r' e'); [simpl in Hlen; lia | exact Hwf | exact Er].
      * cbn [negb] in Hwf. apply andb_true_iff in Hwf. destruct Hwf as [El Hwf].
        apply negb_true_iff in El. rewrite El in He.
        destruct (encodeURIComponent r) as [e' | ] eqn:Er; [ | discriminate He].
        injection He as <-. apply Forall_app. split.
        -- apply escape_segment_safe. lia.
        -- apply (IH r e'); [simpl in Hlen; lia | exact Hwf | exact Er].
Qed.

(** X1.  The escaped form of an identifier is made of unreserved characters and
    ['%'] only: none of ['/'], ['?'], ['#'], ['&'], a space or a non-ASCII
    character can end or split the path segment it stands in. *)
Theorem encodeId_output_is_segment_safe (id e : jsstring) :
  well_formed id = true ->
  encodeId id = Some e ->
  Forall (fun u => is_unreserved u = true \/ u = 37) e
  /\ ~ In 47 e /\ ~ In 63 e /\ ~ In 35 e /\ ~ In 38 e /\ ~ In 32 e
  /\ Forall (fun u => 0 <= u < 128) e.
Proof.
  intros Hwf He.
  assert (H : Forall (fun u => is_unreserved u = true \/ u = 37) e)
    by exact (encode_segment_safe_bounded (List.length id) id e (le_n _) Hwf He).
  split; [exact H | ].
  assert (Hno : forall u, is_unreserved u = false -> u <> 37 -> ~ In u e).
  { intros u Hu Hne Hin. rewrite List.Forall_forall in H.
    destruct (H u Hin) as [Hs | Hs]; congruence. }
  repeat split; try (apply Hno; [reflexivity | discriminate]).
  rewrite List.Forall_forall in *. intros u Hin.
  destruct (H u Hin) as [Hs | ->]; [ | lia].
  destruct (surrogate_not_unreserved u Hs) as [_ _].
  unfold is_unreserved, is_alnum in Hs.
  repeat match type of Hs with
         | (_ || _) = true => apply orb_true_iff in Hs; destruct Hs as [Hs | Hs]
         | (_ && _) = true => apply andb_true_iff in Hs; destruct Hs as [? Hs]
         | (_ <=? _) = true => apply Z.leb_le in Hs
         | (_ =? _) = true => apply Z.eqb_eq in Hs
         end;
    repeat match goal with H : (_ <=? _) = true |- _ => apply Z.leb_le in H end; lia.
Qed.

Lemma encodeId_output_is_segment_safe_witness :
  let id := lit "a b/c?" ++ [0x4E2D] in
  let e := lit "a%20b%2Fc%3F%E4%B8%AD" in
  Forall (fun u => is_unreserved u = true \/ u = 37) e
  /\ ~ In 47 e /\ ~ In 63 e /\ ~ In 35 e /\ ~ In 38 e /\ ~ In 32 e
  /\ Forall (fun u => 0 <= u < 128) e.
Proof.
  intros id e.
  apply (encodeId_output_is_segment_safe id e); reflexivity.
Defined.

(** ** Plain identifiers *)

Lemma plain_encodes (s : jsstring) : plain s = true -> encodeURIComponent s = Some s.
Proof.
  unfold plain. induction s as [ | c r IH]; cbn [forallb encodeURIComponent].
  - reflexivity.
  - intros H. apply andb_true_iff in H. destruct H as [Hc Hr].
    rewrite Hc, (IH Hr). reflexivity.
Qed.

Lemma utf8_encode_length (cp : Z) : (1 <= List.length (utf8_encode cp))%nat.
Proof.
  unfold utf8_encode.
  destruct (cp <? 0x80); [simpl; lia | ].
  destruct (cp <? 0x800); [simpl; lia | ].
  destruct (cp <? 0x10000); simpl; lia.
Qed.

Lemma escape_length (cp : Z) :
  List.length (escape_code_point cp) = (3 * List.length (utf8_encode cp))%nat.
Proof.
  unfold escape_code_point. induction (utf8_encode cp) as [ | b bs IH]; [reflexivity | ].
  cbn [List.map List.concat]. rewrite List.length_app, IH. simpl. lia.
Qed.

(** Escaping never shortens, and keeps the length only of a plain string,
    which it leaves as it is. *)
Lemma encode_length_bounded (n : nat) (s e : jsstring) :
  (List.length s <= n)%nat ->
  encodeURIComponent s = Some e ->
  (plain s = true /\ e = s) \/ (List.length s < List.length e)%nat.
Proof.
  revert s e. induction n as [ | n IH]; intros s e Hlen He.
  - destruct s; [ | simpl in Hlen; lia]. injection He as <-. left. auto.
  - destruct s as [ | c r]; [injection He as <-; left; auto | ].
    cbn [encodeURIComponent] in He.
    destruct (is_unreserved c) eqn:Eu.
    + destruct (encodeURIComponent r) as [e' | ] eqn:Er; [ | discriminate He].
      injection He as <-.
      destruct (IH r e') as [[Hp ->] | Hl]; [simpl in Hlen; lia | exact Er | | ].
      * left. unfold plain in *. cbn [forallb]. rewrite Eu, Hp. auto.
      * right. simpl. lia.
    + right. destruct (is_high_surrogate c).
      * destruct r as [ | d r']; [discriminate He | ].
        destruct (is_low_surrogate d); [ | discriminate He].
        destruct (encodeURIComponent r') as [e' | ] eqn:Er; [ | discriminate He].
        injection He as <-.
        assert (List.length r' <= List.length e')%nat.
        { destruct (IH r' e') as [[_ ->] | Hl]; [simpl in Hlen; lia | exact Er | | ]; lia. }
        rewrite List.length_app, escape_length.
        pose proof (utf8_encode_length (pair_to_code_point c d)). simpl. lia.
      * destruct (is_low_surrogate c); [discriminate He | ].
        destruct (encodeURIComponent r) as [e' | ] eqn:Er; [ | discriminate He].
        injection He as <-.
        assert (List.length r <= List.length e')%nat.
        { destruct (IH r e') as [[_ ->] | Hl]; [simpl in Hlen; lia | exact Er | | ]; lia. }
        rewrite List.length_app, escape_length.
        pose proof (utf8_encode_length c). simpl. lia.
Qed.

(** X2.  An identifier is sent exactly as typed if and only if it is made of
    unreserved characters only; every other identifier that can be
    escaped grows: its escaped form is strictly longer. *)
Theorem encodeId_identity_iff_plain (id : jsstring) :
  (encodeId id = Some id <-> plain id = true)
  /\ (forall e, encodeId id = Some e -> plain id = false ->
        (List.length id < List.length e)%nat).
Proof.
  split; [split | ].
  - intros He.
    destruct (encode_length_bounded (List.length id) id id (le_n _) He) as [[Hp _] | Hl];
      [exact Hp | lia].
  - apply plain_encodes.
  - intros e He Hp.
    destruct (encode_length_bounded (List.length id) id e (le_n _) He) as [[Hp' _] | Hl];
      [congruence | exact Hl].
Qed.


(** ** One request, one operation *)

Ltac built H :=
  cbn [http] in H;
  repeat match type of H with
         | context [encodeId ?i] => destruct (encodeId i)
         end;
  cbn [mbind option_bind] in H;
  first [discriminate H | injection H as <-].

(** X3.  Two calls whose requests have the same method and the same URL are
    calls of the same function with the same identifiers in the path,
    provided the identifiers are fit for the path (well-formed where they
    are escaped, plain for the session).  (For a session id with a ['/']
    this fails: see [session_id_collision].) *)
Theorem same_method_and_url_same_operation {X Y : Type}
    (c : call X) (d : call Y) (rc rd : request) :
  path_ready c -> path_ready d ->
  http c = Some rc -> http d = Some rd ->
  rq_method rc = rq_method rd -> rq_url rc = rq_url rd ->
  endpoint_of c = endpoint_of d /\ route c = route d.
Proof.
  intros [Hc1 Hc2] [Hd1 Hd2] Hc Hd Hm Hu.
  assert (Hr : route c = route d).
  { destruct (ids_lossless c Hc1 Hc2) as (rc' & Hc' & Hpc).
    destruct (ids_lossless d Hd1 Hd2) as (rd' & Hd' & Hpd).
    rewrite Hc in Hc'. injection Hc' as <-. rewrite Hd in Hd'. injection Hd' as <-.
    rewrite Hu in Hpc. rewrite Hpc in Hpd. injection Hpd as E. exact E. }
  split; [ | exact Hr].
  clear Hc1 Hc2 Hd1 Hd2 Hu.
  destruct c; destruct d; try reflexivity; exfalso;
    cbv in Hr; try discriminate Hr;
    built Hc; built Hd; discriminate Hm.
Qed.

Lemma same_method_and_url_same_operation_witness :
  endpoint_of (deleteState (lit "a/b")) = endpoint_of (deleteState (lit "a/b"))
  /\ route (deleteState (lit "a/b")) = route (deleteState (lit "a/b")).
Proof.
  apply (same_method_and_url_same_operation
           (deleteState (lit "a/b")) (deleteState (lit "a/b"))
           (mk DELETE (lit "/nodes/states/a%2Fb")) (mk DELETE (lit "/nodes/states/a%2Fb")));
    try reflexivity;
    (split; [repeat constructor | intros s Hs; discriminate Hs]).
Defined.

(** ** Edit requests *)

(** X4.  Every edit request names its task: the [task_description] of the
    body is the caller's description when that is a non-empty string, and
    the default ["Salem edited via frontend"] otherwise (no description,
    [null], or the empty string), so it is never empty; [new_content] is
    the content passed, as it is; and the request has no query
    parameters. *)
Theorem update_requests_carry_task_description {X : Type} (c : call X) (rq : request) :
  is_update c = true ->
  http c = Some rq ->
  (exists t, body_field "task_description" (rq_body rq) = Some (VStr t)
             /\ t <> []
             /\ t = match task_argument c with
                    | Str (u :: d) => u :: d
                    | _ => lit "Salem edited via frontend"
                    end)
  /\ body_field "new_content" (rq_body rq) = Some (VStr (content_argument c))
  /\ rq_params rq = [].
Proof.
  intros Hu Hrq.
  destruct c; try discriminate Hu; built Hrq;
    cbn [rq_body rq_params mk_body body_field field String.eqb Ascii.eqb Bool.eqb
         task_argument content_argument];
    (split; [ | split; reflexivity]);
    unfold task_or_default;
    destruct taskDescription as [ | | [ | u t]]; cbn;
      eexists; (split; [reflexivity | split; [discriminate | reflexivity]]).
Qed.

Lemma update_requests_carry_task_description_witness :
  let c := updateChapter (lit "a") (lit "b") (lit "c d") (lit "text")
             (Str (lit "fix typo")) in
  let rq := mk_body PUT (lit "/edges/chapter/a/b/c%20d")
              [field "new_content" (VStr (lit "text"));
               field "task_description" (VStr (lit "fix typo"))] in
  (exists t, body_field "task_description" (rq_body rq) = Some (VStr t)
             /\ t <> []
             /\ t = match task_argument c with
                    | Str (u :: d) => u :: d
                    | _ => lit "Salem edited via frontend"
                    end)
  /\ body_field "new_content" (rq_body rq) = Some (VStr (content_argument c))
  /\ rq_params rq = [].
Proof.
  intros c rq.
  apply (update_requests_carry_task_description c rq); reflexivity.
Defined.

(** ** White space *)

Lemma trim_start_nil_iff (s : jsstring) :
  trim_start s = [] <-> forallb is_white_space s = true.
Proof.
  induction s as [ | u r IH]; cbn [trim_start forallb].
  - tauto.
  - destruct (is_white_space u); cbn [andb].
    + exact IH.
    + split; discriminate.
Qed.

Lemma trim_start_head (s r : jsstring) (u : Z) :
  trim_start s = u :: r -> is_white_space u = false.
Proof.
  induction s as [ | v t IH]; cbn [trim_start]; [discriminate | ].
  destruct (is_white_space v) eqn:E; [exact IH | ].
  intros [= <- _]. exact E.
Qed.

Lemma trim_start_snoc (l : jsstring) (u : Z) :
  is_white_space u = false -> exists l', trim_start (l ++ [u]) = l' ++ [u].
Proof.
  intros Hu. induction l as [ | v t IH]; cbn [app trim_start].
  - rewrite Hu. exists []. reflexivity.
  - destruct (is_white_space v); [exact IH | ].
    exists (v :: t). reflexivity.
Qed.

Lemma trim_blank_iff (s : jsstring) :
  str_truthy (trim s) = false <-> forallb is_white_space s = true.
Proof.
  rewrite <- trim_start_nil_iff. unfold trim, trim_end.
  destruct (trim_start s) as [ | u r] eqn:E.
  - split; reflexivity.
  - pose proof (trim_start_head s r u E) as Hu.
    cbn [rev]. destruct (trim_start_snoc (rev r) u Hu) as [l' ->].
    rewrite rev_app_distr. cbn. split; discriminate.
Qed.

Lemma trim_ends (s : jsstring) (u : Z) :
  (hd_error (trim s) = Some u -> is_white_space u = false)
  /\ (hd_error (rev (trim s)) = Some u -> is_white_space u = false).
Proof.
  unfold trim, trim_end. split.
  - destruct (trim_start s) as [ | v r] eqn:E; [discriminate | ].
    pose proof (trim_start_head s r v E) as Hv.
    cbn [rev]. destruct (trim_start_snoc (rev r) v Hv) as [l' ->].
    rewrite rev_app_distr. cbn. intros [= <-]. exact Hv.
  - rewrite rev_involutive.
    destruct (trim_start (rev (trim_start s))) as [ | v r] eqn:E; [discriminate | ].
    cbn. intros [= <-]. exact (trim_start_head _ _ _ E).
Qed.

(** ** EntityDetail: children *)

(** X5.  Adding a child.  When the id typed is empty or only white space, the
    handler shows an alert and does nothing else.  Otherwise it sends
    exactly one request, [linkParent] for this entity with the id trimmed:
    the id sent is not empty and neither starts nor ends with white space;
    and whatever the server answers, the form is no longer marked busy. *)
Theorem handleAddChild_links_trimmed_id
  (B : Type) (serve : forall X, call X -> B -> result X * B)
  (entityId : jsstring) (pg : EntityDetail.page) (w : world B EntityDetail.page) :
  let w' := run serve (EntityDetail.handleAddChild entityId pg) w in
  let id := trim (EntityDetail.newChildId pg) in
  if forallb is_white_space (EntityDetail.newChildId pg)
  then refused [EAlert EntityDetail.no_child_id_message] w w'
  else (exists ok, List.filter is_call_entry (fresh_log w w')
                   = [ECall (linkParent id entityId) ok])
       /\ id <> []
       /\ (forall u, hd_error id = Some u -> is_white_space u = false)
       /\ (forall u, hd_error (rev id) = Some u -> is_white_space u = false)
       /\ EntityDetail.addingChild (ui w') = false.
Proof.
  intros w' id. subst w' id. unfold EntityDetail.handleAddChild.
  pose proof (trim_blank_iff (EntityDetail.newChildId pg)) as Hb.
  destruct (forallb is_white_space (EntityDetail.newChildId pg)).
  - rewrite (proj2 Hb eq_refl). simpl.
    repeat split. apply fresh_log_app. reflexivity.
  - destruct (str_truthy (trim (EntityDetail.newChildId pg))) eqn:Et;
      [ | discriminate (proj1 Hb eq_refl)].
    simpl.
    match goal with |- context [serve unit ?c ?b] =>
      destruct (serve unit c b) as [r b'] end.
    split; [ | split; [ | split; [ | split]]].
    + exists (is_ok r).
      destruct r as [u | err]; simpl;
        (erewrite fresh_log_app by (simpl; rewrite <- ?app_assoc; reflexivity));
        reflexivity.
    + intros E. rewrite E in Et. discriminate Et.
    + intros u. apply trim_ends.
    + intros u. apply trim_ends.
    + destruct r as [u | err]; reflexivity.
Qed.

(** ** EntityDetail: dialogs *)

(** X6.  Nothing is deleted or unlinked without a confirmation: when the
    dialog is cancelled (or the handler stops before it), "Delete state"
    and the unlinking of a child send no request and leave the page, the
    server and the detached tasks as they were. *)
Theorem EntityDetail_cancelled_dialog_changes_nothing
  (B : Type) (serve : forall X, call X -> B -> result X * B) (entityId : jsstring) :
  (forall st (w : world B EntityDetail.state),
      next_answer w = false ->
      exists shown,
        refused shown w (run serve (EntityDetail.handleDeleteState entityId st) w))
  /\ (forall pg childId childName (w : world B EntityDetail.page),
        next_answer w = false ->
        exists shown,
          refused shown w
            (run serve (EntityDetail.handleUnlinkChild entityId pg childId childName) w)).
Proof.
  split.
  - intros st w Ha. unfold EntityDetail.handleDeleteState.
    destruct (jsopt_truthy (EntityDetail.selectedStateId st)); simpl.
    + destruct (EntityDetail.in_count_positive (EntityDetail.stateStats st)); simpl.
      * eexists. split; [apply fresh_log_app; reflexivity | repeat split].
      * rewrite Ha. simpl.
        eexists. split; [apply fresh_log_app; reflexivity | repeat split].
    + exists []. split; [apply fresh_log_app; symmetry; apply app_nil_r | repeat split].
  - intros pg childId childName w Ha. simpl. rewrite Ha. simpl.
    eexists. split; [apply fresh_log_app; reflexivity | repeat split].
Qed.

Example handleUnlinkChild_cancelled :
  let pg := EntityDetail.initial_page (lit "char_1") in
  log (run offline (EntityDetail.handleUnlinkChild (lit "char_1") pg (lit "char_2") (lit "Bob"))
         (mount pg tt [false]))
  = [EConfirm (lit "Remove " ++ [34] ++ lit "Bob" ++ [34]
               ++ lit " from children of this entity?") false].
Proof. reflexivity. Qed.

(** ** EntityDetail: replies that arrive late *)

Section Suspension.
Context {B S : Type}.
Variable serve : forall X, call X -> B -> result X * B.

(** Running a task to its first [await] and then running what is left is
    running the task. *)
Lemma run_until_await (p : prog S) (w : world B S) :
  run serve (snd (until_await p w)) (fst (until_await p w)) = run serve p w.
Proof.
  revert w. induction p as [ | m k IH | m k IH | k IH | t k IH | f k IH
                           | k IH | X c k IH | t _ k IH ]; intros w; cbn;
    try reflexivity; apply IH.
Qed.

(** The reply to a suspended task brings it to its next [await]; running
    on from there is running the suspended task. *)
Lemma run_resume (p : prog S) (w : world B S) :
  run serve (snd (resume serve p w)) (fst (resume serve p w)) = run serve p w.
Proof.
  destruct p; cbn [resume]; try apply run_until_await.
  cbn [run]. destruct (serve X c (backend w)) as [r b]. apply run_until_await.
Qed.

End Suspension.

Section Replies.
Context {B : Type}.
Variable serve : forall X, call X -> B -> result X * B.

Lemma loadStateDetails_suspends (stateId : jsstring) (w : world B EntityDetail.state) :
  exists k,
    until_await (EntityDetail.loadStateDetails stateId) w
    = (with_ui (fun s => EntityDetail.setStateStats None
                           (EntityDetail.setContentError Null
                              (EntityDetail.setStateRequestRef
                                 (EntityDetail.stateRequestRef (ui w) + 1) s))) w,
       Await (getState stateId) k)
    /\ (forall w2,
          EntityDetail.stateRequestRef (ui w2) <> EntityDetail.stateRequestRef (ui w) + 1 ->
          ui (run serve (Await (getState stateId) k) w2) = ui w2
          /\ pending (run serve (Await (getState stateId) k) w2) = pending w2
          /\ exists ok, fresh_log w2 (run serve (Await (getState stateId) k) w2)
                        = [ECall (getState stateId) ok])
    /\ (forall w2 d b',
          EntityDetail.stateRequestRef (ui w2) = EntityDetail.stateRequestRef (ui w) + 1 ->
          serve _ (getState stateId) (backend w2) = (Ok d, b') ->
          ui (run serve (Await (getState stateId) k) w2)
          = EntityDetail.setLoading false
              (EntityDetail.setStateStats
                 (Some {| EntityDetail.s_in_count := EntityDetail.count_or_zero (in_count d);
                          EntityDetail.s_out_count := EntityDetail.count_or_zero (out_count d) |})
                 (EntityDetail.setContentError Null
                    (EntityDetail.setCurrentContent (Some d) (ui w2))))).
Proof.
  eexists. split; [ | split].
  - unfold EntityDetail.loadStateDetails. cbn. reflexivity.
  - intros w2 Hne. apply Z.eqb_neq in Hne. rewrite Z.eqb_sym in Hne.
    cbn. destruct (serve _ (getState stateId) (backend w2)) as [r b'].
    cbn. repeat (rewrite Hne; cbn).
    split; [reflexivity | split; [reflexivity | ]].
    exists (is_ok r). apply fresh_log_app. reflexivity.
  - intros [u2 b2 a2 l2 p2] d b' He Hs. cbn in He, Hs. cbn. rewrite Hs. cbn.
    rewrite <- He, Z.eqb_refl. cbn.
    destruct u2; cbn. rewrite Z.eqb_refl. reflexivity.
Qed.


(** X7.  The version selected last is the one displayed, in whichever order the
    replies arrive.  Two selections are made one after the other, each
    suspended at its request; the reply to the first is dropped (it changes
    no cell of the page), and the page ends with the content and the
    reference counts of the second, not loading and without error. *)
Theorem loadStateDetails_last_selection_wins
  (first second : jsstring) (d : state_data) (w : world B EntityDetail.state) :
  (forall b, fst (serve _ (getState second) b) = Ok d) ->
  let s1 := until_await (EntityDetail.loadStateDetails first) w in
  let s2 := until_await (EntityDetail.loadStateDetails second) (fst s1) in
  let in_order := run serve (snd s2) (run serve (snd s1) (fst s2)) in
  let reversed := run serve (snd s1) (run serve (snd s2) (fst s2)) in
  ui (run serve (snd s1) (fst s2)) = ui (fst s2)
  /\ ui in_order = ui reversed
  /\ EntityDetail.currentContent (ui in_order) = Some d
  /\ EntityDetail.stateStats (ui in_order)
     = Some {| EntityDetail.s_in_count := EntityDetail.count_or_zero (in_count d);
               EntityDetail.s_out_count := EntityDetail.count_or_zero (out_count d) |}
  /\ EntityDetail.contentError (ui in_order) = Null
  /\ EntityDetail.loading (ui in_order) = false.
Proof.
  intros Hd s1 s2 in_order reversed. subst in_order reversed s2 s1.
  destruct (loadStateDetails_suspends first w) as (k1 & E1 & Hstale1 & _).
  rewrite E1. cbn [fst snd].
  match goal with |- context [until_await _ ?w1] =>
    destruct (loadStateDetails_suspends second w1) as (k2 & E2 & Hstale2 & Hnow2);
    rewrite E2; cbn [fst snd]
  end.
  match goal with |- context [run serve (Await (getState first) k1) ?x] =>
    set (w2 := x) in *
  end.
  assert (Href : EntityDetail.stateRequestRef (ui w2)
                 = EntityDetail.stateRequestRef (ui w) + 1 + 1).
  { subst w2. destruct w as [u b a l p]. destruct u. reflexivity. }
  assert (Href1 : EntityDetail.stateRequestRef (ui w2)
                  = EntityDetail.stateRequestRef
                      (ui (with_ui (fun s => EntityDetail.setStateStats None
                             (EntityDetail.setContentError Null
                                (EntityDetail.setStateRequestRef
                                   (EntityDetail.stateRequestRef (ui w) + 1) s))) w)) + 1).
  { rewrite Href. destruct w as [u b a l p]. destruct u. reflexivity. }
  destruct (Hstale1 w2) as (Hu1 & _); [lia | ].
  (* the second reply, on the page as the first reply left it *)
  set (w3 := run serve (Await (getState first) k1) w2) in *.
  destruct (serve _ (getState second) (backend w3)) as [r3 b3] eqn:Es3.
  pose proof (Hd (backend w3)) as Hr3. rewrite Es3 in Hr3. cbn in Hr3. subst r3.
  pose proof (Hnow2 w3 d b3) as Hin. rewrite Hu1 in Hin. specialize (Hin Href1 Es3).
  (* the second reply first, then the first *)
  destruct (serve _ (getState second) (backend w2)) as [r4 b4] eqn:Es4.
  pose proof (Hd (backend w2)) as Hr4. rewrite Es4 in Hr4. cbn in Hr4. subst r4.
  pose proof (Hnow2 w2 d b4 Href1 Es4) as Hrev.
  set (w4 := run serve (Await (getState second) k2) w2) in *.
  destruct (Hstale1 w4) as (Hu4 & _).
  { rewrite Hrev. destruct (ui w2); cbn in *. lia. }
  split; [exact Hu1 | ].
  rewrite Hin, Hu4, Hrev.
  split; [reflexivity | ].
  destruct (ui w2); repeat split.
Qed.

End Replies.

Lemma loadStateDetails_last_selection_wins_witness :
  let w := Fixture.loaded in
  let s1 := until_await (EntityDetail.loadStateDetails (lit "s1")) w in
  let s2 := until_await (EntityDetail.loadStateDetails (lit "s2")) (fst s1) in
  let in_order := run Fixture.serve (snd s2) (run Fixture.serve (snd s1) (fst s2)) in
  let reversed := run Fixture.serve (snd s1) (run Fixture.serve (snd s2) (fst s2)) in
  ui (run Fixture.serve (snd s1) (fst s2)) = ui (fst s2)
  /\ ui in_order = ui reversed
  /\ EntityDetail.currentContent (ui in_order) = Some Fixture.v2
  /\ EntityDetail.stateStats (ui in_order)
     = Some {| EntityDetail.s_in_count := EntityDetail.count_or_zero (in_count Fixture.v2);
               EntityDetail.s_out_count := EntityDetail.count_or_zero (out_count Fixture.v2) |}
  /\ EntityDetail.contentError (ui in_order) = Null
  /\ EntityDetail.loading (ui in_order) = false.
Proof.
  intros w.
  apply (loadStateDetails_last_selection_wins Fixture.serve (lit "s1") (lit "s2") Fixture.v2 w).
  intros b. reflexivity.
Defined.

Lemma str_eq_false (a b : jsstring) : str_eq a b = false <-> a <> b.
Proof.
  rewrite <- str_eq_true. destruct (str_eq a b); split; congruence.
Qed.

Section Reloads.
Context {B : Type}.
Variable serve : forall X, call X -> B -> result X * B.

(** X8.  A reply to [loadVersions] that arrives after a newer [loadVersions]
    was started, or after the page moved on to another entity, changes no
    cell of the page and detaches nothing: the request is all it leaves
    behind (and a line on the console when it failed). *)
Theorem loadVersions_ignores_stale_reply
  (entityId : jsstring) (st : EntityDetail.state)
  (w w2 : world B EntityDetail.state) :
  let s1 := until_await (EntityDetail.loadVersions entityId st) w in
  EntityDetail.versionsRequestRef (ui w2) <> EntityDetail.versionsRequestRef (ui (fst s1))
  \/ EntityDetail.entityIdRef (ui w2) <> entityId ->
  let w3 := run serve (snd s1) w2 in
  EntityDetail.versionsRequestRef (ui (fst s1)) = EntityDetail.versionsRequestRef (ui w) + 1
  /\ ui w3 = ui w2
  /\ pending w3 = pending w2
  /\ exists ok,
       fresh_log w2 w3
       = ECall (getEntityInfo entityId) ok :: (if ok then [] else [EConsoleError]).
Proof.
  intros s1 Hstale w3. subst w3 s1.
  destruct w as [u b a l p]. destruct w2 as [u2 b2 a2 l2 p2].
  unfold EntityDetail.loadVersions in *. cbn in Hstale |- *.
  assert (Hs : negb (EntityDetail.versionsRequestRef u + 1
                     =? EntityDetail.versionsRequestRef u2)
               || negb (str_eq (EntityDetail.entityIdRef u2) entityId) = true).
  { apply orb_true_iff. destruct Hstale as [H | H].
    - left. apply negb_true_iff, Z.eqb_neq. destruct u; cbn in H |- *. lia.
    - right. apply negb_true_iff, str_eq_false. exact H. }
  split; [destruct u; reflexivity | ].
  destruct (serve _ (getEntityInfo entityId) b2) as [r b'].
  destruct r as [info | err]; cbn; rewrite Hs; cbn;
    (split; [reflexivity | split; [reflexivity | ]]).
  - exists true. exact (added_since_app l2 _).
  - exists false. rewrite <- app_assoc. exact (added_since_app l2 _).
Qed.

(** X9.  When the entity's information cannot be loaded, the page shows the
    failure screen with a message that is never empty (the error's own, or
    the fallback), with no version listed and not loading: the screen
    offers the retry only. *)
Theorem loadVersions_failure_shows_error
  (entityId : jsstring) (st : EntityDetail.state) (err : error) (b' : B)
  (w : world B EntityDetail.state) :
  serve _ (getEntityInfo entityId) (backend w) = (Err err, b') ->
  EntityDetail.entityIdRef (ui w) = entityId ->
  let w' := run serve (EntityDetail.loadVersions entityId st) w in
  exists msg,
    EntityDetail.render (ui w') = EntityDetail.VersionsFailed msg
    /\ msg <> []
    /\ (message err <> [] -> msg = message err)
    /\ EntityDetail.versions (ui w') = []
    /\ EntityDetail.currentContent (ui w') = None
    /\ EntityDetail.loading (ui w') = false.
Proof.
  intros Hs Hid w'. subst w'.
  destruct w as [u b a l p]. cbn in Hs, Hid.
  unfold EntityDetail.loadVersions. cbn. rewrite Hs. cbn.
  destruct u; cbn in *. rewrite Z.eqb_refl. subst entityId. rewrite str_eq_refl. cbn.
  exists (message_or err (lit "Failed to load entity info.")).
  unfold EntityDetail.render, message_or. cbn.
  destruct (message err) as [ | c m] eqn:Em; cbn.
  - split; [reflexivity | split; [discriminate | split; [ | repeat split]]].
    intros H. exfalso. apply H. reflexivity.
  - split; [reflexivity | split; [discriminate | repeat split]].
Qed.

(** X10.  When the entity turns out to have no state (no history, or an empty
    one), the page shows the "no states" screen, and the "Delete Entity"
    button of that screen does not refuse: it asks for confirmation and,
    once confirmed, sends exactly one request, [deleteEntity] for this
    entity. *)
Theorem loadVersions_without_states_offers_delete
  (entityId : jsstring) (st : EntityDetail.state) (info : entity_info) (b' : B)
  (w w2 : world B EntityDetail.state) :
  serve _ (getEntityInfo entityId) (backend w) = (Ok info, b') ->
  or_nil (history info) = [] ->
  EntityDetail.entityIdRef (ui w) = entityId ->
  let w' := run serve (EntityDetail.loadVersions entityId st) w in
  let w3 := run serve (EntityDetail.handleDeleteEntity entityId (ui w')) w2 in
  EntityDetail.render (ui w') = EntityDetail.NoStates
  /\ EntityDetail.selectedStateId (ui w') = Null
  /\ (exists msg, hd_error (fresh_log w2 w3) = Some (EConfirm msg (next_answer w2)))
  /\ (next_answer w2 = true ->
        exists ok, List.filter is_call_entry (fresh_log w2 w3)
                   = [ECall (deleteEntity entityId) ok]).
Proof.
  intros Hs Hh Hid w'.
  assert (Hu : ui w'
               = EntityDetail.setLoading false
                   (EntityDetail.setStateStats None
                      (EntityDetail.setSelectedStateId Null
                         (EntityDetail.setContentError Null
                            (EntityDetail.setCurrentContent None
                               (EntityDetail.setChildren (or_nil (Api.children info))
                                  (EntityDetail.setOutboundEdges (or_nil (edges info))
                                     (EntityDetail.setVersions []
                                        (EntityDetail.setChildren []
                                           (EntityDetail.setOutboundEdges []
                                              (EntityDetail.setContentError Null
                                                 (EntityDetail.setVersionsError Null
                                                    (EntityDetail.setLoading true
                                                       (EntityDetail.setVersionsRequestRef
                                                          (EntityDetail.versionsRequestRef (ui w) + 1)
                                                          (ui w))))))))))))))).
  { subst w'. destruct w as [u b a l p]. cbn in Hs, Hid.
    unfold EntityDetail.loadVersions. cbn. rewrite Hs. cbn.
    destruct u; cbn in *. rewrite Z.eqb_refl. subst entityId. rewrite str_eq_refl. cbn.
    rewrite Hh.
    assert (Hhead : EntityDetail.head_state_id (history info) = Undefined).
    { destruct (history info) as [[ | v vs] | ]; cbn in Hh; try discriminate; reflexivity. }
    rewrite Hhead. cbn. reflexivity. }
  intros w3. subst w3. rewrite Hu. clear Hu w'.
  destruct (ui w); cbn.
  split; [reflexivity | split; [reflexivity | ]].
  unfold EntityDetail.handleDeleteEntity. cbn.
  destruct (next_answer w2); cbn.
  - match goal with |- context [serve unit ?c ?b] =>
      destruct (serve unit c b) as [r b''] end.
    destruct r as [u | e]; cbn;
      (erewrite fresh_log_app by (cbn; rewrite <- ?app_assoc; reflexivity));
      (split; [eexists; reflexivity | intros _; eexists; reflexivity]).
  - erewrite fresh_log_app by reflexivity.
    split; [eexists; reflexivity | discriminate].
Qed.

(** X11.  A version whose details report incoming references cannot be deleted
    from the page: once it is selected and its details have arrived, a
    click on "Delete state" only shows the alert with the number of
    references; nothing is sent and nothing changes. *)
Theorem selected_version_with_references_is_kept
  (entityId value : jsstring) (d : state_data) (n : Z) (b' : B)
  (w w2 : world B EntityDetail.state) :
  value <> [] ->
  serve _ (getState value) (backend w) = (Ok d, b') ->
  in_count d = Some n ->
  0 < n ->
  let w' := run serve (EntityDetail.selectVersion value) w in
  refused [EAlert (lit "Cannot delete this state because it has "
                   ++ num_to_string n ++ lit " incoming dependencies.")]
    w2 (run serve (EntityDetail.handleDeleteState entityId (ui w')) w2).
Proof.
  intros Hv Hs Hn Hpos w'.
  assert (Hu : EntityDetail.selectedStateId (ui w') = Str value
               /\ EntityDetail.stateStats (ui w')
                  = Some {| EntityDetail.s_in_count := n;
                            EntityDetail.s_out_count :=
                              EntityDetail.count_or_zero (out_count d) |}).
  { subst w'. destruct w as [u b a l p]. cbn in Hs.
    unfold EntityDetail.selectVersion, EntityDetail.loadStateDetails.
    destruct value as [ | c r]; [congruence | ].
    cbn. rewrite Hs. cbn. destruct u; cbn. rewrite Z.eqb_refl. cbn.
    rewrite Z.eqb_refl. cbn. rewrite Hn. split; reflexivity. }
  destruct Hu as [Hsel Hst].
  unfold EntityDetail.handleDeleteState. rewrite Hsel, Hst.
  destruct value as [ | c r]; [congruence | ].
  cbn. apply Z.ltb_lt in Hpos. rewrite Hpos. cbn.
  repeat split. apply fresh_log_app. reflexivity.
Qed.

End Reloads.

Lemma loadVersions_ignores_stale_reply_witness :
  let st := EntityDetail.initial (lit "char_1") in
  let w := mount st tt [] in
  let s1 := until_await (EntityDetail.loadVersions (lit "char_1") st) w in
  let w2 := with_ui (EntityDetail.setVersionsRequestRef 2) (fst s1) in
  let w3 := run Fixture.serve (snd s1) w2 in
  EntityDetail.versionsRequestRef (ui (fst s1)) = EntityDetail.versionsRequestRef (ui w) + 1
  /\ ui w3 = ui w2
  /\ pending w3 = pending w2
  /\ exists ok,
       fresh_log w2 w3
       = ECall (getEntityInfo (lit "char_1")) ok :: (if ok then [] else [EConsoleError]).
Proof.
  intros st w s1 w2.
  apply (loadVersions_ignores_stale_reply Fixture.serve (lit "char_1") st w w2).
  left. simpl. lia.
Defined.

Lemma loadVersions_failure_shows_error_witness :
  let st := EntityDetail.initial (lit "char_1") in
  let w' := run offline (EntityDetail.loadVersions (lit "char_1") st) (mount st tt []) in
  exists msg,
    EntityDetail.render (ui w') = EntityDetail.VersionsFailed msg
    /\ msg <> []
    /\ (message {| message := lit "Network Error"; detail := Undefined; status := None |}
        <> [] ->
        msg = message {| message := lit "Network Error"; detail := Undefined;
                         status := None |})
    /\ EntityDetail.versions (ui w') = []
    /\ EntityDetail.currentContent (ui w') = None
    /\ EntityDetail.loading (ui w') = false.
Proof.
  intros st.
  apply (loadVersions_failure_shows_error offline (lit "char_1") st
           {| message := lit "Network Error"; detail := Undefined; status := None |} tt
           (mount st tt [])); reflexivity.
Defined.

Lemma loadVersions_without_states_offers_delete_witness :
  let st := EntityDetail.initial (lit "char_1") in
  let w := mount st tt [] in
  let w2 := mount st tt [true] in
  let w' := run Fixture.serve_stateless (EntityDetail.loadVersions (lit "char_1") st) w in
  let w3 := run Fixture.serve_stateless
              (EntityDetail.handleDeleteEntity (lit "char_1") (ui w')) w2 in
  EntityDetail.render (ui w') = EntityDetail.NoStates
  /\ EntityDetail.selectedStateId (ui w') = Null
  /\ (exists msg, hd_error (fresh_log w2 w3) = Some (EConfirm msg (next_answer w2)))
  /\ (next_answer w2 = true ->
        exists ok, List.filter is_call_entry (fresh_log w2 w3)
                   = [ECall (deleteEntity (lit "char_1")) ok]).
Proof.
  intros st w w2.
  apply (loadVersions_without_states_offers_delete Fixture.serve_stateless (lit "char_1") st
           Fixture.no_states tt w w2); reflexivity.
Defined.

Lemma selected_version_with_references_is_kept_witness :
  let w := Fixture.loaded in
  let w' := run Fixture.serve (EntityDetail.selectVersion (lit "s2")) w in
  refused [EAlert (lit "Cannot delete this state because it has "
                   ++ num_to_string 1 ++ lit " incoming dependencies.")]
    w (run Fixture.serve (EntityDetail.handleDeleteState (lit "char_1") (ui w')) w).
Proof.
  intros w.
  apply (selected_version_with_references_is_kept Fixture.serve (lit "char_1") (lit "s2")
           Fixture.v2 1 tt w w).
  - discriminate.
  - reflexivity.
  - reflexivity.
  - lia.
Defined.

(** ** The editors: what a save sends *)


Section Saves.
Context {B : Type}.
Variable serve : forall X, call X -> B -> result X * B.

(** X12.  Opening the entity editor, typing a new content and saving without
    touching the name field.  The request carries the content exactly as
    typed (not trimmed) and no task description; its [new_name] is [null]
    when the loaded name is a string, and the empty string when the loaded
    name is [null] or missing. *)
Theorem EntityDetail_save_with_untouched_name
  (entityId typed : jsstring) (d : state_data) (w : world B EntityDetail.state) :
  EntityDetail.currentContent (ui w) = Some d ->
  str_truthy (trim typed) = true ->
  let opened := run serve (EntityDetail.startEdit (ui w)) w in
  let edited := with_ui (EntityDetail.setEditContent typed) opened in
  let saved := run serve (EntityDetail.saveEdit entityId (ui edited)) edited in
  EntityDetail.isEditing (ui opened) = true
  /\ EntityDetail.editContent (ui opened) = or_empty (content d)
  /\ exists ok,
       List.filter is_call_entry (fresh_log edited saved)
       = [ECall (updateEntity entityId typed
                   (match name d with Str _ => Null | _ => Str [] end) Null) ok].
Proof.
  intros Hc Ht opened edited saved. subst saved edited opened.
  destruct w as [u b a l p]. cbn in Hc.
  unfold EntityDetail.startEdit, EntityDetail.saveEdit.
  destruct u; cbn -[trim] in Hc |- *. subst currentContent. cbn -[trim].
  rewrite Ht. cbn.
  split; [reflexivity | split; [reflexivity | ]].
  assert (Hn : negb (strict_eq (or_empty (name d)) (name d))
               = match name d with Str _ => false | _ => true end).
  { destruct (name d) as [ | | [ | c n]]; cbn; try reflexivity.
    rewrite Z.eqb_refl, str_eq_refl. reflexivity. }
  rewrite Hn.
  match goal with |- context [serve unit ?c ?b0] =>
    destruct (serve unit c b0) as [r b'] end.
  exists (is_ok r).
  destruct (name d) as [ | | n]; destruct r as [x | e]; cbn;
    rewrite <- ?app_assoc, skipn_log; reflexivity.
Qed.

End Saves.

Lemma EntityDetail_save_with_untouched_name_witness :
  let w := Fixture.loaded in
  let opened := run Fixture.serve (EntityDetail.startEdit (ui w)) w in
  let edited := with_ui (EntityDetail.setEditContent (lit " C ")) opened in
  let saved := run Fixture.serve (EntityDetail.saveEdit (lit "char_1") (ui edited)) edited in
  EntityDetail.isEditing (ui opened) = true
  /\ EntityDetail.editContent (ui opened) = or_empty (content Fixture.v2)
  /\ exists ok,
       List.filter is_call_entry (fresh_log edited saved)
       = [ECall (updateEntity (lit "char_1") (lit " C ")
                   (match name Fixture.v2 with Str _ => Null | _ => Str [] end) Null) ok].
Proof.
  intros w.
  apply (EntityDetail_save_with_untouched_name Fixture.serve (lit "char_1") (lit " C ")
           Fixture.v2 w); reflexivity.
Defined.

Section RelationSaves.
Context {B : Type}.
Variable serve : forall X, call X -> B -> result X * B.

(** X13.  The same in the relationship editor: saving with the relation field
    untouched sends the content as typed, no task description, and a
    [new_relation] that is [null] when the loaded relation is a string and
    the empty string when there is no direct edge or its relation is
    [null] or missing. *)
Theorem RelationDetail_save_with_untouched_relation
  (viewerId targetId typed : jsstring) (w : world B RelationDetail.state) :
  str_truthy (trim typed) = true ->
  let opened := run serve (RelationDetail.startEdit (ui w)) w in
  let edited := with_ui (RelationDetail.setEditContent typed) opened in
  let saved := run serve (RelationDetail.saveEdit viewerId targetId (ui edited)) edited in
  let loaded := RelationDetail.direct_relation (RelationDetail.data (ui w)) in
  RelationDetail.isEditing (ui opened) = true
  /\ RelationDetail.editRelation (ui opened) = or_empty loaded
  /\ exists ok,
       List.filter is_call_entry (fresh_log edited saved)
       = [ECall (updateDirectEdge viewerId targetId typed
                   (match loaded with Str _ => Null | _ => Str [] end) Null) ok].
Proof.
  intros Ht opened edited saved loaded. subst loaded saved edited opened.
  destruct w as [u b a l p].
  unfold RelationDetail.startEdit, RelationDetail.saveEdit.
  destruct u as [da lo ie ec er sv]. cbn -[trim RelationDetail.direct_relation].
  rewrite Ht. cbn -[RelationDetail.direct_relation].
  split; [reflexivity | split; [reflexivity | ]].
  set (loaded := RelationDetail.direct_relation da).
  assert (Hn : negb (strict_eq (or_empty loaded) loaded)
               = match loaded with Str _ => false | _ => true end).
  { destruct loaded as [ | | [ | c n]]; cbn; try reflexivity.
    rewrite Z.eqb_refl, str_eq_refl. reflexivity. }
  rewrite Hn.
  match goal with |- context [serve unit ?c ?b0] =>
    destruct (serve unit c b0) as [r b'] end.
  exists (is_ok r).
  destruct loaded as [ | | n]; destruct r as [x | e]; cbn;
    rewrite <- ?app_assoc, skipn_log; reflexivity.
Qed.

End RelationSaves.

Lemma RelationDetail_save_with_untouched_relation_witness :
  let w := mount RelationDetail.initial tt [] in
  let opened := run offline (RelationDetail.startEdit (ui w)) w in
  let edited := with_ui (RelationDetail.setEditContent (lit "met in spring")) opened in
  let saved := run offline (RelationDetail.saveEdit (lit "a") (lit "b") (ui edited)) edited in
  let loaded := RelationDetail.direct_relation (RelationDetail.data (ui w)) in
  RelationDetail.isEditing (ui opened) = true
  /\ RelationDetail.editRelation (ui opened) = or_empty loaded
  /\ exists ok,
       List.filter is_call_entry (fresh_log edited saved)
       = [ECall (updateDirectEdge (lit "a") (lit "b") (lit "met in spring")
                   (match loaded with Str _ => Null | _ => Str [] end) Null) ok].
Proof.
  intros w.
  apply (RelationDetail_save_with_untouched_relation offline (lit "a") (lit "b")
           (lit "met in spring") w).
  reflexivity.
Defined.

(** ** RelationDetail and ChapterDetail: deleting *)

Section Deletes.
Context {B : Type}.
Variable serve : forall X, call X -> B -> result X * B.

(** X14.  Deleting a relationship: the page is left (for the viewer's entity
    page) if and only if the delete request was sent and succeeded; a
    cancelled dialog sends nothing, and in no case does the handler touch
    the component's state. *)
Theorem RelationDetail_handleDelete_leaves_iff_deleted
  (viewerId targetId : jsstring) (w : world B RelationDetail.state) :
  let w' := run serve (RelationDetail.handleDelete viewerId targetId) w in
  ((exists path, In (ENavigate path) (fresh_log w w'))
   <-> In (ECall (deleteDirectEdge viewerId targetId) true) (fresh_log w w'))
  /\ (forall path, In (ENavigate path) (fresh_log w w') ->
        path = lit "/memory/entity/" ++ viewerId)
  /\ (next_answer w = false -> call_count (fresh_log w w') = 0%nat)
  /\ (call_count (fresh_log w w') <= 1)%nat
  /\ ui w' = ui w.
Proof.
  intros w'. subst w'. destruct w as [u b a l p].
  unfold RelationDetail.handleDelete, fresh_log.
  destruct a as [ | [ | ] a']; cbn.
  2: { match goal with |- context [serve unit ?c ?b0] =>
         destruct (serve unit c b0) as [r b'] end.
       destruct r as [x | e]; cbn; rewrite <- ?app_assoc, skipn_log; cbn.
       - split; [split | split; [ | split; [discriminate | split; [lia | reflexivity]]]].
         + intros _. right. left. reflexivity.
         + intros _. eexists. right. right. left. reflexivity.
         + intros path [H | [H | [H | []]]]; try discriminate H.
           injection H as <-. reflexivity.
       - split; [split | split; [ | split; [discriminate | split; [lia | reflexivity]]]].
         + intros [path [H | [H | [H | [H | []]]]]]; discriminate H.
         + intros [H | [H | [H | [H | []]]]]; discriminate H.
         + intros path [H | [H | [H | [H | []]]]]; discriminate H. }
  all: rewrite skipn_log; cbn;
    (split; [split | split; [ | split; [reflexivity | split; [lia | reflexivity]]]]);
    [ intros [path [H | []]]; discriminate H
    | intros [H | []]; discriminate H
    | intros path [H | []]; discriminate H ].
Qed.

End Deletes.

Section ChapterDeletes.
Context {B : Type}.
Variable serve : forall X, call X -> B -> result X * B.

(** X15.  Deleting a chapter.  Without a resolved edge id nothing is sent, even
    when the dialog is confirmed: the handler alerts that the edge id is
    missing.  The page is left if and only if the delete request for the
    resolved edge was sent and succeeded; a cancelled dialog sends
    nothing, and in no case does the handler touch the component's
    state. *)
Theorem ChapterDetail_handleDelete_needs_edge_id
  (p : ChapterDetail.params) (st : ChapterDetail.state) (w : world B ChapterDetail.state) :
  let w' := run serve (ChapterDetail.handleDelete p st) w in
  let edge := or_empty (ChapterDetail.resolvedEdgeId st) in
  (edge = [] ->
     call_count (fresh_log w w') = 0%nat
     /\ (next_answer w = true ->
           In (EAlert (lit "Cannot delete: Missing edge ID information.")) (fresh_log w w')))
  /\ ((exists path, In (ENavigate path) (fresh_log w w'))
      <-> In (ECall (deleteRelayEdge edge) true) (fresh_log w w'))
  /\ (next_answer w = false -> call_count (fresh_log w w') = 0%nat)
  /\ (call_count (fresh_log w w') <= 1)%nat
  /\ ui w' = ui w.
Proof.
  intros w' edge. subst w' edge. destruct w as [u b a l p0].
  unfold ChapterDetail.handleDelete, fresh_log.
  assert (He : or_empty (ChapterDetail.resolvedEdgeId st) = [] <->
               jsopt_truthy (ChapterDetail.resolvedEdgeId st) = false).
  { destruct (ChapterDetail.resolvedEdgeId st) as [ | | [ | c r]]; cbn;
      split; congruence. }
  destruct a as [ | [ | ] a']; cbn.
  2: { destruct (jsopt_truthy (ChapterDetail.resolvedEdgeId st)) eqn:Et; cbn.
       - match goal with |- context [serve unit ?c ?b0] =>
           destruct (serve unit c b0) as [r b'] end.
         destruct r as [x | e]; cbn; rewrite <- ?app_assoc, skipn_log; cbn.
         + split; [intros H; apply He in H; discriminate H | ].
           split; [split | split; [discriminate | split; [lia | reflexivity]]].
           * intros _. right. left. reflexivity.
           * intros _. eexists. right. right. left. reflexivity.
         + split; [intros H; apply He in H; discriminate H | ].
           split; [split | split; [discriminate | split; [lia | reflexivity]]].
           * intros [path [H | [H | [H | [H | []]]]]]; discriminate H.
           * intros [H | [H | [H | [H | []]]]]; discriminate H.
       - rewrite <- ?app_assoc, skipn_log; cbn.
         split; [intros _; split; [reflexivity | intros _; right; left; reflexivity] | ].
         split; [split | split; [discriminate | split; [lia | reflexivity]]].
         + intros [path [H | [H | []]]]; discriminate H.
         + intros [H | [H | []]]; discriminate H. }
  all: rewrite skipn_log; cbn;
    (split; [intros _; split; [reflexivity | discriminate] | ]);
    (split; [split | split; [reflexivity | split; [lia | reflexivity]]]);
    [ intros [path [H | []]]; discriminate H
    | intros [H | []]; discriminate H ].
Qed.

End ChapterDeletes.

(** ** ChapterDetail: replies after the page was left *)

Section Unmounted.
Context {B : Type}.
Variable serve : forall X, call X -> B -> result X * B.

(** X16.  Once the component is unmounted, the replies to its loads change no
    cell of its state: neither the reply to [loadData]'s chapter request,
    nor the reply to its history request when the first reply arrived in
    time, nor the reply to [loadVersionDetails]. *)
Theorem ChapterDetail_replies_after_unmount_change_nothing
  (p : ChapterDetail.params) (stateId : jsstring)
  (w w2 : world B ChapterDetail.state) :
  ChapterDetail.mountedRef (ui w2) = false ->
  let chapter := until_await (ChapterDetail.loadData p) w in
  let history := resume serve (snd chapter) (fst chapter) in
  let details := until_await (ChapterDetail.loadVersionDetails stateId) w in
  ui (run serve (snd chapter) w2) = ui w2
  /\ ui (run serve (snd history) w2) = ui w2
  /\ ui (run serve (snd details) w2) = ui w2.
Proof.
  intros Hm chapter history details. subst chapter history details.
  destruct w as [u b a l p0]. destruct u as [rs re vs da lo ie ec sv mo].
  split; [ | split].
  - unfold ChapterDetail.loadData, ChapterDetail.if_mounted.
    destruct (negb (jsopt_truthy (ChapterDetail.viewerId p))
              || negb (jsopt_truthy (ChapterDetail.targetId p))
              || negb (jsopt_truthy (ChapterDetail.chapterName p))); cbn.
    + destruct mo; reflexivity.
    + destruct (serve _ _ (backend w2)) as [r b'].
      destruct r as [resp | e]; cbn; rewrite Hm; cbn; rewrite ?Hm; reflexivity.
  - unfold ChapterDetail.loadData, ChapterDetail.if_mounted.
    destruct (negb (jsopt_truthy (ChapterDetail.viewerId p))
              || negb (jsopt_truthy (ChapterDetail.targetId p))
              || negb (jsopt_truthy (ChapterDetail.chapterName p))); cbn.
    + destruct mo; reflexivity.
    + destruct (serve _ _ b) as [r b'].
      destruct r as [[resp | ] | e]; cbn; destruct mo; cbn; try reflexivity.
      destruct (ch_state resp) as [sd | ]; cbn; [ | reflexivity].
      destruct (jsopt_truthy (entity_id sd)); cbn; [ | reflexivity].
      destruct (serve _ _ (backend w2)) as [r2 b2].
      destruct r2 as [info | e2]; cbn; rewrite Hm; cbn; rewrite ?Hm; reflexivity.
  - unfold ChapterDetail.loadVersionDetails, ChapterDetail.if_mounted.
    destruct (str_truthy stateId); cbn; [ | reflexivity].
    destruct (serve _ _ (backend w2)) as [r b'].
    destruct r as [d | e]; cbn; rewrite ?Hm; cbn; rewrite ?Hm; reflexivity.
Qed.

End Unmounted.

Lemma ChapterDetail_replies_after_unmount_change_nothing_witness :
  let p := {| ChapterDetail.viewerId := Str (lit "char_1");
              ChapterDetail.targetId := Str (lit "char_2");
              ChapterDetail.chapterName := Str (lit "first meeting") |} in
  let w := mount ChapterDetail.initial tt [] in
  let chapter := until_await (ChapterDetail.loadData p) w in
  let w2 := run offline ChapterDetail.unmount (fst chapter) in
  let history := resume offline (snd chapter) (fst chapter) in
  let details := until_await (ChapterDetail.loadVersionDetails (lit "s1")) w in
  ui (run offline (snd chapter) w2) = ui w2
  /\ ui (run offline (snd history) w2) = ui w2
  /\ ui (run offline (snd details) w2) = ui w2.
Proof.
  intros p w chapter w2.
  apply (ChapterDetail_replies_after_unmount_change_nothing offline p (lit "s1") w w2).
  reflexivity.
Defined.

(** ** RelationDetail: the link to a chapter *)

(** X17.  The link to a chapter escapes the chapter's label (its name, or the
    relation when the name is missing or empty) and nothing else: with a
    viewer id and a target id of unreserved characters, the link read as a
    path gives back the two ids and the label, whatever characters the
    label has (short of an unpaired surrogate). *)
Theorem chapter_link_carries_label
  (viewerId targetId relation : jsstring) (name : jsopt) :
  plain viewerId = true -> plain targetId = true ->
  well_formed (RelationDetail.chapter_label name relation) = true ->
  exists link,
    RelationDetail.chapter_link viewerId targetId name relation = Some link
    /\ path_segments link
       = Some [[]; lit "memory"; lit "chapter"; viewerId; targetId;
               RelationDetail.chapter_label name relation].
Proof.
  intros Hv Ht Hl. unfold RelationDetail.chapter_link.
  destruct (encodeId_round_trip _ Hl) as (e & He & Hd & Hn).
  unfold encodeId in He. rewrite He. cbn [opt_map].
  eexists. split; [reflexivity | ].
  change (lit "/memory/chapter/" ++ viewerId ++ lit "/" ++ targetId ++ lit "/" ++ e)
      with (build [lit "memory"; lit "chapter"; viewerId; targetId; e]).
  apply path_segments_build; [ | discriminate].
  repeat (constructor;
          [ first [ apply carries_plain; first [assumption | reflexivity]
                  | split; assumption ] | ]).
  constructor.
Qed.

Lemma chapter_link_carries_label_witness :
  exists link,
    RelationDetail.chapter_link (lit "char_1") (lit "char_2") (Str (lit "a/b c")) (lit "MET")
    = Some link
    /\ path_segments link
       = Some [[]; lit "memory"; lit "chapter"; lit "char_1"; lit "char_2";
               RelationDetail.chapter_label (Str (lit "a/b c")) (lit "MET")].
Proof.
  apply (chapter_link_carries_label (lit "char_1") (lit "char_2") (lit "MET")
           (Str (lit "a/b c"))); reflexivity.
Defined.

(** ** MaintenancePage: the selection *)

Lemma str_eq_sym (a b : jsstring) : str_eq a b = str_eq b a.
Proof.
  destruct (str_eq a b) eqn:E.
  - apply str_eq_true in E. subst b. symmetry. apply str_eq_refl.
  - symmetry. apply str_eq_false. apply str_eq_false in E. congruence.
Qed.

Lemma has_app (x : jsstring) (s t : MaintenancePage.idset) :
  MaintenancePage.has x (s ++ t) = MaintenancePage.has x s || MaintenancePage.has x t.
Proof. unfold MaintenancePage.has. apply existsb_app. Qed.

Lemma has_add (x id : jsstring) (s : MaintenancePage.idset) :
  MaintenancePage.has x (MaintenancePage.add id s)
  = MaintenancePage.has x s || str_eq x id.
Proof.
  unfold MaintenancePage.add. destruct (MaintenancePage.has id s) eqn:E.
  - destruct (str_eq x id) eqn:Ex; [ | rewrite orb_false_r; reflexivity].
    apply str_eq_true in Ex. subst x. rewrite E. reflexivity.
  - rewrite has_app. cbn. rewrite orb_false_r. reflexivity.
Qed.

Lemma has_delete (x id : jsstring) (s : MaintenancePage.idset) :
  MaintenancePage.has x (MaintenancePage.delete id s)
  = MaintenancePage.has x s && negb (str_eq x id).
Proof.
  unfold MaintenancePage.delete, MaintenancePage.has.
  induction s as [ | y s IH]; cbn; [reflexivity | ].
  destruct (str_eq id y) eqn:Ey; cbn.
  - apply str_eq_true in Ey. subst y. rewrite IH.
    destruct (str_eq x id); cbn; [rewrite andb_false_r | rewrite andb_true_r]; reflexivity.
  - rewrite IH. destruct (str_eq x y) eqn:Ex; cbn; [ | reflexivity].
    apply str_eq_true in Ex. subst y. rewrite (str_eq_sym x id), Ey. reflexivity.
Qed.

Lemma add_NoDup (id : jsstring) (s : MaintenancePage.idset) :
  List.NoDup s -> List.NoDup (MaintenancePage.add id s).
Proof.
  intros H. unfold MaintenancePage.add. destruct (MaintenancePage.has id s) eqn:E; [exact H | ].
  apply List.NoDup_app; [exact H | constructor; [intros [] | constructor] | ].
  intros x Hx [<- | []]. apply has_In in Hx. congruence.
Qed.

Lemma delete_NoDup (id : jsstring) (s : MaintenancePage.idset) :
  List.NoDup s -> List.NoDup (MaintenancePage.delete id s).
Proof. intros H. unfold MaintenancePage.delete. apply List.NoDup_filter. exact H. Qed.

Lemma of_list_from (l : list jsstring) (acc : MaintenancePage.idset) :
  List.NoDup acc ->
  List.NoDup (fold_left (fun a id => MaintenancePage.add id a) l acc)
  /\ forall x, In x (fold_left (fun a id => MaintenancePage.add id a) l acc)
               <-> In x acc \/ In x l.
Proof.
  revert acc. induction l as [ | y l IH]; intros acc Hacc; cbn.
  - split; [exact Hacc | intros x; tauto].
  - destruct (IH (MaintenancePage.add y acc) (add_NoDup y acc Hacc)) as [Hn Hi].
    split; [exact Hn | ]. intros x. rewrite Hi, <- !has_In, has_add.
    rewrite orb_true_iff, str_eq_true, !has_In. intuition congruence.
Qed.

Lemma of_list_spec (l : list jsstring) :
  List.NoDup (MaintenancePage.of_list l) /\ forall x, In x (MaintenancePage.of_list l) <-> In x l.
Proof.
  destruct (of_list_from l [] (List.NoDup_nil _)) as [Hn Hi]. split; [exact Hn | ].
  intros x. unfold MaintenancePage.of_list. rewrite Hi. cbn. tauto.
Qed.

Section Selection.
Context {B : Type}.
Variable serve : forall X, call X -> B -> result X * B.

(** X18.  A click on a row flips the selection of that row and of no other, in
    either table; it keeps the selection free of duplicates and touches
    nothing else on the page. *)
Theorem toggle_flips_one_row (id : jsstring) (w : world B MaintenancePage.state) :
  let ws := run serve (MaintenancePage.toggleStateSelection id) w in
  let we := run serve (MaintenancePage.toggleEntitySelection id) w in
  (forall x, MaintenancePage.has x (MaintenancePage.selectedStateIds (ui ws))
             = if str_eq x id
               then negb (MaintenancePage.has x (MaintenancePage.selectedStateIds (ui w)))
               else MaintenancePage.has x (MaintenancePage.selectedStateIds (ui w)))
  /\ (forall x, MaintenancePage.has x (MaintenancePage.selectedEntityIds (ui we))
                = if str_eq x id
                  then negb (MaintenancePage.has x (MaintenancePage.selectedEntityIds (ui w)))
                  else MaintenancePage.has x (MaintenancePage.selectedEntityIds (ui w)))
  /\ (List.NoDup (MaintenancePage.selectedStateIds (ui w)) ->
      List.NoDup (MaintenancePage.selectedStateIds (ui ws)))
  /\ (List.NoDup (MaintenancePage.selectedEntityIds (ui w)) ->
      List.NoDup (MaintenancePage.selectedEntityIds (ui we)))
  /\ MaintenancePage.setSelectedStateIds (fun _ => []) (ui ws)
     = MaintenancePage.setSelectedStateIds (fun _ => []) (ui w)
  /\ MaintenancePage.setSelectedEntityIds (fun _ => []) (ui we)
     = MaintenancePage.setSelectedEntityIds (fun _ => []) (ui w)
  /\ log ws = log w /\ log we = log w.
Proof.
  intros ws we. subst ws we. destruct w as [u b a l p]. destruct u.
  cbn -[MaintenancePage.has MaintenancePage.add MaintenancePage.delete str_eq].
  assert (Hflip : forall (s : MaintenancePage.idset) x,
             MaintenancePage.has x
               (if MaintenancePage.has id s then MaintenancePage.delete id s
                else MaintenancePage.add id s)
             = if str_eq x id then negb (MaintenancePage.has x s)
               else MaintenancePage.has x s).
  { intros s x. destruct (MaintenancePage.has id s) eqn:E.
    - rewrite has_delete. destruct (str_eq x id) eqn:Ex; cbn.
      + apply str_eq_true in Ex. subst x. rewrite E. reflexivity.
      + apply andb_true_r.
    - rewrite has_add. destruct (str_eq x id) eqn:Ex; cbn.
      + apply str_eq_true in Ex. subst x. rewrite E. reflexivity.
      + apply orb_false_r. }
  assert (Hnd : forall s : MaintenancePage.idset, List.NoDup s ->
             List.NoDup (if MaintenancePage.has id s then MaintenancePage.delete id s
                    else MaintenancePage.add id s)).
  { intros s H. destruct (MaintenancePage.has id s);
      [apply delete_NoDup | apply add_NoDup]; exact H. }
  repeat split; auto.
Qed.

(** X19.  "Select Non-Current" selects exactly the listed states that are not
    flagged current, each once.  When no two listed states share an id,
    the confirmation of the deletion that follows carries no
    CURRENT-version warning. *)
Theorem selectAllStates_selects_non_current
  (st : MaintenancePage.state) (os : orphan_states) (w : world B MaintenancePage.state) :
  MaintenancePage.orphanStates st = Some os ->
  let w' := run serve (MaintenancePage.selectAllStates st) w in
  let selected := MaintenancePage.selectedStateIds (ui w') in
  (forall id, In id selected
              <-> exists s, In s (states os) /\ o_state_id s = id /\ is_current s = false)
  /\ List.NoDup selected
  /\ (List.NoDup (List.map o_state_id (states os)) ->
      MaintenancePage.hasCurrent os selected = false).
Proof.
  intros Hos w' selected. subst selected w'.
  unfold MaintenancePage.selectAllStates. rewrite Hos.
  destruct w as [u b a l p]. destruct u. cbn.
  match goal with |- context [MaintenancePage.of_list ?l] =>
    destruct (of_list_spec l) as [Hn Hi]; set (ids := l) in *
  end.
  assert (Hsel : forall id, In id (MaintenancePage.of_list ids)
                 <-> exists s, In s (states os) /\ o_state_id s = id /\ is_current s = false).
  { intros id. rewrite Hi. subst ids. rewrite in_map_iff. split.
    - intros (s & <- & Hs). apply filter_In in Hs. destruct Hs as [Hs Hc].
      exists s. apply negb_true_iff in Hc. auto.
    - intros (s & Hs & <- & Hc). exists s. split; [reflexivity | ].
      apply filter_In. split; [exact Hs | apply negb_true_iff; exact Hc]. }
  split; [exact Hsel | split; [exact Hn | ]].
  intros Hids. destruct (MaintenancePage.hasCurrent os _) eqn:E; [ | reflexivity].
  exfalso. apply hasCurrent_spec in E. destruct E as (s & Hs & Hin & Hc).
  apply Hsel in Hin. destruct Hin as (s' & Hs' & Hid & Hc').
  assert (s' = s); [ | congruence].
  clear - Hids Hs Hs' Hid.
  induction (states os) as [ | y ys IH]; [contradiction | ].
  cbn in Hids. inversion Hids as [ | ? ? Hy Hys]; subst.
  destruct Hs as [-> | Hs]; destruct Hs' as [-> | Hs'].
  - reflexivity.
  - exfalso. apply Hy. rewrite <- Hid. apply in_map. exact Hs'.
  - exfalso. apply Hy. rewrite Hid. apply in_map. exact Hs.
  - apply IH; assumption.
Qed.

End Selection.

Lemma selectAllStates_selects_non_current_witness :
  let os := Fixture.two_orphans in
  let st := MaintenancePage.setOrphanStates (Some os) MaintenancePage.initial in
  let w' := run offline (MaintenancePage.selectAllStates st) (mount st tt []) in
  let selected := MaintenancePage.selectedStateIds (ui w') in
  (forall id, In id selected
              <-> exists s, In s (states os) /\ o_state_id s = id /\ is_current s = false)
  /\ List.NoDup selected
  /\ (List.NoDup (List.map o_state_id (states os)) ->
      MaintenancePage.hasCurrent os selected = false).
Proof.
  intros os st.
  apply (selectAllStates_selects_non_current offline st os (mount st tt [])).
  reflexivity.
Defined.

(** ** MaintenancePage: invariants of the page *)

Section MaintenanceSessions.
Import MaintenancePage.
Context {B : Type}.
Variable serve : forall X, call X -> B -> result X * B.

Ltac crunch :=
  repeat (cbn -[of_list has add delete];
          match goal with
          | |- context [serve ?X ?c ?b] =>
              let r := fresh "r" in
              let b' := fresh "b" in
              destruct (serve X c b) as [r b']; destruct r
          | |- context [if ?c then _ else _] =>
              lazymatch c with
              | has _ _ => fail
              | _ => destruct c
              end
          end).

Lemma dispatch_idle (w : world B state) (a : action) :
  idle (ui w) -> idle (ui (dispatch serve w a)).
Proof.
  intros Hi. destruct w as [u b ans l p].
  destruct u as [at' sm sl so sd se os ss sr el eo ed ee oe es er].
  unfold idle in Hi. cbn in Hi. destruct Hi as (-> & -> & -> & ->).
  unfold dispatch, idle.
  destruct a; cbn [handler ui];
    unfold handleSearchStates, handleSearchEntities, handleDeleteStates,
      handleDeleteEntities, selectAllStates, selectAllEntities, toggleStateSelection,
      toggleEntitySelection, changeStateLimit, changeEntityLimit;
    cbn [orphanStates orphanEntities];
    try (destruct os); try (destruct oe);
    crunch; repeat split.
Qed.

(** X20.  The busy flags never stick: after any sequence of actions on the
    page, whatever the server answers and whatever the user says in the
    dialogs, no search and no deletion is marked as under way, so that no
    button stays disabled. *)
Theorem busy_flags_are_released (b : B) (answers : list bool) (acts : list action) :
  idle (ui (session serve (mount initial b answers) acts)).
Proof.
  unfold session.
  assert (H : idle (ui (mount (B := B) initial b answers))) by (repeat split).
  revert H. generalize (mount (B := B) initial b answers).
  induction acts as [ | a acts IH]; intros w Hw; cbn [fold_left].
  - exact Hw.
  - apply IH. apply dispatch_idle. exact Hw.
Qed.


End MaintenanceSessions.

(** ** MaintenancePage: a click while a search is on its way *)

Section SearchInFlight.
Context {B : Type}.
Variable serve : forall X, call X -> B -> result X * B.

(** X21.  The rows of the list found before stay on the page, and can be
    clicked, while a new search waits for its reply: the search empties
    the selection when it starts, not when the reply arrives.  A row
    clicked in between is therefore the selection after the reply,
    whatever the reply.  When the search succeeded the selected id need
    not be in the new list; when it failed the page has a selection and no
    list, the Delete button is shown (the selection is not empty), and a
    click on it stops on the missing list: no dialog, no request, no
    change. *)
Theorem click_during_search_outlives_the_list
  (id : jsstring) (os : orphan_states) (w : world B MaintenancePage.state) :
  MaintenancePage.orphanStates (ui w) = Some os ->
  In id (List.map o_state_id (states os)) ->
  let started := until_await (MaintenancePage.handleSearchStates (ui w)) w in
  let clicked := run serve (MaintenancePage.toggleStateSelection id) (fst started) in
  let replied := run serve (snd started) clicked in
  (MaintenancePage.orphanStates (ui (fst started)) = Some os
   /\ MaintenancePage.selectedStateIds (ui (fst started)) = [])
  /\ MaintenancePage.selectedStateIds (ui replied) = [id]
  /\ MaintenancePage.stateLoading (ui replied) = false
  /\ match fst (serve _ (getOrphanStates (MaintenancePage.stateMode (ui w))
                                          (MaintenancePage.stateLimit (ui w)))
                       (backend clicked)) with
     | Ok found => MaintenancePage.orphanStates (ui replied) = Some found
     | Err _ =>
         MaintenancePage.orphanStates (ui replied) = None
         /\ (0 <? MaintenancePage.size (MaintenancePage.selectedStateIds (ui replied))) = true
         /\ MaintenancePage.handleDeleteStates (ui replied) = Done
     end.
Proof.
  intros Hos Hid started clicked replied. subst replied clicked started.
  destruct w as [u b a l p].
  destruct u as [at' sm sl so sd se os' ss sr el eo ed ee oe es er].
  cbn in Hos. subst os'.
  unfold MaintenancePage.handleSearchStates, MaintenancePage.toggleStateSelection.
  cbn.
  destruct (serve _ (getOrphanStates sm sl) b) as [r b'].
  destruct r as [found | err]; cbn; repeat split.
Qed.

End SearchInFlight.

Lemma click_during_search_outlives_the_list_witness :
  let st := MaintenancePage.setOrphanStates (Some Fixture.two_orphans)
              MaintenancePage.initial in
  let w := mount st tt [] in
  let id := lit "s2" in
  let started := until_await (MaintenancePage.handleSearchStates (ui w)) w in
  let clicked := run offline (MaintenancePage.toggleStateSelection id) (fst started) in
  let replied := run offline (snd started) clicked in
  (MaintenancePage.orphanStates (ui (fst started)) = Some Fixture.two_orphans
   /\ MaintenancePage.selectedStateIds (ui (fst started)) = [])
  /\ MaintenancePage.selectedStateIds (ui replied) = [id]
  /\ MaintenancePage.stateLoading (ui replied) = false
  /\ match fst (offline _ (getOrphanStates (MaintenancePage.stateMode (ui w))
                                           (MaintenancePage.stateLimit (ui w)))
                        (backend clicked)) with
     | Ok found => MaintenancePage.orphanStates (ui replied) = Some found
     | Err _ =>
         MaintenancePage.orphanStates (ui replied) = None
         /\ (0 <? MaintenancePage.size (MaintenancePage.selectedStateIds (ui replied))) = true
         /\ MaintenancePage.handleDeleteStates (ui replied) = Done
     end.
Proof.
  intros st w id.
  apply (click_during_search_outlives_the_list offline id Fixture.two_orphans w).
  - reflexivity.
  - right. left. reflexivity.
Defined.

(** ** MaintenancePage: the limit fields and the searches *)



Section Searches.
Context {B : Type}.
Variable serve : forall X, call X -> B -> result X * B.

(** X23.  A search that fails shows a message that is never empty: the
    server's [detail] when it is a non-empty string, else the error's
    message when that is not empty, else the fallback ["Failed to fetch
    orphan states"].  The list of the failed search is removed, its
    selection is empty and the search is no longer marked as running; the
    other tab is left as it was. *)
Theorem failed_search_shows_a_message
  (st : MaintenancePage.state) (err : error) (b' : B)
  (w : world B MaintenancePage.state) :
  serve _ (getOrphanStates (MaintenancePage.stateMode st) (MaintenancePage.stateLimit st))
        (backend w) = (Err err, b') ->
  let w' := run serve (MaintenancePage.handleSearchStates st) w in
  exists msg,
    MaintenancePage.stateError (ui w') = Str msg
    /\ msg <> []
    /\ msg = match detail err with
             | Str (c :: d) => c :: d
             | _ => match message err with
                    | c :: m => c :: m
                    | [] => lit "Failed to fetch orphan states"
                    end
             end
    /\ MaintenancePage.orphanStates (ui w') = None
    /\ MaintenancePage.selectedStateIds (ui w') = []
    /\ MaintenancePage.stateLoading (ui w') = false
    /\ MaintenancePage.orphanEntities (ui w') = MaintenancePage.orphanEntities (ui w)
    /\ MaintenancePage.selectedEntityIds (ui w') = MaintenancePage.selectedEntityIds (ui w).
Proof.
  intros Hs w'. subst w'. destruct w as [u b a l p]. cbn in Hs.
  unfold MaintenancePage.handleSearchStates. cbn. rewrite Hs. cbn.
  exists (MaintenancePage.error_text err (lit "Failed to fetch orphan states")).
  destruct u; cbn.
  split; [reflexivity | ]. split; [ | split; [ | repeat split]].
  - unfold MaintenancePage.error_text.
    destruct (detail err) as [ | | [ | c d]]; cbn; try discriminate;
      destruct (message err); cbn; discriminate.
  - unfold MaintenancePage.error_text.
    destruct (detail err) as [ | | [ | c d]]; cbn; try reflexivity;
      destruct (message err); reflexivity.
Qed.

End Searches.

Lemma failed_search_shows_a_message_witness :
  let st := MaintenancePage.initial in
  let err := {| message := lit "Network Error"; detail := Undefined; status := None |} in
  let w' := run offline (MaintenancePage.handleSearchStates st) (mount st tt []) in
  exists msg,
    MaintenancePage.stateError (ui w') = Str msg
    /\ msg <> []
    /\ msg = match detail err with
             | Str (c :: d) => c :: d
             | _ => match message err with
                    | c :: m => c :: m
                    | [] => lit "Failed to fetch orphan states"
                    end
             end
    /\ MaintenancePage.orphanStates (ui w') = None
    /\ MaintenancePage.selectedStateIds (ui w') = []
    /\ MaintenancePage.stateLoading (ui w') = false
    /\ MaintenancePage.orphanEntities (ui w')
       = MaintenancePage.orphanEntities (ui (mount (B := unit) st tt []))
    /\ MaintenancePage.selectedEntityIds (ui w')
       = MaintenancePage.selectedEntityIds (ui (mount (B := unit) st tt [])).
Proof.
  intros st err.
  apply (failed_search_shows_a_message offline st err tt (mount st tt [])).
  reflexivity.
Defined.

(** ** ReviewPage: the selection and the list *)

Section ReviewSessions.
Import ReviewPage.
Context {B : Type}.
Variable serve : forall X, call X -> B -> result X * B.

Lemma loadSnapshots_steady (sessionId : jsstring) (w : world B state) :
  steady w -> steady (run serve (loadSnapshots sessionId) w).
Proof.
  intros [Hs Hp]. destruct w as [u b a l p]. destruct u as [ss cs sn se dd lo er].
  unfold steady, selection_listed in *. cbn in Hs, Hp.
  unfold loadSnapshots. cbn.
  destruct (serve _ (getSnapshots sessionId) b) as [r b'].
  destruct r as [[ | first rest] | e]; cbn.
  - split; [exact I | exact Hp].
  - split; [left; reflexivity | exact Hp].
  - destruct (is_404 e); cbn; split; first [exact I | assumption].
Qed.

Lemma dispatch_steady (w : world B state) (a : action) :
  steady w -> offered (ui w) a -> steady (dispatch serve w a).
Proof.
  intros Hw Ho. destruct a; unfold dispatch; cbn [handler].
  - (* Mounted *)
    destruct Hw as [Hs Hp]. destruct w as [u b a l p]. destruct u as [ss cs sn se dd lo er].
    unfold steady, selection_listed in *. cbn in Hs, Hp. unfold loadSessions. cbn.
    destruct (serve _ getSessions b) as [r b'].
    destruct r as [[ | first rest] | e]; cbn; [ | destruct (jsopt_truthy cs); cbn | ];
      split; assumption.
  - (* SessionEffect *)
    unfold sessionEffect. destruct (jsopt_truthy _); [ | exact Hw].
    apply loadSnapshots_steady. exact Hw.
  - (* SelectionEffect *)
    destruct Hw as [Hs Hp]. destruct w as [u b a l p]. destruct u as [ss cs sn se dd lo er].
    unfold steady, selection_listed, selectionEffect in *. cbn in Hs, Hp |- *.
    destruct se as [sel | ]; [ | split; assumption].
    destruct (jsopt_truthy cs); [ | split; assumption].
    unfold loadDiff. cbn. destruct (serve _ _ b) as [r b'].
    destruct r as [d | e]; cbn; split; assumption.
  - (* ChangeSession *)
    destruct Hw as [Hs Hp]. destruct w as [u b a l p]. destruct u. split; assumption.
  - (* SelectRow *)
    destruct Hw as [Hs Hp]. destruct w as [u b a l p]. destruct u.
    cbn in Ho. split; [exact (proj1 Ho) | exact Hp].
  - (* Rollback *)
    destruct Hw as [Hs Hp]. destruct w as [u b a l p]. destruct u as [ss cs sn se dd lo er].
    unfold steady, selection_listed, handleRollback in *. cbn in Hs, Hp |- *.
    destruct se as [sel | ]; [ | split; assumption].
    destruct (jsopt_truthy cs); cbn; [ | split; assumption].
    destruct a as [ | [ | ] a']; cbn; try (split; assumption).
    destruct (serve _ _ b) as [r b']. destruct r as [x | e]; cbn; [ | split; assumption].
    destruct (serve _ _ b') as [r2 b2]. destruct r2 as [x2 | e2]; cbn; [ | split; assumption].
    split; [assumption | ].
    apply Forall_app. split; [assumption | ].
    constructor; [eexists; reflexivity | constructor].
  - (* Approve *)
    destruct Hw as [Hs Hp]. destruct w as [u b a l p]. destruct u as [ss cs sn se dd lo er].
    unfold steady, selection_listed, handleApprove in *. cbn in Hs, Hp |- *.
    destruct se as [sel | ]; [ | split; assumption].
    destruct (jsopt_truthy cs); cbn; [ | split; assumption].
    destruct (serve _ _ b) as [r b']. destruct r as [x | e]; cbn; [ | split; assumption].
    split; [assumption | ].
    apply Forall_app. split; [assumption | ].
    constructor; [eexists; reflexivity | constructor].
  - (* ApproveAll *)
    destruct Hw as [Hs Hp]. destruct w as [u b a l p]. destruct u as [ss cs sn se dd lo er].
    unfold steady, selection_listed, handleClearSession in *. cbn in Hs, Hp |- *.
    destruct (jsopt_truthy cs); cbn; [ | split; assumption].
    destruct a as [ | [ | ] a']; cbn; try (split; assumption).
    destruct (serve _ _ b) as [r b']. destruct r as [x | e]; cbn; [ | split; assumption].
    split; [assumption | ].
    apply Forall_app. split; [assumption | ].
    constructor; [eexists; reflexivity | constructor].
  - (* Detached *)
    unfold run_pending. destruct Hw as [Hs Hp].
    destruct (pending w) as [ | t rest] eqn:Ep; [split; [exact Hs | rewrite Ep; exact Hp] | ].
    inversion Hp as [ | ? ? [sessionId ->] Hrest]; subst.
    apply loadSnapshots_steady. split; [exact Hs | exact Hrest].
Qed.

(** X24.  Whatever happens on the review page (its effects, the user's clicks
    on what the page offers, the reloads the handlers detach, in any
    order) and whatever the server answers, the selected snapshot, if
    there is one, is one of the snapshots listed: "Rollback" and "Approve"
    never act on a snapshot that has left the list.  The tasks the
    handlers detach are reloads of the list and nothing else. *)
Theorem review_selection_is_listed
  (b : B) (answers : list bool) (acts : list action) :
  offered_session serve (mount initial b answers) acts ->
  let w := session serve (mount initial b answers) acts in
  selection_listed (ui w) /\ Forall is_reload (pending w).
Proof.
  intros Ho w. subst w. unfold session.
  assert (H0 : steady (mount (B := B) initial b answers)) by (split; [exact I | constructor]).
  revert H0 Ho. generalize (mount (B := B) initial b answers).
  induction acts as [ | a acts IH]; intros w Hw Ho; cbn [fold_left].
  - exact Hw.
  - destruct Ho as [Ha Ho]. apply IH; [ | exact Ho].
    apply dispatch_steady; assumption.
Qed.

End ReviewSessions.

Lemma review_selection_is_listed_witness :
  let acts := [ReviewPage.ChangeSession (lit "s1"); ReviewPage.SessionEffect;
               ReviewPage.SelectRow Fixture.listed_char_1; ReviewPage.Approve;
               ReviewPage.Detached] in
  let w := ReviewPage.session Ledger.serve
             (mount ReviewPage.initial (Fixture.reviewing []) []) acts in
  ReviewPage.selection_listed (ui w) /\ Forall ReviewPage.is_reload (pending w).
Proof.
  intros acts.
  apply (review_selection_is_listed Ledger.serve (Fixture.reviewing []) [] acts).
  cbn. repeat split; try exact I; try discriminate. left. reflexivity.
Defined.

(** ** SnapshotList *)

Lemma highlighted_count (id : jsstring) (l : list snapshot) :
  List.NoDup (List.map resource_id l) ->
  List.length (List.filter SnapshotList.highlighted
                 (List.map (SnapshotList.render_row (Str id)) l))
  = if existsb (fun s => str_eq (resource_id s) id) l then 1%nat else 0%nat.
Proof.
  induction l as [ | s l IH]; intros Hn; [reflexivity | ].
  cbn [List.map] in Hn. inversion Hn as [ | ? ? Hs Hl]; subst.
  cbn [List.map List.filter existsb SnapshotList.render_row SnapshotList.highlighted strict_eq].
  destruct (str_eq (resource_id s) id) eqn:E; cbn [orb List.length].
  - apply str_eq_true in E. subst id. rewrite (IH Hl).
    destruct (existsb _ l) eqn:Ex; [ | reflexivity].
    exfalso. apply Hs. apply existsb_exists in Ex. destruct Ex as (s' & Hin & He).
    apply str_eq_true in He. rewrite <- He. apply in_map. exact Hin.
  - exact (IH Hl).
Qed.

(** X25.  The list has one row per snapshot, in order, and highlights exactly
    the rows whose resource id is the selected one.  On the review page,
    when the resource ids listed are distinct and the selected snapshot is
    listed, exactly one row is highlighted, the one of the selected
    snapshot; with nothing selected, none is. *)
Theorem SnapshotList_highlights_the_selection (st : ReviewPage.state) :
  let rows := SnapshotList.rows_of (SnapshotList.of_page st) in
  List.NoDup (List.map resource_id (ReviewPage.snapshots st)) ->
  ReviewPage.selection_listed st ->
  List.map SnapshotList.key rows = List.map resource_id (ReviewPage.snapshots st)
  /\ (forall r, In r rows ->
        (SnapshotList.highlighted r = true
         <-> ReviewPage.selectedId st = Str (SnapshotList.key r)))
  /\ List.length (List.filter SnapshotList.highlighted rows)
     = match ReviewPage.selectedSnapshot st with Some _ => 1%nat | None => 0%nat end.
Proof.
  intros rows Hn Hs. subst rows. unfold SnapshotList.of_page, SnapshotList.SnapshotList.
  assert (Hrows : SnapshotList.rows_of
                    match ReviewPage.snapshots st with
                    | [] => SnapshotList.NoPendingReviews
                    | _ :: _ =>
                        SnapshotList.Rows
                          (List.map (SnapshotList.render_row (ReviewPage.selectedId st))
                             (ReviewPage.snapshots st))
                    end
                  = List.map (SnapshotList.render_row (ReviewPage.selectedId st))
                      (ReviewPage.snapshots st)).
  { destruct (ReviewPage.snapshots st); reflexivity. }
  rewrite Hrows. clear Hrows.
  split; [ | split].
  - rewrite List.map_map. reflexivity.
  - intros r Hr. apply in_map_iff in Hr. destruct Hr as (s & <- & _).
    cbn [SnapshotList.render_row SnapshotList.highlighted SnapshotList.key].
    unfold ReviewPage.selectedId.
    destruct (ReviewPage.selectedSnapshot st) as [sel | ]; cbn [strict_eq].
    + rewrite str_eq_true. split; [intros ->; reflexivity | intros [= ->]; reflexivity].
    + split; discriminate.
  - unfold ReviewPage.selectedId, ReviewPage.selection_listed in *.
    destruct (ReviewPage.selectedSnapshot st) as [sel | ].
    + rewrite (highlighted_count _ _ Hn).
      replace (existsb _ _) with true; [reflexivity | ].
      symmetry. apply existsb_exists. exists sel. split; [exact Hs | apply str_eq_refl].
    + induction (ReviewPage.snapshots st) as [ | s l IH]; [reflexivity | ].
      cbn. apply IH. cbn in Hn. inversion Hn; assumption.
Qed.

Lemma SnapshotList_highlights_the_selection_witness :
  let st := Fixture.review_page in
  let rows := SnapshotList.rows_of (SnapshotList.of_page st) in
  List.map SnapshotList.key rows = List.map resource_id (ReviewPage.snapshots st)
  /\ (forall r, In r rows ->
        (SnapshotList.highlighted r = true
         <-> ReviewPage.selectedId st = Str (SnapshotList.key r)))
  /\ List.length (List.filter SnapshotList.highlighted rows)
     = match ReviewPage.selectedSnapshot st with Some _ => 1%nat | None => 0%nat end.
Proof.
  intros st.
  apply (SnapshotList_highlights_the_selection st).
  - repeat constructor. intros [].
  - left. reflexivity.
Defined.

(** X26.  The colour and the text of a row's badge agree: the badge is green
    exactly when it reads "create"; a snapshot without an operation type
    reads "modify" and is amber.  Without snapshots (a missing or an empty
    list) the component shows the "No pending reviews" notice and no
    row. *)
Theorem SnapshotList_badge_matches_label (selectedId : jsopt) (snap : snapshot) :
  let row := SnapshotList.render_row selectedId snap in
  (SnapshotList.badge row = SnapshotList.create_badge
   <-> SnapshotList.label row = lit "create")
  /\ (jsopt_truthy (operation_type snap) = false ->
      SnapshotList.label row = lit "modify"
      /\ SnapshotList.badge row = SnapshotList.modify_badge)
  /\ (forall snapshots,
        SnapshotList.SnapshotList snapshots selectedId = SnapshotList.NoPendingReviews
        <-> or_nil snapshots = []).
Proof.
  intros row. subst row.
  cbn [SnapshotList.render_row SnapshotList.badge SnapshotList.label].
  unfold SnapshotList.is_create.
  split; [ | split].
  - destruct (operation_type snap) as [ | | op]; cbn [jsopt_eq jsopt_truthy or_empty].
    + split; discriminate.
    + split; discriminate.
    + destruct (str_eq op (lit "create")) eqn:E.
      * apply str_eq_true in E. subst op. split; reflexivity.
      * apply str_eq_false in E. split; [discriminate | ].
        destruct op as [ | c r]; [cbn; discriminate | ].
        cbn [jsopt_truthy str_truthy or_empty]. intros H. exfalso. apply E. exact H.
  - intros Hf. rewrite Hf.
    destruct (operation_type snap) as [ | | [ | c r]]; cbn in *; try discriminate;
      split; reflexivity.
  - intros [[ | s l] | ]; cbn; split; try reflexivity; discriminate.
Qed.

(** ** ReviewPage: the buttons *)

Section ReviewButtons.
Context {B : Type}.
Variable serve : forall X, call X -> B -> result X * B.

(** X27.  "Rollback" and "Approve All" do nothing without a confirmation: when
    the dialog is cancelled (or the handler stops before it, for want of a
    session or of a selected snapshot) no request is sent and the page,
    the server and the detached tasks are as they were. *)
Theorem ReviewPage_cancelled_dialog_changes_nothing
  (st : ReviewPage.state) (w : world B ReviewPage.state) :
  next_answer w = false ->
  (exists shown, refused shown w (run serve (ReviewPage.handleRollback st) w))
  /\ (exists shown, refused shown w (run serve (ReviewPage.handleClearSession st) w)).
Proof.
  intros Ha. unfold ReviewPage.handleRollback, ReviewPage.handleClearSession.
  assert (Hnone : refused [] w w).
  { split; [apply fresh_log_app; symmetry; apply app_nil_r | repeat split]. }
  split.
  - destruct (ReviewPage.selectedSnapshot st) as [sel | ]; [ | exists []; exact Hnone].
    destruct (jsopt_truthy (ReviewPage.currentSessionId st)); cbn;
      [ | exists []; exact Hnone].
    rewrite Ha. cbn. eexists. split; [apply fresh_log_app; reflexivity | repeat split].
  - destruct (jsopt_truthy (ReviewPage.currentSessionId st)); cbn;
      [ | exists []; exact Hnone].
    rewrite Ha. cbn. eexists. split; [apply fresh_log_app; reflexivity | repeat split].
Qed.

(** X28.  "Approve" asks nothing: with a session and a selected snapshot it
    sends exactly one request, [approveSnapshot] for that session and that
    snapshot's resource, without any dialog.  It leaves the cells of the
    page alone; when the request succeeds it detaches a reload of the
    session's list, and when it fails it shows the error's message. *)
Theorem handleApprove_sends_one_request
  (st : ReviewPage.state) (sel : snapshot) (sessionId : jsstring)
  (w : world B ReviewPage.state) :
  ReviewPage.selectedSnapshot st = Some sel ->
  ReviewPage.currentSessionId st = Str sessionId ->
  sessionId <> [] ->
  let w' := run serve (ReviewPage.handleApprove st) w in
  let request := approveSnapshot sessionId (resource_id sel) in
  ui w' = ui w
  /\ ((fresh_log w w' = [ECall request true; ESpawn]
       /\ pending w' = pending w ++ [ReviewPage.loadSnapshots sessionId])
      \/ (exists err,
            fst (serve _ request (backend w)) = Err err
            /\ fresh_log w w'
               = [ECall request false; EAlert (lit "Approval failed: " ++ message err)]
            /\ pending w' = pending w)).
Proof.
  intros Hsel Hsid Hne w' request. subst w' request.
  unfold ReviewPage.handleApprove. rewrite Hsel, Hsid.
  destruct sessionId as [ | c r]; [congruence | ]. cbn.
  destruct (serve _ _ (backend w)) as [res b'].
  destruct res as [x | err]; cbn.
  - split; [reflexivity | left]. split; [ | reflexivity].
    apply fresh_log_app. cbn. rewrite <- app_assoc. reflexivity.
  - split; [reflexivity | right]. exists err. split; [reflexivity | ].
    split; [ | reflexivity].
    apply fresh_log_app. cbn. rewrite <- app_assoc. reflexivity.
Qed.

End ReviewButtons.

Lemma ReviewPage_cancelled_dialog_changes_nothing_witness :
  let st := Fixture.review_page in
  let w := mount st (Fixture.reviewing []) [false] in
  (exists shown, refused shown w (run Ledger.serve (ReviewPage.handleRollback st) w))
  /\ (exists shown, refused shown w (run Ledger.serve (ReviewPage.handleClearSession st) w)).
Proof.
  intros st w.
  apply (ReviewPage_cancelled_dialog_changes_nothing Ledger.serve st w).
  reflexivity.
Defined.

Lemma handleApprove_sends_one_request_witness :
  let st := Fixture.review_page in
  let w := mount st tt [] in
  let w' := run offline (ReviewPage.handleApprove st) w in
  let request := approveSnapshot (lit "s1") (lit "char_1") in
  ui w' = ui w
  /\ ((fresh_log w w' = [ECall request true; ESpawn]
       /\ pending w' = pending w ++ [ReviewPage.loadSnapshots (lit "s1")])
      \/ (exists err,
            fst (offline _ request (backend w)) = Err err
            /\ fresh_log w w'
               = [ECall request false; EAlert (lit "Approval failed: " ++ message err)]
            /\ pending w' = pending w)).
Proof.
  intros st w.
  apply (handleApprove_sends_one_request offline st
           {| resource_id := lit "char_1"; resource_type := lit "entity";
              operation_type := Str (lit "modify") |} (lit "s1") w).
  - reflexivity.
  - reflexivity.
  - discriminate.
Defined.

(** ** ReviewPage: a session without snapshots *)

Section ReviewLoads.
Context {B : Type}.
Variable serve : forall X, call X -> B -> result X * B.

(** X29.  A failed load of the snapshots always ends the "Loading..." state.  A
    404 is taken for an empty list: nothing is listed or selected any
    more, and nothing is written to the console; the diff shown before
    stays stored.  Any other failure is written to the console and leaves
    the list and the selection as they were. *)
Theorem loadSnapshots_takes_404_for_empty
  (sessionId : jsstring) (err : error) (b' : B) (w : world B ReviewPage.state) :
  serve _ (getSnapshots sessionId) (backend w) = (Err err, b') ->
  let w' := run serve (ReviewPage.loadSnapshots sessionId) w in
  ReviewPage.loading (ui w') = false
  /\ ReviewPage.diffData (ui w') = ReviewPage.diffData (ui w)
  /\ (status err = Some 404 ->
        ReviewPage.snapshots (ui w') = []
        /\ ReviewPage.selectedSnapshot (ui w') = None
        /\ fresh_log w w' = [ECall (getSnapshots sessionId) false])
  /\ (status err <> Some 404 ->
        ReviewPage.snapshots (ui w') = ReviewPage.snapshots (ui w)
        /\ ReviewPage.selectedSnapshot (ui w') = ReviewPage.selectedSnapshot (ui w)
        /\ fresh_log w w' = [ECall (getSnapshots sessionId) false; EConsoleError]).
Proof.
  intros Hs w'. subst w'. destruct w as [u b a l p]. cbn in Hs.
  unfold ReviewPage.loadSnapshots, fresh_log. cbn. rewrite Hs. cbn.
  assert (H404 : ReviewPage.is_404 err = true <-> status err = Some 404).
  { unfold ReviewPage.is_404. destruct (status err) as [n | ]; [ | split; discriminate].
    rewrite Z.eqb_eq. split; congruence. }
  destruct (ReviewPage.is_404 err) eqn:E; cbn; rewrite <- ?app_assoc, skipn_log;
    destruct u; cbn.
  - split; [reflexivity | split; [reflexivity | split]].
    + intros _. repeat split.
    + intros Hne. exfalso. apply Hne, H404. reflexivity.
  - split; [reflexivity | split; [reflexivity | split]].
    + intros H. apply H404 in H. discriminate H.
    + intros _. repeat split.
Qed.

End ReviewLoads.

Lemma loadSnapshots_takes_404_for_empty_witness :
  let w := mount Fixture.review_page (Fixture.reviewing [true]) [] in
  let w' := run Ledger.serve (ReviewPage.loadSnapshots (lit "s1")) w in
  ReviewPage.loading (ui w') = false
  /\ ReviewPage.diffData (ui w') = ReviewPage.diffData (ui w)
  /\ (status Ledger.internal_error = Some 404 ->
        ReviewPage.snapshots (ui w') = []
        /\ ReviewPage.selectedSnapshot (ui w') = None
        /\ fresh_log w w' = [ECall (getSnapshots (lit "s1")) false])
  /\ (status Ledger.internal_error <> Some 404 ->
        ReviewPage.snapshots (ui w') = ReviewPage.snapshots (ui w)
        /\ ReviewPage.selectedSnapshot (ui w') = ReviewPage.selectedSnapshot (ui w)
        /\ fresh_log w w' = [ECall (getSnapshots (lit "s1")) false; EConsoleError]).
Proof.
  intros w.
  apply (loadSnapshots_takes_404_for_empty Ledger.serve (lit "s1") Ledger.internal_error
           (Ledger.consume_fault (Fixture.reviewing [true])) w).
  reflexivity.
Defined.
